(** * b00t job platform: crawl jobs, garbage collection and the k0mmand3r router

  A shallow embedding of the Python sources

  - [langchain-agent/src/b00t_langchain_agent/k0mmand3r.py]
    (verb table, severity filter, command dispatch, result publishing),
  - [b00t-j0b-py/src/b00t_j0b_py/adk_integration.py]
    (approval handshake, agent execution, ADK job wrappers),
  - [b00t-j0b-py/src/b00t_j0b_py/jobs.py]
    (crawl, digest, binary-content and cleanup jobs).

  Python values are a small inductive type, dictionaries are insertion
  ordered association lists, exceptions are explicit results, and every
  external collaborator (Redis, the agent service, the crawler, the parser
  registry, RQ) is an oracle whose answer may be a value or an exception.
  Exceptions are those below [Exception]; what the jobs [print] is left
  out, the records of the router's logger are kept. *)

From Stdlib Require Import ZArith List Bool Ascii.
From Stdlib Require String.
From stdpp Require Import base option list strings pretty gmap.

Import ListNotations.
Local Open Scope Z_scope.

(* ===================================================================== *)
(** ** Python values, dictionaries and exceptions *)
(* ===================================================================== *)

Module Py.

(** JSON-shaped Python values.  A [VDict] keeps insertion order, like a
    Python [dict]; a float is kept as the decimal literal
    [mantissa * 10 ^ exponent]. *)
Local Set Warnings "-register-all".
Inductive pyval : Type :=
| VNone
| VBool (b : bool)
| VInt (n : Z)
| VFloat (mantissa exponent : Z)
| VStr (s : string)
| VList (l : list pyval)
| VDict (d : list (string * pyval)).

Abbreviation pydict := (list (string * pyval)).

(** Python truthiness ([bool(v)]). *)
Definition truthy (v : pyval) : bool :=
  match v with
  | VNone => false
  | VBool b => b
  | VInt n => negb (n =? 0)
  | VFloat m _ => negb (m =? 0)
  | VStr s => negb (String.eqb s "")
  | VList l => match l with [] => false | _ => true end
  | VDict d => match d with [] => false | _ => true end
  end.

(** [a or b]. *)
Definition py_or (a b : pyval) : pyval := if truthy a then a else b.

(** [d.get(k)] as an option: the first binding of [k]. *)
Fixpoint lookup (k : string) (d : pydict) : option pyval :=
  match d with
  | [] => None
  | (k', v) :: rest => if String.eqb k k' then Some v else lookup k rest
  end.

(** [d.get(k)]: [None] when the key is absent. *)
Definition get (d : pydict) (k : string) : pyval :=
  match lookup k d with Some v => v | None => VNone end.

(** [d.get(k, default)]. *)
Definition get_default (d : pydict) (k : string) (default : pyval) : pyval :=
  match lookup k d with Some v => v | None => default end.

(** [k in d]. *)
Definition mem (k : string) (d : pydict) : bool :=
  match lookup k d with Some _ => true | None => false end.

(** [d[k] = v]: overwrite in place, or append a new binding. *)
Fixpoint set (k : string) (v : pyval) (d : pydict) : pydict :=
  match d with
  | [] => [(k, v)]
  | (k', v') :: rest =>
      if String.eqb k k' then (k, v) :: rest else (k', v') :: set k v rest
  end.

(** [d.update(e)]. *)
Definition update (d e : pydict) : pydict :=
  fold_left (fun acc kv => set (fst kv) (snd kv) acc) e d.

(** [x in xs] for a list or tuple of strings. *)
Definition str_in (x : string) (xs : list string) : bool :=
  existsb (String.eqb x) xs.

(** A raised exception: its class name and [str(e)]. *)
Record exn : Type := Exn { exn_class : string; exn_msg : string }.

(** The result of evaluating a Python expression or call. *)
Inductive outcome (A : Type) : Type :=
| Ret (a : A)
| Raise (e : exn).
Arguments Ret {A} a.
Arguments Raise {A} e.

Definition is_ret {A} (o : outcome A) : bool :=
  match o with Ret _ => true | Raise _ => false end.

(** [d[k]]: raises [KeyError] when the key is absent. *)
Definition subscript (d : pydict) (k : string) : outcome pyval :=
  match lookup k d with
  | Some v => Ret v
  | None => Raise (Exn "KeyError" ("'" +:+ k +:+ "'"))
  end.

(** [k in v] for an arbitrary container [v]. *)
Definition contains (k : string) (v : pyval) : outcome bool :=
  match v with
  | VDict d => Ret (mem k d)
  | VList l =>
      Ret (existsb (fun x => match x with VStr s => String.eqb s k | _ => false end) l)
  | VStr s => Ret (match String.index 0 k s with Some _ => true | None => false end)
  | _ => Raise (Exn "TypeError" "argument is not iterable")
  end.

(** [v[k]] for a string index [k]. *)
Definition item (v : pyval) (k : string) : outcome pyval :=
  match v with
  | VDict d => subscript d k
  | VList _ => Raise (Exn "TypeError" "list indices must be integers or slices, not str")
  | VStr _ => Raise (Exn "TypeError" "string indices must be integers, not 'str'")
  | _ => Raise (Exn "TypeError" "object is not subscriptable")
  end.

(** [v.get(k, default)] on a value that ought to be a dict. *)
Definition get_method (v : pyval) (k : string) (default : pyval) : outcome pyval :=
  match v with
  | VDict d => Ret (get_default d k default)
  | _ => Raise (Exn "AttributeError" "object has no attribute 'get'")
  end.

(** [v[k] = x] on a value that ought to be a dict. *)
Definition set_item (v : pyval) (k : string) (x : pyval) : outcome pyval :=
  match v with
  | VDict d => Ret (VDict (set k x d))
  | _ => Raise (Exn "TypeError" "object does not support item assignment")
  end.

(** Values that can be members of a [set]. *)
Definition hashable (v : pyval) : bool :=
  match v with
  | VList _ | VDict _ => false
  | _ => true
  end.

(** [a == b] on hashable values; [True == 1] and [False == 0] as in Python,
    floats by their literal. *)
Definition scalar_eqb (a b : pyval) : bool :=
  match a, b with
  | VNone, VNone => true
  | VBool x, VBool y => Bool.eqb x y
  | VInt x, VInt y => x =? y
  | VBool x, VInt y | VInt y, VBool x => y =? (if x then 1 else 0)
  | VFloat m e, VFloat m' e' => (m =? m') && (e =? e')
  | VStr x, VStr y => String.eqb x y
  | _, _ => false
  end.

(** Drop repeated members, keeping first occurrences. *)
Fixpoint dedup (l : list pyval) : list pyval :=
  match l with
  | [] => []
  | x :: rest => x :: filter (fun y => negb (scalar_eqb x y)) (dedup rest)
  end.

(** [set(v)]: the members, without repetition. *)
Definition set_of (v : pyval) : outcome (list pyval) :=
  match v with
  | VList l =>
      if forallb hashable l then Ret (dedup l)
      else Raise (Exn "TypeError" "unhashable type")
  | VDict d => Ret (dedup (map (fun kv => VStr (fst kv)) d))
  | VStr s =>
      Ret (dedup (map (fun c => VStr (String c EmptyString)) (String.list_ascii_of_string s)))
  | _ => Raise (Exn "TypeError" "object is not iterable")
  end.

(** [returns.result.Result]. *)
Inductive Result (A E : Type) : Type :=
| Success (a : A)
| Failure (e : E).
Arguments Success {A E} a.
Arguments Failure {A E} e.

(** [v == s] for a string constant [s] (also a [str]-valued enum member). *)
Definition eq_str (v : pyval) (s : string) : bool :=
  match v with VStr s' => String.eqb s' s | _ => false end.

(** The shape every job promises: the call returns a dictionary whose
    [status] is [success] or [error] and that has a [job_id]. *)
Definition job_result_shape (r : outcome pydict) : Prop :=
  match r with
  | Ret d =>
      (get d "status" = VStr "success" \/ get d "status" = VStr "error")
      /\ mem "job_id" d = true
  | Raise _ => False
  end.

End Py.

Import Py.

(* ===================================================================== *)
(** ** Effects: state passing with exceptions *)
(* ===================================================================== *)

Module Eff.

(** A computation over a state [S] that returns or raises; the state
    survives a raise, as the effects of a Python call do. *)
Definition M (S A : Type) : Type := S -> outcome A * S.

#[global] Instance M_ret {S} : MRet (M S) := fun A a s => (Ret a, s).

#[global] Instance M_bind {S} : MBind (M S) :=
  fun A B f m s =>
    match m s with
    | (Ret a, s') => f a s'
    | (Raise e, s') => (Raise e, s')
    end.

Definition raise {S A} (e : exn) : M S A := fun s => (Raise e, s).

(** Lift the result of a pure expression. *)
Definition lift {S A} (o : outcome A) : M S A := fun s => (o, s).

(** Ask a collaborator whose answer depends on the state. *)
Definition ask {S A} (f : S -> outcome A) : M S A := fun s => (f s, s).

Definition gets {S A} (f : S -> A) : M S A := fun s => (Ret (f s), s).

Definition modify {S} (f : S -> S) : M S unit := fun s => (Ret tt, f s).

(** [try: body except Exception as e: handler e]. *)
Definition try_except {S A} (body : M S A) (handler : exn -> M S A) : M S A :=
  fun s =>
    match body s with
    | (Ret a, s') => (Ret a, s')
    | (Raise e, s') => handler e s'
    end.

(** [try: body finally: cleanup]. *)
Definition try_finally {S A} (body : M S A) (cleanup : M S unit) : M S A :=
  fun s =>
    match body s with
    | (r, s') =>
        match cleanup s' with
        | (Ret _, s'') => (r, s'')
        | (Raise e, s'') => (Raise e, s'')
        end
    end.

End Eff.

Import Eff.

(* ===================================================================== *)
(** ** k0mmand3r.py: the command router *)
(* ===================================================================== *)

Module K0mmand3r.

(** [VERB_MAP]: public command vocabulary to internal action. *)
Definition VERB_MAP : list (string * string) :=
  [ ("dispatch", "run");
    ("status", "status");
    ("capability", "create");
    ("complete", "delete");
    ("message", "broadcast") ].

(** [STATUS_LEVELS]: the levels each filter mode lets through. *)
Definition STATUS_LEVELS : list (string * list string) :=
  [ ("critical", ["error"; "fatal"]);
    ("compact", ["info"; "error"; "fatal"]);
    ("verbose", ["debug"; "info"; "warn"; "error"; "fatal"]);
    ("debug", ["trace"; "debug"; "info"; "warn"; "error"; "fatal"]) ].

(** Lookup in a table with string keys ([table.get(k)]). *)
Fixpoint table_get {A} (k : string) (t : list (string * A)) : option A :=
  match t with
  | [] => None
  | (k', a) :: rest => if String.eqb k k' then Some a else table_get k rest
  end.

(** [STATUS_LEVELS.get(mode, STATUS_LEVELS["compact"])]. *)
Definition allowed_levels (filter_mode : string) : list string :=
  match table_get filter_mode STATUS_LEVELS with
  | Some ls => ls
  | None =>
      match table_get "compact" STATUS_LEVELS with
      | Some ls => ls
      | None => []
      end
  end.

(** [K0mmand3rListener._should_publish]. *)
Definition _should_publish (filter_mode level : string) : bool :=
  str_in level (allowed_levels filter_mode).

(** Modelled from the spec: the [AgentAction] and [ChainAction] string
    enums of [types.py], which is not under src/.  The spec names the internal
    action identifiers [run], [status], [create], [delete], [broadcast] for
    agents and [run], [status] for chains; a command's [action] parameter is
    compared to them as a string. *)
Module AgentAction.
Definition RUN : string := "run".
Definition CREATE : string := "create".
Definition BROADCAST : string := "broadcast".
Definition STATUS : string := "status".
Definition DELETE : string := "delete".
End AgentAction.

Module ChainAction.
Definition RUN : string := "run".
Definition STATUS : string := "status".
End ChainAction.

(** A decoded inbound command. *)
Record K0mmand3rMessage : Type := {
  verb : string;
  params : pydict;
  content : pyval;
  agent_id : pyval
}.

(** An optional string field of a message: absent, [None] or a string. *)
Definition optional_str (d : pydict) (k : string) : outcome pyval :=
  match lookup k d with
  | None => Ret VNone
  | Some VNone => Ret VNone
  | Some (VStr s) => Ret (VStr s)
  | Some _ => Raise (Exn "ValidationError" k)
  end.

(** Modelled from the spec: the constructor [K0mmand3rMessage], called on the
    unpacked [message_dict], of [types.py], which is not under src/.  The wire format is
    [{verb: string, params: object, content?: string, agent_id: string}];
    the spec's own dispatch scenario carries neither [content] nor
    [agent_id], so both default to [None], and [params] defaults to the
    empty map.  Anything that is not a mapping cannot be unpacked. *)
Definition K0mmand3rMessage_new (message_dict : pyval) : outcome K0mmand3rMessage :=
  match message_dict with
  | VDict d =>
      match lookup "verb" d with
      | Some (VStr v) =>
          match get_default d "params" (VDict []) with
          | VDict ps =>
              match optional_str d "content", optional_str d "agent_id" with
              | Ret c, Ret a =>
                  Ret {| verb := v; params := ps; content := c; agent_id := a |}
              | Raise e, _ => Raise e
              | _, Raise e => Raise e
              end
          | _ => Raise (Exn "ValidationError" "params")
          end
      | _ => Raise (Exn "ValidationError" "verb")
      end
  | _ => Raise (Exn "TypeError" "argument after ** must be a mapping")
  end.

(** What the listener does to the outside world, in order. *)
Inductive event : Type :=
| ELog (level : string) (template : string)
| ERunAgent (agent_name input_text model_override : pyval)
| EBroadcast (message from_agent : pyval)
| ERunChain (chain_name : pyval) (chain_params : pydict)
| EExecuteAgentTask (agent_type prompt context_files timeout_ms : pyval)
| EAgentsPop (agent_name : pyval)
| EPublish (status_channel : string) (status_message : pydict)
| EPublishFailed (status_channel : string) (status_message : pydict)
| ESubscribe (channel : string)
| EUnsubscribe (channel : string)
| EAclose.

Abbreviation history := (list event).

(** The data of a pub/sub message: [str | bytes]. *)
Inductive payload : Type :=
| PStr (s : string)
| PBytes (b : list Byte.byte).

(** One item of [pubsub.listen()].  [stop_requested] tells whether [stop()]
    had cleared [self.running] when the item arrived. *)
Record pubsub_message : Type := {
  stop_requested : bool;
  mtype : string;
  mdata : payload
}.

(** The object [self.redis_sub.pubsub()]: what its [subscribe],
    [unsubscribe] and [aclose] answer (each may raise), and the items of its
    [listen()].  An item that is an exception is the stream failing, or the
    task being cancelled ([CancelledError]) while it waits for the stream. *)
Record PubSub : Type := {
  subscribe : history -> string -> outcome unit;
  messages : list (outcome pubsub_message);
  unsubscribe : history -> string -> outcome unit;
  aclose : history -> outcome unit
}.

(** The library functions and collaborators of the listener.  Every answer
    may depend on what happened before, and may be an exception.  A
    [run_agent] or [run_chain] answer is the [model_dump()] of the result. *)
Record Collaborators : Type := {
  json_loads : string -> outcome pyval;
  utf8_decode : list Byte.byte -> outcome string;
  py_str : pyval -> string;
  utcnow_isoformat : history -> string;
  run_agent : history -> pyval -> pyval -> pyval -> outcome pydict;
  broadcast_to_agents : history -> pyval -> pyval -> outcome (list pydict);
  run_chain : history -> pyval -> pydict -> outcome pydict;
  agent_configs_keys : history -> list string;
  agents_keys : history -> list string;
  chain_configs_keys : history -> list string;
  redis_publish : history -> string -> pydict -> outcome unit;
  job_executor : option (history -> pyval -> pyval -> pyval -> pyval -> outcome pydict)
}.

Section Listener.

(** The fields of a [K0mmand3rListener]. *)
Variable C : Collaborators.
Variable channel : string.
Variable filter_mode : string.

Definition emit (e : event) : M history unit := modify (fun h => h ++ [e]).

Definition log (level template : string) : M history unit := emit (ELog level template).

(** [await self.agent_service.redis_client.publish(channel, json.dumps(msg))]. *)
Definition publish (status_channel : string) (msg : pydict) : M history unit :=
  fun h =>
    match redis_publish C h status_channel msg with
    | Ret _ => (Ret tt, h ++ [EPublish status_channel msg])
    | Raise e => (Raise e, h ++ [EPublishFailed status_channel msg])
    end.

(** The status message built by [_publish_result] (per
    k0mmand3r_interface.md), with [progress] added when the metadata has it. *)
Definition status_message_of (now : string) (result : pydict) (level : string)
  : outcome pydict :=
  let metadata := get_default result "metadata" (VDict []) in
  let status_message : pydict :=
    [ ("timestamp", VStr (now +:+ "Z"));
      ("agent", VStr ("langchain." +:+
                      py_str C (get_default result "agent_name" (VStr "unknown"))));
      ("task_id", get_default result "task_id" (VStr ""));
      ("type", VStr (if truthy (get result "error") then "error" else "progress"));
      ("level", VStr level);
      ("message", py_or (get result "output")
                    (py_or (get result "error")
                       (get_default result "message" (VStr ""))));
      ("metadata", metadata) ] in
  match contains "progress" metadata with
  | Raise e => Raise e
  | Ret false => Ret status_message
  | Ret true =>
      match item metadata "progress" with
      | Raise e => Raise e
      | Ret progress => Ret (set "progress" progress status_message)
      end
  end.

(** [K0mmand3rListener._publish_result]. *)
Definition _publish_result (result : pydict) (level : string) : M history unit :=
  try_except
    (if negb (_should_publish filter_mode level) then
       log "debug" "Filtered message"
     else
       now ← gets (utcnow_isoformat C);
       status_message ← lift (status_message_of now result level);
       publish (channel +:+ ":status") status_message;;
       log "info" "Published")
    (fun e => log "error" "Failed to publish result").

(** [self.agent_service.agents.pop(agent_name, None)]: the key must be
    hashable. *)
Definition agents_pop (agent_name : pyval) : M history unit :=
  match agent_name with
  | VList _ => raise (Exn "TypeError" "unhashable type: 'list'")
  | VDict _ => raise (Exn "TypeError" "unhashable type: 'dict'")
  | _ => emit (EAgentsPop agent_name)
  end.

(** [K0mmand3rListener._handle_agent_command]. *)
Definition _handle_agent_command (message : K0mmand3rMessage) : M history unit :=
  let params := params message in
  let action := get_default params "action" (VStr "run") in
  try_except
    (if eq_str action AgentAction.RUN || eq_str action AgentAction.CREATE then
       let agent_name := py_or (get params "name") (get params "agent") in
       let input_text := py_or (get params "input") (py_or (content message) (VStr "")) in
       let model := get params "model" in
       if negb (truthy agent_name) then
         log "error" "Missing agent name"
       else
         emit (ERunAgent agent_name input_text model);;
         result ← ask (fun h => run_agent C h agent_name input_text model);
         _publish_result result "info"
     else if eq_str action AgentAction.BROADCAST then
       let broadcast_message :=
         py_or (get params "message") (py_or (content message) (VStr "")) in
       let from_agent := get params "from" in
       emit (EBroadcast broadcast_message from_agent);;
       results ← ask (fun h => broadcast_to_agents C h broadcast_message from_agent);
       _publish_result
         [ ("action", VStr "broadcast"); ("results", VList (map VDict results)) ]
         "info"
     else if eq_str action AgentAction.STATUS then
       available ← gets (agent_configs_keys C);
       active ← gets (agents_keys C);
       _publish_result
         [ ("available_agents", VList (map VStr available));
           ("active_agents", VList (map VStr active)) ]
         "info"
     else if eq_str action AgentAction.DELETE then
       let agent_name := get params "name" in
       if truthy agent_name then
         agents_pop agent_name;;
         log "info" "Deleted agent"
       else mret tt
     else if eq_str action "run-job" then
       match job_executor C with
       | None =>
           log "error" "Job executor not initialized";;
           _publish_result [ ("error", VStr "Job executor not available") ] "info"
       | Some execute_agent_task =>
           let agent_type := get params "agent_type" in
           let prompt := get_default params "prompt" (VStr "") in
           let context_files := get_default params "context_files" (VList []) in
           let timeout_ms := get params "timeout_ms" in
           if negb (truthy agent_type) then
             log "error" "Missing agent_type for job execution"
           else
             emit (EExecuteAgentTask agent_type prompt context_files timeout_ms);;
             result ← ask (fun h =>
                             execute_agent_task h agent_type prompt context_files timeout_ms);
             _publish_result result "info"
       end
     else
       log "warning" "Unknown agent action")
    (fun e =>
       log "error" "Agent command failed";;
       _publish_result [ ("error", VStr (exn_msg e)) ] "error").

(** [{k: v for k, v in params.items() if k not in ("action", "name", "chain")}]. *)
Definition chain_params_of (params : pydict) : pydict :=
  filter (fun kv => negb (str_in (fst kv) ["action"; "name"; "chain"])) params.

(** [K0mmand3rListener._handle_chain_command]. *)
Definition _handle_chain_command (message : K0mmand3rMessage) : M history unit :=
  let params := params message in
  let action := get_default params "action" (VStr "run") in
  try_except
    (if eq_str action ChainAction.RUN then
       let chain_name := py_or (get params "name") (get params "chain") in
       if negb (truthy chain_name) then
         log "error" "Missing chain name"
       else
         let chain_params := chain_params_of params in
         emit (ERunChain chain_name chain_params);;
         result ← ask (fun h => run_chain C h chain_name chain_params);
         _publish_result result "info"
     else if eq_str action ChainAction.STATUS then
       available ← gets (chain_configs_keys C);
       _publish_result [ ("available_chains", VList (map VStr available)) ] "info"
     else
       log "warning" "Unknown chain action")
    (fun e =>
       log "error" "Chain command failed";;
       _publish_result [ ("error", VStr (exn_msg e)) ] "info").

(** [message_dict["params"]["action"] = action], after
    [if "params" not in message_dict: message_dict["params"] = {}]. *)
Definition set_action (message_dict : pydict) (action : string) : outcome pydict :=
  let message_dict :=
    if mem "params" message_dict then message_dict
    else set "params" (VDict []) message_dict in
  match get message_dict "params" with
  | VDict ps => Ret (set "params" (VDict (set "action" (VStr action) ps)) message_dict)
  | _ => Raise (Exn "TypeError" "object does not support item assignment")
  end.

(** The verbs routed to the agent family. *)
Definition agent_verbs : list string :=
  ["agent"; "dispatch"; "status"; "capability"; "complete"; "message"].

(** [K0mmand3rListener._handle_message]. *)
Definition _handle_message (data : payload) : M history unit :=
  try_except
    (text ← match data with
            | PBytes b => lift (utf8_decode C b)
            | PStr s => mret s
            end;
     message_dict ← lift (json_loads C text);
     message ← lift (K0mmand3rMessage_new message_dict);
     log "info" "Received command";;
     message ←
       match table_get (verb message) VERB_MAP with
       | Some action =>
           message_dict ← lift (match message_dict with
                                | VDict d => set_action d action
                                | _ => Raise (Exn "TypeError" "not a mapping")
                                end);
           message ← lift (K0mmand3rMessage_new (VDict message_dict));
           log "debug" "Mapped verb to action";;
           mret message
       | None => mret message
       end;
     if str_in (verb message) agent_verbs then _handle_agent_command message
     else if String.eqb (verb message) "chain" then _handle_chain_command message
     else log "warning" "Unknown verb")
    (fun e =>
       if String.eqb (exn_class e) "JSONDecodeError"
       then log "error" "Invalid JSON message"
       else log "error" "Error handling message").

(** The body of [async for message in pubsub.listen()]; an item that is an
    exception is the stream itself failing. *)
Fixpoint listen (items : list (outcome pubsub_message)) : M history unit :=
  match items with
  | [] => mret tt
  | Raise e :: _ => raise e
  | Ret message :: rest =>
      if stop_requested message then mret tt
      else if negb (String.eqb (mtype message) "message") then listen rest
      else _handle_message (mdata message);; listen rest
  end.

(** [K0mmand3rListener.start].  The subscription is made before the [try];
    the [finally] block unsubscribes and closes, and what it raises leaves
    [start]. *)
Definition start (pubsub : PubSub) : M history unit :=
  log "info" "k0mmand3r listener starting";;
  emit (ESubscribe channel);;
  ask (fun h => subscribe pubsub h channel);;
  log "info" "Subscribed";;
  try_finally
    (try_except (listen (messages pubsub))
       (fun e =>
          if String.eqb (exn_class e) "CancelledError"
          then log "info" "Listener cancelled"
          else log "error" "Listener error"))
    (emit (EUnsubscribe channel);;
     ask (fun h => unsubscribe pubsub h channel);;
     emit EAclose;;
     ask (fun h => aclose pubsub h);;
     log "info" "Listener stopped").

End Listener.

(** The text the handler decodes: [data.decode("utf-8")] for bytes. *)
Definition text_of (C : Collaborators) (data : payload) : outcome string :=
  match data with
  | PBytes b => utf8_decode C b
  | PStr s => Ret s
  end.

(** The status messages that reached the status channel, oldest first. *)
Definition published (h : history) : list (string * pydict) :=
  flat_map (fun e => match e with EPublish ch msg => [(ch, msg)] | _ => [] end) h.

(** The agent runs that were requested, oldest first. *)
Definition agent_runs (h : history) : list (pyval * pyval * pyval) :=
  flat_map (fun e => match e with ERunAgent n i m => [(n, i, m)] | _ => [] end) h.

End K0mmand3r.

(* ===================================================================== *)
(** ** adk_integration.py: agent execution and the approval handshake *)
(* ===================================================================== *)

Module ADK.

(** [AgentStatus]. *)
Inductive AgentStatus : Type :=
| INITIALIZING | RUNNING | WAITING_APPROVAL | COMPLETED | FAILED | CANCELLED.

Definition status_value (s : AgentStatus) : string :=
  match s with
  | INITIALIZING => "initializing"
  | RUNNING => "running"
  | WAITING_APPROVAL => "waiting_approval"
  | COMPLETED => "completed"
  | FAILED => "failed"
  | CANCELLED => "cancelled"
  end.

(** [AgentExecutionContext]; times are kept in ISO format. *)
Record AgentExecutionContext : Type := {
  agent_id : string;
  job_id : string;
  session_id : pyval;
  parent_agent_id : pyval;
  status : AgentStatus;
  start_time : string;
  end_time : option string;
  metadata : pyval
}.

(** [AgentExecutionContext.to_dict]. *)
Definition context_to_dict (c : AgentExecutionContext) : pydict :=
  [ ("agent_id", VStr (agent_id c));
    ("job_id", VStr (job_id c));
    ("session_id", session_id c);
    ("parent_agent_id", parent_agent_id c);
    ("status", VStr (status_value (status c)));
    ("start_time", VStr (start_time c));
    ("end_time", match end_time c with Some t => VStr t | None => VNone end);
    ("metadata", metadata c) ].

(** [AgentConfig]; the fields hold whatever the caller's dictionary held. *)
Record AgentConfig : Type := {
  name : pyval;
  description : pyval;
  model_name : pyval;
  temperature : pyval;
  max_tokens : pyval;
  tools : pyval;
  enable_mcp : pyval;
  sub_agents : pyval;
  require_approval : pyval;
  approval_timeout : pyval;
  max_iterations : pyval;
  timeout : pyval;
  enable_rewind : pyval
}.

(** The Redis and RQ calls a job makes, in order. *)
Inductive event : Type :=
| ESetex (key : string) (ttl : Z) (value : pydict)
| EPublish (channel : string) (message : pydict)
| EBrpop (key : string) (timeout : Z)
| ENewTracker
| EGetQueue
| EEnqueue (agent_config_dict : pydict) (task : pyval) (parent_agent_id : string).

Abbreviation history := (list event).

(** What ends a wait on a list key: an element pushed on the list, or the
    loss of the connection. *)
Inductive wakeup : Type :=
| Pushed (data : string)
| Lost (e : exn).

(** Library functions and collaborators.  [list_wakeup h key] is what first
    happens on the list [key] for a client that starts to wait on it after
    [h], if anything ever does, and when, in seconds from the start of the
    wait (zero or less for an element that is on the list already). *)
Record Collaborators : Type := {
  json_loads : string -> outcome pyval;
  py_str : pyval -> string;
  utcnow_isoformat : history -> string;
  get_current_job : history -> option string;
  RedisTracker_new : history -> outcome unit;
  redis_setex : history -> string -> Z -> pydict -> outcome unit;
  redis_publish : history -> string -> pydict -> outcome unit;
  list_wakeup : history -> string -> option (Z * wakeup);
  get_queue : history -> outcome unit;
  queue_enqueue : history -> pydict -> pyval -> string -> outcome string
}.

(** *** Calls that wait

    [BRPOP] is the one call of this module that waits.  A call that may wait
    comes back after some time, or never. *)
Inductive blocking (A : Type) : Type :=
| After (elapsed : Z) (a : A)
| Forever.

Arguments After {A} elapsed a.
Arguments Forever {A}.

(** A computation over the history that returns or raises after some time,
    or never comes back. *)
Definition W (A : Type) : Type := history -> blocking (outcome A) * history.

#[global] Instance W_ret : MRet W := fun A a h => (After 0 (Ret a), h).

#[global] Instance W_bind : MBind W :=
  fun A B f m h =>
    match m h with
    | (After t (Ret a), h') =>
        match f a h' with
        | (After t' r, h'') => (After (t + t') r, h'')
        | (Forever, h'') => (Forever, h'')
        end
    | (After t (Raise e), h') => (After t (Raise e), h')
    | (Forever, h') => (Forever, h')
    end.

(** A computation that does not wait. *)
Definition instant {A} (m : M history A) : W A :=
  fun h => let (r, h') := m h in (After 0 r, h').

(** A call that may wait: recorded, then answered. *)
Definition blocking_call {A} (e : event) (answer : history -> blocking (outcome A))
  : W A :=
  fun h => (answer h, h ++ [e]).

(** [try: body except Exception as e: handler e], for a body that may wait. *)
Definition W_try {A} (body : W A) (handler : exn -> W A) : W A :=
  fun h =>
    match body h with
    | (After t (Raise e), h') =>
        match handler e h' with
        | (After t' r, h'') => (After (t + t') r, h'')
        | (Forever, h'') => (Forever, h'')
        end
    | other => other
    end.

Section Runner.

Variable C : Collaborators.

Definition emit (e : event) : M history unit := modify (fun h => h ++ [e]).

(** A call to a collaborator: recorded, then answered. *)
Definition call {A} (e : event) (answer : history -> outcome A) : M history A :=
  fun h => (answer h, h ++ [e]).

(** [job = get_current_job(); job_id = job.id if job else "local"]. *)
Definition current_job_id : M history string :=
  job ← gets (get_current_job C);
  mret (match job with Some id => id | None => "local" end).

(** [ADKAgentRunner._persist_context]. *)
Definition _persist_context (context : AgentExecutionContext)
  : M history (Result bool exn) :=
  try_except
    (let key := "adk:agent:" +:+ agent_id context +:+ ":context" in
     call (ESetex key 3600 (context_to_dict context))
          (fun h => redis_setex C h key 3600 (context_to_dict context));;
     mret (Success true))
    (fun e => mret (Failure e)).

(** [redis.brpop(key, timeout=timeout)], as Redis defines [BRPOP]: the
    (key, element) pair as soon as the list has an element; [None] once a
    positive timeout has elapsed without one; with timeout zero the call
    waits without limit; a negative timeout is refused at once.  A
    connection that is lost while the call waits ends it with an exception. *)
Definition redis_brpop (h : history) (key : string) (timeout : Z)
  : blocking (outcome (option (string * string))) :=
  if timeout <? 0 then After 0 (Raise (Exn "ResponseError" "timeout is negative"))
  else
    match list_wakeup C h key with
    | Some (at_time, w) =>
        if (timeout =? 0) || (at_time <=? timeout) then
          After (Z.max 0 at_time)
                (match w with
                 | Pushed data => Ret (Some (key, data))
                 | Lost e => Raise e
                 end)
        else After timeout (Ret None)
    | None => if timeout =? 0 then Forever else After timeout (Ret None)
    end.

(** [ADKAgentRunner._wait_for_approval]. *)
Definition _wait_for_approval
    (context : AgentExecutionContext) (action : pyval) (timeout : Z)
  : W (Result bool pyval) :=
  W_try
    (let approval_channel := "adk:agent:" +:+ agent_id context +:+ ":approval" in
     now ← instant (gets (utcnow_isoformat C));
     let request : pydict :=
       [ ("agent_id", VStr (agent_id context));
         ("job_id", VStr (job_id context));
         ("action", action);
         ("timestamp", VStr now) ] in
     instant (call (EPublish approval_channel request)
                   (fun h => redis_publish C h approval_channel request));;
     let response_key := "adk:agent:" +:+ agent_id context +:+ ":approval:response" in
     result ← blocking_call (EBrpop response_key timeout)
                            (fun h => redis_brpop h response_key timeout);
     match result with
     | Some (_, response_data) =>
         response ← instant (lift (json_loads C response_data));
         approved ← instant (lift (get_method response "approved" VNone));
         if truthy approved then mret (Success true)
         else
           reason ← instant (lift (get_method response "reason" (VStr "Approval denied")));
           mret (Failure reason)
     | None =>
         mret (Failure (VStr ("Approval timeout after " +:+ pretty timeout +:+ "s")))
     end)
    (fun e => mret (Failure (VStr ("Approval error: " +:+ exn_msg e)))).

(** [ADKAgentRunner.execute_agent]; the agent itself is a placeholder in the
    source. *)
Definition execute_agent
    (agent_config : AgentConfig) (task context parent_agent_id : pyval)
  : M history pydict :=
  job_id ← current_job_id;
  now ← gets (utcnow_isoformat C);
  let agent_ctx :=
    {| agent_id := py_str C (name agent_config) +:+ "_" +:+ job_id;
       job_id := job_id;
       session_id := VNone;
       parent_agent_id := parent_agent_id;
       status := INITIALIZING;
       start_time := now;
       end_time := None;
       metadata := py_or context (VDict []) |} in
  let with_status (c : AgentExecutionContext) (s : AgentStatus) (e : option string)
                  (m : pyval) :=
    {| agent_id := agent_id c; job_id := ADK.job_id c; session_id := session_id c;
       parent_agent_id := ADK.parent_agent_id c; status := s;
       start_time := start_time c; end_time := e; metadata := m |} in
  try_except
    (_persist_context agent_ctx;;
     let running := with_status agent_ctx RUNNING None (metadata agent_ctx) in
     _persist_context running;;
     ended ← gets (utcnow_isoformat C);
     let completed := with_status agent_ctx COMPLETED (Some ended) (metadata agent_ctx) in
     _persist_context completed;;
     mret [ ("status", VStr "success");
            ("agent_id", VStr (agent_id agent_ctx));
            ("agent_name", name agent_config);
            ("task", task);
            ("result", VStr "Agent execution requires google-adk-python package");
            ("execution_context", VDict (context_to_dict completed));
            ("job_id", VStr job_id) ])
    (fun e =>
       ended ← gets (utcnow_isoformat C);
       meta ← lift (set_item (metadata agent_ctx) "error" (VStr (exn_msg e)));
       let failed := with_status agent_ctx FAILED (Some ended) meta in
       _persist_context failed;;
       mret [ ("status", VStr "error");
              ("agent_id", VStr (agent_id agent_ctx));
              ("agent_name", name agent_config);
              ("task", task);
              ("error", VStr (exn_msg e));
              ("execution_context", VDict (context_to_dict failed));
              ("job_id", VStr job_id) ]).

(** [adk_agent_job]: the configuration is rebuilt from the dictionary
    before any [try]. *)
Definition adk_agent_job
    (agent_config_dict : pydict) (task context parent_agent_id : pyval)
  : M history pydict :=
  name ← lift (subscript agent_config_dict "name");
  description ← lift (subscript agent_config_dict "description");
  let agent_config :=
    {| name := name;
       description := description;
       model_name := get_default agent_config_dict "model_name" (VStr "gemini-2.0-flash-exp");
       temperature := get_default agent_config_dict "temperature" (VFloat 7 (-1));
       max_tokens := get agent_config_dict "max_tokens";
       tools := get_default agent_config_dict "tools" (VList []);
       enable_mcp := get_default agent_config_dict "enable_mcp" (VBool false);
       sub_agents := VList [];
       require_approval := get_default agent_config_dict "require_approval" (VBool false);
       approval_timeout := get_default agent_config_dict "approval_timeout" (VInt 300);
       max_iterations := get_default agent_config_dict "max_iterations" (VInt 50);
       timeout := get_default agent_config_dict "timeout" (VInt 600);
       enable_rewind := get_default agent_config_dict "enable_rewind" (VBool false) |} in
  call ENewTracker (RedisTracker_new C);;
  execute_agent agent_config task context parent_agent_id.

(** The [sequential] loop of [multi_agent_coordination_job]. *)
Fixpoint run_sequential (task : pyval) (job_id : string)
    (sub_agent_configs : list pydict) (sub_agents : list pyval)
  : M history (list pyval) :=
  match sub_agent_configs with
  | [] => mret sub_agents
  | sub_config :: rest =>
      sub_result ← adk_agent_job sub_config task VNone (VStr job_id);
      run_sequential task job_id rest (sub_agents ++ [VDict sub_result])
  end.

(** The [parallel] loop of [multi_agent_coordination_job]. *)
Fixpoint run_parallel (task : pyval) (job_id : string)
    (sub_agent_configs : list pydict) (sub_agents : list pyval)
  : M history (list pyval) :=
  match sub_agent_configs with
  | [] => mret sub_agents
  | sub_config :: rest =>
      sub_job_id ← call (EEnqueue sub_config task job_id)
                        (fun h => queue_enqueue C h sub_config task job_id);
      agent ← lift (subscript sub_config "name");
      run_parallel task job_id rest
        (sub_agents ++ [VDict [ ("agent", agent); ("job_id", VStr sub_job_id);
                                ("status", VStr "enqueued") ]])
  end.

(** [multi_agent_coordination_job]. *)
Definition multi_agent_coordination_job
    (coordinator_config_dict : pydict) (sub_agent_configs : list pydict)
    (task : pyval) (coordination_strategy : string)
  : M history pydict :=
  job_id ← current_job_id;
  try_except
    (coordinator ← lift (subscript coordinator_config_dict "name");
     let results (sub_agents : list pyval) : pydict :=
       [ ("status", VStr "success");
         ("strategy", VStr coordination_strategy);
         ("coordinator", coordinator);
         ("sub_agents", VList sub_agents);
         ("job_id", VStr job_id) ] in
     if String.eqb coordination_strategy "sequential" then
       sub_agents ← run_sequential task job_id sub_agent_configs [];
       mret (results sub_agents)
     else if String.eqb coordination_strategy "parallel" then
       call EGetQueue (get_queue C);;
       sub_agents ← run_parallel task job_id sub_agent_configs [];
       mret (results sub_agents)
     else if String.eqb coordination_strategy "hierarchical" then
       let coordinator_config_dict :=
         set "sub_agents" (VList (map VDict sub_agent_configs)) coordinator_config_dict in
       coordinator_result ← adk_agent_job coordinator_config_dict task VNone VNone;
       mret (set "coordinator_result" (VDict coordinator_result) (results []))
     else
       raise (Exn "ValueError"
                ("Unknown coordination strategy: " +:+ coordination_strategy)))
    (fun e =>
       mret [ ("status", VStr "error"); ("error", VStr (exn_msg e));
              ("job_id", VStr job_id) ]).

(** The approval channel and the response key of an agent. *)
Definition approval_channel (context : AgentExecutionContext) : string :=
  "adk:agent:" +:+ agent_id context +:+ ":approval".

Definition response_key (context : AgentExecutionContext) : string :=
  "adk:agent:" +:+ agent_id context +:+ ":approval:response".

(** The approval request published for [action] at time [now]. *)
Definition approval_request (context : AgentExecutionContext) (action : pyval)
    (now : string) : pydict :=
  [ ("agent_id", VStr (agent_id context));
    ("job_id", VStr (job_id context));
    ("action", action);
    ("timestamp", VStr now) ].

End Runner.

End ADK.

(* ===================================================================== *)
(** ** jobs.py: crawl, digest and binary-content jobs *)
(* ===================================================================== *)

Module Jobs.

(** What a specialised parser returns. *)
Record ParsedData : Type := {
  title : pyval;
  content : pyval;
  metadata : pyval;
  tags : pyval
}.

(** The calls a job makes to its collaborators, in order. *)
Inductive event : Type :=
| ECrawlUrl (url : string) (depth : Z)
| ECrawlRecursive (url : string) (depth : Z)
| EParseContent (url content content_type : pyval)
| EAddToQueue (urls : list pyval) (depth : Z)
| EProcessContent (content : list Byte.byte) (content_type url : string)
| ECacheContent (url : string) (text : pyval) (content_type : string).

(** The state of one worker process: the module-level [crawler] singleton
    with its [max_depth] attribute, and the calls made so far. *)
Record process : Type := {
  crawler_max_depth : Z;
  calls : list event
}.

(** The crawler, the parser and content registries and the tracker: each
    answer is a [Result], or an exception.  The answers depend on the
    arguments only; whatever the collaborators keep lives outside the worker
    process. *)
Record Collaborators : Type := {
  get_current_job : option string;
  crawl_url : string -> Z -> outcome (Result pydict exn);
  crawl_recursive : string -> Z -> outcome (list pydict);
  parse_content : pyval -> pyval -> pyval -> outcome (Result ParsedData exn);
  add_to_queue : list pyval -> Z -> outcome (Result Z exn);
  process_content : list Byte.byte -> string -> string -> outcome (Result pyval exn);
  cache_content : string -> pyval -> string -> outcome (Result bool exn)
}.

Section JobFunctions.

Variable C : Collaborators.

(** A call to a collaborator: recorded, then answered. *)
Definition call {A} (e : event) (answer : outcome A) : M process A :=
  fun p => (answer, {| crawler_max_depth := crawler_max_depth p; calls := calls p ++ [e] |}).

(** [crawler.max_depth = max_depth]. *)
Definition set_max_depth (max_depth : Z) : M process unit :=
  modify (fun p => {| crawler_max_depth := max_depth; calls := calls p |}).

(** [job.id if job else "local"]. *)
Definition current_job_id : string :=
  match get_current_job C with Some id => id | None => "local" end.

(** [data.update({...})] with the four parsed fields. *)
Definition with_parsed (data : pydict) (parsed_data : ParsedData) : pydict :=
  update data
    [ ("parsed_title", title parsed_data);
      ("parsed_content", content parsed_data);
      ("parsed_metadata", metadata parsed_data);
      ("parsed_tags", tags parsed_data) ].

(** [crawl_url_job]. *)
Definition crawl_url_job (url : string) (depth : Z) (max_depth : option Z)
  : M process pydict :=
  let job_id := current_job_id in
  try_except
    (match max_depth with
     | Some d => set_max_depth d
     | None => mret tt
     end;;
     result ← call (ECrawlUrl url depth) (crawl_url C url depth);
     match result with
     | Success data =>
         let content := get_default data "content" (VStr "") in
         let content_type := get_default data "content_type" (VStr "text/html") in
         parser_result ← call (EParseContent (VStr url) content content_type)
                              (parse_content C (VStr url) content content_type);
         let data :=
           match parser_result with
           | Success parsed_data => with_parsed data parsed_data
           | Failure _ => data
           end in
         crawler_max_depth ← gets crawler_max_depth;
         (if depth <? crawler_max_depth then
            let child_links := get_default data "links" (VList []) in
            if truthy child_links then
              links ← lift (set_of child_links);
              call (EAddToQueue links (depth + 1)) (add_to_queue C links (depth + 1));;
              mret tt
            else mret tt
          else mret tt);;
         mret [ ("status", VStr "success");
                ("url", VStr url);
                ("depth", VInt depth);
                ("data", VDict data);
                ("job_id", VStr job_id) ]
     | Failure error =>
         mret [ ("status", VStr "error");
                ("url", VStr url);
                ("depth", VInt depth);
                ("error", VStr (exn_msg error));
                ("job_id", VStr job_id) ]
     end)
    (fun e =>
       mret [ ("status", VStr "error");
              ("url", VStr url);
              ("depth", VInt depth);
              ("error", VStr (exn_msg e));
              ("job_id", VStr job_id) ]).

(** The loop of [digest_url_job] over the crawled pages. *)
Fixpoint parse_results (results : list pydict) (processed_results : list pyval)
  : M process (list pyval) :=
  match results with
  | [] => mret processed_results
  | data :: rest =>
      url ← lift (subscript data "url");
      let content := get_default data "content" (VStr "") in
      let content_type := get_default data "content_type" (VStr "text/html") in
      parser_result ← call (EParseContent url content content_type)
                           (parse_content C url content content_type);
      let data :=
        match parser_result with
        | Success parsed_data => with_parsed data parsed_data
        | Failure _ => data
        end in
      parse_results rest (processed_results ++ [VDict data])
  end.

(** [digest_url_job]. *)
Definition digest_url_job (url : string) (depth : Z) : M process pydict :=
  let job_id := current_job_id in
  try_except
    (results ← call (ECrawlRecursive url depth) (crawl_recursive C url depth);
     processed_results ← parse_results results [];
     mret [ ("status", VStr "success");
            ("start_url", VStr url);
            ("max_depth", VInt depth);
            ("results", VList processed_results);
            ("total_pages", VInt (Z.of_nat (length processed_results)));
            ("job_id", VStr job_id) ])
    (fun e =>
       mret [ ("status", VStr "error");
              ("start_url", VStr url);
              ("max_depth", VInt depth);
              ("error", VStr (exn_msg e));
              ("job_id", VStr job_id) ]).

(** [process_binary_content_job]. *)
Definition process_binary_content_job
    (url : string) (content : list Byte.byte) (content_type : string)
  : M process pydict :=
  let job_id := current_job_id in
  try_except
    (result ← call (EProcessContent content content_type url)
                   (process_content C content content_type url);
     match result with
     | Success processed_text =>
         call (ECacheContent url processed_text "text/markdown")
              (cache_content C url processed_text "text/markdown");;
         mret [ ("status", VStr "success");
                ("url", VStr url);
                ("content_type", VStr content_type);
                ("processed_content", processed_text);
                ("content_size", VInt (Z.of_nat (length content)));
                ("job_id", VStr job_id) ]
     | Failure error =>
         mret [ ("status", VStr "error");
                ("url", VStr url);
                ("content_type", VStr content_type);
                ("error", VStr (exn_msg error));
                ("job_id", VStr job_id) ]
     end)
    (fun e =>
       mret [ ("status", VStr "error");
              ("url", VStr url);
              ("content_type", VStr content_type);
              ("error", VStr (exn_msg e));
              ("job_id", VStr job_id) ]).

End JobFunctions.

(** The link sets handed to the tracker's queue, oldest first. *)
Definition queued (l : list event) : list (list pyval * Z) :=
  flat_map (fun e => match e with EAddToQueue urls d => [(urls, d)] | _ => [] end) l.

(** What an invocation adds to the calls of the process it runs in. *)
Definition calls_of {A} (job : M process A) (p : process) : list event :=
  drop (length (calls p)) (calls (snd (job p))).

End Jobs.

(* ===================================================================== *)
(** ** jobs.py: the cleanup job (garbage collector) *)
(* ===================================================================== *)

Module Cleanup.

(** A [datetime]: microseconds since the epoch, and whether it carries a
    time zone. *)
Record datetime : Type := { micros : Z; aware : bool }.

Definition naive (t : Z) : datetime := {| micros := t; aware := false |}.

Definition MICROS_PER_DAY : Z := 86400 * 1000000.

(** [datetime.min] and [datetime.max], the years 1 and 9999. *)
Definition DATETIME_MIN : Z := -62135596800 * 1000000.
Definition DATETIME_MAX : Z := 253402300799 * 1000000 + 999999.

(** The largest magnitude of [timedelta(days=...)]. *)
Definition TIMEDELTA_MAX_DAYS : Z := 999999999.

(** The range of a C [int], to which [timedelta] converts its days. *)
Definition INT_MIN : Z := -2147483648.
Definition INT_MAX : Z := 2147483647.

(** [a < b]: naive and aware datetimes do not compare. *)
Definition dt_lt (a b : datetime) : outcome bool :=
  if Bool.eqb (aware a) (aware b) then Ret (micros a <? micros b)
  else Raise (Exn "TypeError" "can't compare offset-naive and offset-aware datetimes").

(** [datetime.utcnow() - timedelta(days=max_age_days)]: [timedelta] refuses
    days that do not fit a C [int] and days beyond its range, each with its
    own message, and the subtraction refuses a date outside the years 1 to
    9999. *)
Definition cutoff_time (now max_age_days : Z) : outcome datetime :=
  if (max_age_days <? INT_MIN) || (INT_MAX <? max_age_days) then
    Raise (Exn "OverflowError" "Python int too large to convert to C int")
  else if Z.abs max_age_days >? TIMEDELTA_MAX_DAYS then
    Raise (Exn "OverflowError"
             ("days=" +:+ pretty max_age_days +:+ "; must have magnitude <= 999999999"))
  else
    let t := now - max_age_days * MICROS_PER_DAY in
    if (t <? DATETIME_MIN) || (DATETIME_MAX <? t) then
      Raise (Exn "OverflowError" "date value out of range")
    else Ret (naive t).

(** The two job registries of a queue. *)
Inductive registry_kind : Type := FailedJobs | FinishedJobs.

(** What the job does to the store, and the warnings it prints. *)
Inductive event : Type :=
| EDelete (key : string)
| ERemove (kind : registry_kind) (queue job_id : string)
| EWarnQueueSize (queue_name : string) (queue_size : Z).

(** The coordination store as the job sees it: crawl records by key, the
    failed and finished registries by queue name, and what was done. *)
Record store : Type := {
  crawl_records : gmap string string;
  failed_job_registry : gmap string (list string);
  finished_job_registry : gmap string (list string);
  effects : list event
}.

(** The local variables of [cleanup_old_data_job]: [cleanup_results], the
    counter [crawl_cleaned], and whether [redis_conn] has been assigned. *)
Record locals : Type := {
  crawl_data_cleaned : Z;
  failed_jobs_cleaned : Z;
  finished_jobs_cleaned : Z;
  stale_queues_cleaned : Z;
  errors : list string;
  crawl_cleaned : Z;
  redis_conn : bool
}.

Definition state : Type := store * locals.

(** The answers of the [SCAN] calls of one iteration over the crawl keys.
    Redis ends every iteration: a call answers with cursor 0, or it raises.
    Until then each call answers with the next cursor and a page of keys. *)
Inductive scan_iteration : Type :=
| ScanDone (keys : list string)
| ScanFailed (e : exn)
| ScanPage (cursor : Z) (keys : list string) (next : scan_iteration).

(** Library functions and collaborators.  [scan_replies] are the successive
    answers of [SCAN].  A fault is the exception a call raises instead of
    acting. *)
Record Env : Type := {
  get_current_job : option string;
  utcnow : Z;
  json_loads : string -> outcome pyval;
  fromisoformat : pyval -> outcome datetime;
  import_rq_integration : outcome unit;
  get_stats : store -> outcome pyval;
  get_redis_connection : outcome unit;
  scan_replies : scan_iteration;
  get_fault : string -> option exn;
  delete_fault : string -> option exn;
  get_all_queues : outcome (list string);
  registry_fault : registry_kind -> string -> option exn;
  job_fetch : string -> outcome (option datetime);
  remove_fault : string -> option exn;
  scard : string -> outcome Z
}.

Definition initial_locals : locals :=
  {| crawl_data_cleaned := 0; failed_jobs_cleaned := 0; finished_jobs_cleaned := 0;
     stale_queues_cleaned := 0; errors := []; crawl_cleaned := 0; redis_conn := false |}.

Definition with_errors (l : locals) (es : list string) : locals :=
  {| crawl_data_cleaned := crawl_data_cleaned l; failed_jobs_cleaned := failed_jobs_cleaned l;
     finished_jobs_cleaned := finished_jobs_cleaned l;
     stale_queues_cleaned := stale_queues_cleaned l; errors := es;
     crawl_cleaned := crawl_cleaned l; redis_conn := redis_conn l |}.

Definition with_crawl_cleaned (l : locals) (n : Z) : locals :=
  {| crawl_data_cleaned := crawl_data_cleaned l; failed_jobs_cleaned := failed_jobs_cleaned l;
     finished_jobs_cleaned := finished_jobs_cleaned l;
     stale_queues_cleaned := stale_queues_cleaned l; errors := errors l;
     crawl_cleaned := n; redis_conn := redis_conn l |}.

Definition with_crawl_data_cleaned (l : locals) (n : Z) : locals :=
  {| crawl_data_cleaned := n; failed_jobs_cleaned := failed_jobs_cleaned l;
     finished_jobs_cleaned := finished_jobs_cleaned l;
     stale_queues_cleaned := stale_queues_cleaned l; errors := errors l;
     crawl_cleaned := crawl_cleaned l; redis_conn := redis_conn l |}.

Definition with_redis_conn (l : locals) : locals :=
  {| crawl_data_cleaned := crawl_data_cleaned l; failed_jobs_cleaned := failed_jobs_cleaned l;
     finished_jobs_cleaned := finished_jobs_cleaned l;
     stale_queues_cleaned := stale_queues_cleaned l; errors := errors l;
     crawl_cleaned := crawl_cleaned l; redis_conn := true |}.

(** [cleanup_results[...] += 1] for the registry of the given kind. *)
Definition count_removed (kind : registry_kind) (l : locals) : locals :=
  {| crawl_data_cleaned := crawl_data_cleaned l;
     failed_jobs_cleaned :=
       match kind with FailedJobs => failed_jobs_cleaned l + 1 | _ => failed_jobs_cleaned l end;
     finished_jobs_cleaned :=
       match kind with
       | FinishedJobs => finished_jobs_cleaned l + 1
       | _ => finished_jobs_cleaned l
       end;
     stale_queues_cleaned := stale_queues_cleaned l; errors := errors l;
     crawl_cleaned := crawl_cleaned l; redis_conn := redis_conn l |}.

Definition registry_of (kind : registry_kind) (st : store) : gmap string (list string) :=
  match kind with
  | FailedJobs => failed_job_registry st
  | FinishedJobs => finished_job_registry st
  end.

(** The job ids a registry of a queue holds. *)
Definition job_ids (kind : registry_kind) (queue : string) (st : store) : list string :=
  default [] (registry_of kind st !! queue).

Definition delete_record (key : string) (st : store) : store :=
  {| crawl_records := delete key (crawl_records st);
     failed_job_registry := failed_job_registry st;
     finished_job_registry := finished_job_registry st;
     effects := effects st ++ [EDelete key] |}.

Definition remove_job (kind : registry_kind) (queue job_id : string) (st : store) : store :=
  let without := filter (fun j => negb (String.eqb j job_id)) (job_ids kind queue st) in
  {| crawl_records := crawl_records st;
     failed_job_registry :=
       match kind with
       | FailedJobs => <[queue := without]> (failed_job_registry st)
       | FinishedJobs => failed_job_registry st
       end;
     finished_job_registry :=
       match kind with
       | FinishedJobs => <[queue := without]> (finished_job_registry st)
       | FailedJobs => finished_job_registry st
       end;
     effects := effects st ++ [ERemove kind queue job_id] |}.

Definition warn (queue_name : string) (queue_size : Z) (st : store) : store :=
  {| crawl_records := crawl_records st;
     failed_job_registry := failed_job_registry st;
     finished_job_registry := finished_job_registry st;
     effects := effects st ++ [EWarnQueueSize queue_name queue_size] |}.

Section Job.

Variable E : Env.

Definition on_store (f : store -> store) : M state unit :=
  modify (fun s => (f (fst s), snd s)).

Definition on_locals (f : locals -> locals) : M state unit :=
  modify (fun s => (fst s, f (snd s))).

(** [cleanup_results["errors"].append(message)]. *)
Definition append_error (message : string) : M state unit :=
  on_locals (fun l => with_errors l (errors l ++ [message])).

(** Reading the local variable [redis_conn]. *)
Definition use_redis_conn : M state unit :=
  bound ← gets (fun s => redis_conn (snd s));
  if bound : bool then mret tt
  else raise (Exn "UnboundLocalError"
                "cannot access local variable 'redis_conn' where it is not associated with a value").

(** [redis_conn.get(key)]. *)
Definition redis_get (key : string) : M state (option string) :=
  use_redis_conn;;
  match get_fault E key with
  | Some e => raise e
  | None => gets (fun s => crawl_records (fst s) !! key)
  end.

(** [redis_conn.delete(key)]. *)
Definition redis_delete (key : string) : M state unit :=
  use_redis_conn;;
  match delete_fault E key with
  | Some e => raise e
  | None => on_store (delete_record key)
  end.

(** The decision taken on the text stored under a crawl key: its
    [crawled_at], parsed, is before the cutoff. *)
Definition expired (cutoff : datetime) (data : string) : outcome bool :=
  match json_loads E data with
  | Raise e => Raise e
  | Ret crawl_info =>
      match get_method crawl_info "crawled_at" (VStr "") with
      | Raise e => Raise e
      | Ret field =>
          match fromisoformat E field with
          | Raise e => Raise e
          | Ret crawled_at => dt_lt crawled_at cutoff
          end
      end
  end.

(** The body of [for key in keys]. *)
Definition clean_key (cutoff : datetime) (key : string) : M state unit :=
  try_except
    (data ← redis_get key;
     match data with
     | Some text =>
         if negb (String.eqb text "") then
           is_old ← lift (expired cutoff text);
           if is_old : bool then
             redis_delete key;;
             on_locals (fun l => with_crawl_cleaned l (crawl_cleaned l + 1))
           else mret tt
         else mret tt
     | None => mret tt
     end)
    (fun e => append_error ("Error processing " +:+ key +:+ ": " +:+ exn_msg e)).

Fixpoint clean_keys (cutoff : datetime) (keys : list string) : M state unit :=
  match keys with
  | [] => mret tt
  | key :: rest => clean_key cutoff key;; clean_keys cutoff rest
  end.

(** The [while True] loop over [SCAN]: each round calls [SCAN] and handles
    the keys of the page; the loop is left at cursor 0, or by the exception
    of a failing call. *)
Fixpoint scan_loop (cutoff : datetime) (replies : scan_iteration) : M state unit :=
  use_redis_conn;;
  match replies with
  | ScanFailed e => raise e
  | ScanDone keys => clean_keys cutoff keys
  | ScanPage cursor keys next =>
      clean_keys cutoff keys;;
      if cursor =? 0 then mret tt else scan_loop cutoff next
  end.

(** Phase 1: crawl-record eviction. *)
Definition clean_crawl_data (cutoff : datetime) : M state unit :=
  try_except
    (lift (get_redis_connection E);;
     on_locals with_redis_conn;;
     on_locals (fun l => with_crawl_cleaned l 0);;
     scan_loop cutoff (scan_replies E);;
     on_locals (fun l => with_crawl_data_cleaned l (crawl_cleaned l)))
    (fun e => append_error ("Crawl data cleanup error: " +:+ exn_msg e)).

(** The body of [for job_id_to_clean in ...]: whatever goes wrong is
    swallowed (the job may already be gone). *)
Definition clean_job (cutoff : datetime) (kind : registry_kind)
    (queue job_id_to_clean : string) : M state unit :=
  try_except
    (use_redis_conn;;
     ended_at ← lift (job_fetch E job_id_to_clean);
     match ended_at with
     | Some t =>
         is_old ← lift (dt_lt t cutoff);
         if is_old : bool then
           match remove_fault E job_id_to_clean with
           | Some e => raise e
           | None => on_store (remove_job kind queue job_id_to_clean)
           end;;
           on_locals (count_removed kind)
         else mret tt
     | None => mret tt
     end)
    (fun _ => mret tt).

Fixpoint clean_jobs (cutoff : datetime) (kind : registry_kind) (queue : string)
    (ids : list string) : M state unit :=
  match ids with
  | [] => mret tt
  | j :: rest => clean_job cutoff kind queue j;; clean_jobs cutoff kind queue rest
  end.

(** Listing a registry ([len(registry)], [registry.get_job_ids()]). *)
Definition list_registry (kind : registry_kind) (queue : string) : M state (list string) :=
  match registry_fault E kind queue with
  | Some e => raise e
  | None => gets (fun s => job_ids kind queue (fst s))
  end.

(** The body of [for queue in queues]. *)
Definition clean_queue (cutoff : datetime) (clean_failed_jobs clean_finished_jobs : bool)
    (queue : string) : M state unit :=
  (if clean_failed_jobs then
     failed_jobs ← list_registry FailedJobs queue;
     if (0 <? Z.of_nat (length failed_jobs)) then
       clean_jobs cutoff FailedJobs queue failed_jobs
     else mret tt
   else mret tt);;
  (if clean_finished_jobs then
     finished_jobs ← list_registry FinishedJobs queue;
     clean_jobs cutoff FinishedJobs queue finished_jobs
   else mret tt).

Fixpoint clean_queues (cutoff : datetime) (clean_failed_jobs clean_finished_jobs : bool)
    (queues : list string) : M state unit :=
  match queues with
  | [] => mret tt
  | q :: rest =>
      clean_queue cutoff clean_failed_jobs clean_finished_jobs q;;
      clean_queues cutoff clean_failed_jobs clean_finished_jobs rest
  end.

(** Phase 2: job-registry eviction. *)
Definition clean_job_registries (cutoff : datetime)
    (clean_failed_jobs clean_finished_jobs : bool) : M state unit :=
  try_except
    (queues ← lift (get_all_queues E);
     clean_queues cutoff clean_failed_jobs clean_finished_jobs queues)
    (fun e => append_error ("Job registry cleanup error: " +:+ exn_msg e)).

Fixpoint check_queues (queue_names : list string) : M state unit :=
  match queue_names with
  | [] => mret tt
  | queue_name :: rest =>
      use_redis_conn;;
      queue_size ← lift (scard E ("crawl:queue:" +:+ queue_name));
      (if 1000 <? queue_size then on_store (warn queue_name queue_size) else mret tt);;
      check_queues rest
  end.

(** Phase 3: stale-queue detection. *)
Definition check_stale_queues : M state unit :=
  try_except
    (check_queues ["default"; "high"; "low"])
    (fun e => append_error ("Queue cleanup error: " +:+ exn_msg e)).

(** [cleanup_results] as returned. *)
Definition cleanup_results (l : locals) : pydict :=
  [ ("crawl_data_cleaned", VInt (crawl_data_cleaned l));
    ("failed_jobs_cleaned", VInt (failed_jobs_cleaned l));
    ("finished_jobs_cleaned", VInt (finished_jobs_cleaned l));
    ("stale_queues_cleaned", VInt (stale_queues_cleaned l));
    ("errors", VList (map VStr (errors l))) ].

(** [cleanup_old_data_job]. *)
Definition cleanup_old_data_job
    (max_age_days : Z) (clean_failed_jobs clean_finished_jobs : bool)
  : M state pydict :=
  let job_id := match get_current_job E with Some id => id | None => "local" end in
  try_except
    (lift (import_rq_integration E);;
     stats_before ← ask (fun s => get_stats E (fst s));
     on_locals (fun _ => initial_locals);;
     cutoff ← lift (cutoff_time (utcnow E) max_age_days);
     clean_crawl_data cutoff;;
     clean_job_registries cutoff clean_failed_jobs clean_finished_jobs;;
     check_stale_queues;;
     stats_after ← ask (fun s => get_stats E (fst s));
     results ← gets (fun s => cleanup_results (snd s));
     mret [ ("status", VStr "success");
            ("stats_before", stats_before);
            ("stats_after", stats_after);
            ("cleanup_results", VDict results);
            ("max_age_days", VInt max_age_days);
            ("job_id", VStr job_id) ])
    (fun e =>
       mret [ ("status", VStr "error");
              ("error", VStr (exn_msg e));
              ("job_id", VStr job_id) ]).

(** One run of the job against a store. *)
Definition run (max_age_days : Z) (clean_failed_jobs clean_finished_jobs : bool)
    (st : store) : outcome pydict * state :=
  cleanup_old_data_job max_age_days clean_failed_jobs clean_finished_jobs
    (st, initial_locals).

End Job.


(** The exception that ends the scan, when it does not reach cursor 0. *)
Fixpoint scan_failure (replies : scan_iteration) : option exn :=
  match replies with
  | ScanDone _ => None
  | ScanFailed e => Some e
  | ScanPage cursor _ next => if cursor =? 0 then None else scan_failure next
  end.


(** The exception that handling one crawl key raises, if any: that of the
    [GET], of decoding and comparing the record, or of the [DELETE]. *)
Definition key_failure (E : Env) (cutoff : datetime) (st : store) (key : string)
  : option exn :=
  match get_fault E key with
  | Some e => Some e
  | None =>
      match crawl_records st !! key with
      | Some text =>
          if negb (String.eqb text "") then
            match expired E cutoff text with
            | Raise e => Some e
            | Ret true => delete_fault E key
            | Ret false => None
            end
          else None
      | None => None
      end
  end.

(** The exception that handling one job of a registry raises, if any: that
    of [Job.fetch], of the comparison with the cutoff, or of [remove]. *)
Definition job_failure (E : Env) (cutoff : datetime) (job_id : string) : option exn :=
  match job_fetch E job_id with
  | Raise e => Some e
  | Ret None => None
  | Ret (Some t) =>
      match dt_lt t cutoff with
      | Raise e => Some e
      | Ret true => remove_fault E job_id
      | Ret false => None
      end
  end.

(** The exception of listing the registries of one queue, if any. *)
Definition queue_listing_failure (E : Env) (clean_failed_jobs clean_finished_jobs : bool)
    (queue : string) : option exn :=
  match (if clean_failed_jobs then registry_fault E FailedJobs queue else None) with
  | Some e => Some e
  | None => if clean_finished_jobs then registry_fault E FinishedJobs queue else None
  end.

Fixpoint listing_failure (E : Env) (clean_failed_jobs clean_finished_jobs : bool)
    (queues : list string) : option exn :=
  match queues with
  | [] => None
  | q :: rest =>
      match queue_listing_failure E clean_failed_jobs clean_finished_jobs q with
      | Some e => Some e
      | None => listing_failure E clean_failed_jobs clean_finished_jobs rest
      end
  end.

(** The exception that ends the registry phase, if any: [get_all_queues]
    raises, or the first listing of a registry that does. *)
Definition registry_phase_failure (E : Env) (clean_failed_jobs clean_finished_jobs : bool)
  : option exn :=
  match get_all_queues E with
  | Raise e => Some e
  | Ret queues => listing_failure E clean_failed_jobs clean_finished_jobs queues
  end.

(** The exception that ends the queue phase, if any: the first [SCARD] that
    raises. *)
Fixpoint scard_failure (E : Env) (queue_names : list string) : option exn :=
  match queue_names with
  | [] => None
  | queue_name :: rest =>
      match scard E ("crawl:queue:" +:+ queue_name) with
      | Raise e => Some e
      | Ret _ => scard_failure E rest
      end
  end.



(** The [errors] list of a job result. *)
Definition errors_of (result : outcome pydict) : list pyval :=
  match result with
  | Ret d =>
      match Py.get d "cleanup_results" with
      | VDict results => match Py.get results "errors" with VList es => es | _ => [] end
      | _ => []
      end
  | Raise _ => []
  end.

(** A counter of a job result's [cleanup_results]. *)
Definition counter_of (result : outcome pydict) (counter : string) : pyval :=
  match result with
  | Ret d =>
      match Py.get d "cleanup_results" with
      | VDict results => Py.get results counter
      | _ => VNone
      end
  | Raise _ => VNone
  end.

(** Every step of [m] keeps the relation [R] between the state it starts
    from and the state it leaves, whether it returns or raises. *)
Definition preserves (R : state -> state -> Prop) {A} (m : M state A) : Prop :=
  forall s, R s (snd (m s)).

(** From [s] to [s'] crawl records were only deleted, and only records whose
    [crawled_at] the job found to be before the cutoff. *)
Definition only_expired_deleted (E : Env) (cutoff : datetime) (s s' : state) : Prop :=
  forall k,
    crawl_records (fst s') !! k = crawl_records (fst s) !! k
    \/ (crawl_records (fst s') !! k = None
        /\ exists data, crawl_records (fst s) !! k = Some data
                        /\ expired E cutoff data = Ret true).


(** From [s] to [s'] the [errors] list was only appended to, and
    [redis_conn], once assigned, stays assigned. *)
Definition errors_grow (s s' : state) : Prop :=
  (exists more, errors (snd s') = errors (snd s) ++ more)
  /\ (redis_conn (snd s) = true -> redis_conn (snd s') = true).




End Cleanup.

(* ===================================================================== *)
(** ** Concrete collaborators for the router scenarios *)
(* ===================================================================== *)

Module RouterDemo.
Import K0mmand3r.

(** The double quote character. *)
Definition dq : string := String (Ascii.ascii_of_nat 34) EmptyString.

Definition quoted (s : string) : string := dq +:+ s +:+ dq.

(** The text [{"verb":"dispatch","params":{"name":"researcher","input":"hi"}}]. *)
Definition dispatch_text : string :=
  "{" +:+ quoted "verb" +:+ ":" +:+ quoted "dispatch" +:+ ","
      +:+ quoted "params" +:+ ":{" +:+ quoted "name" +:+ ":" +:+ quoted "researcher"
      +:+ "," +:+ quoted "input" +:+ ":" +:+ quoted "hi" +:+ "}}".

Definition dispatch_dict : pydict :=
  [ ("verb", VStr "dispatch");
    ("params", VDict [ ("name", VStr "researcher"); ("input", VStr "hi") ]) ].

(** The text [{"verb":"chain","params":{"name":"summarize"}}]. *)
Definition chain_text : string :=
  "{" +:+ quoted "verb" +:+ ":" +:+ quoted "chain" +:+ ","
      +:+ quoted "params" +:+ ":{" +:+ quoted "name" +:+ ":" +:+ quoted "summarize"
      +:+ "}}".

Definition chain_dict : pydict :=
  [ ("verb", VStr "chain"); ("params", VDict [ ("name", VStr "summarize") ]) ].

(** The text [{"verb":"agent","params":{"name":"crasher"}}]. *)
Definition agent_text : string :=
  "{" +:+ quoted "verb" +:+ ":" +:+ quoted "agent" +:+ ","
      +:+ quoted "params" +:+ ":{" +:+ quoted "name" +:+ ":" +:+ quoted "crasher"
      +:+ "}}".

Definition agent_dict : pydict :=
  [ ("verb", VStr "agent"); ("params", VDict [ ("name", VStr "crasher") ]) ].

(** [json.loads] on the texts above; any other text is taken as invalid. *)
Definition demo_json_loads (text : string) : outcome pyval :=
  if String.eqb text dispatch_text then Ret (VDict dispatch_dict)
  else if String.eqb text chain_text then Ret (VDict chain_dict)
  else if String.eqb text agent_text then Ret (VDict agent_dict)
  else Raise (Exn "JSONDecodeError" "Expecting value").

(** [str()] on the values the scenarios format. *)
Definition demo_str (v : pyval) : string :=
  match v with
  | VStr s => s
  | VNone => "None"
  | VBool true => "True"
  | VBool false => "False"
  | _ => "..."
  end.

(** The [model_dump()] of a successful agent result. *)
Definition researcher_result : pydict :=
  [ ("agent_name", VStr "researcher"); ("success", VBool true);
    ("output", VStr "done"); ("error", VNone); ("metadata", VDict []) ].

(** An agent service whose agent [crasher] and whose every chain raise, on
    a healthy Redis. *)
Definition demo : Collaborators := {|
  json_loads := demo_json_loads;
  utf8_decode := fun _ => Raise (Exn "UnicodeDecodeError" "invalid start byte");
  py_str := demo_str;
  utcnow_isoformat := fun _ => "2025-01-01T00:00:00";
  run_agent := fun _ name _ _ =>
    if eq_str name "crasher" then Raise (Exn "RuntimeError" "agent crashed")
    else Ret researcher_result;
  broadcast_to_agents := fun _ _ _ => Ret [];
  run_chain := fun _ _ _ => Raise (Exn "RuntimeError" "chain crashed");
  agent_configs_keys := fun _ => ["researcher"];
  agents_keys := fun _ => [];
  chain_configs_keys := fun _ => ["summarize"];
  redis_publish := fun _ _ _ => Ret tt;
  job_executor := None
|}.

(** The same service while Redis refuses every publish. *)
Definition redis_down : Collaborators := {|
  json_loads := demo_json_loads;
  utf8_decode := fun _ => Raise (Exn "UnicodeDecodeError" "invalid start byte");
  py_str := demo_str;
  utcnow_isoformat := fun _ => "2025-01-01T00:00:00";
  run_agent := fun _ name _ _ =>
    if eq_str name "crasher" then Raise (Exn "RuntimeError" "agent crashed")
    else Ret researcher_result;
  broadcast_to_agents := fun _ _ _ => Ret [];
  run_chain := fun _ _ _ => Raise (Exn "RuntimeError" "chain crashed");
  agent_configs_keys := fun _ => ["researcher"];
  agents_keys := fun _ => [];
  chain_configs_keys := fun _ => ["summarize"];
  redis_publish := fun _ _ _ => Raise (Exn "ConnectionError" "Connection refused");
  job_executor := None
|}.

(** A decoded [chain] command that runs the chain [summarize]. *)
Definition chain_message : K0mmand3rMessage :=
  {| verb := "chain"; params := [ ("name", VStr "summarize") ];
     content := VNone; agent_id := VNone |}.

(** The status message for [researcher_result] at level [info]. *)
Definition researcher_status : pydict :=
  [ ("timestamp", VStr "2025-01-01T00:00:00Z");
    ("agent", VStr "langchain.researcher");
    ("task_id", VStr "");
    ("type", VStr "progress");
    ("level", VStr "info");
    ("message", VStr "done");
    ("metadata", VDict []) ].

End RouterDemo.

(* ===================================================================== *)
(** ** Concrete collaborators for the agent-job scenarios *)
(* ===================================================================== *)

Module ADKDemo.
Import ADK.

(** [str()] on the values the scenarios format. *)
Definition demo_str (v : pyval) : string :=
  match v with
  | VStr s => s
  | VInt n => pretty n
  | VNone => "None"
  | _ => "..."
  end.

(** The response text of a denial, [{"approved": false, "reason": "Not safe"}],
    pushed by the approver as [denial]. *)
Definition denial : pydict := [ ("approved", VBool false); ("reason", VStr "Not safe") ].

Definition demo_json_loads (text : string) : outcome pyval :=
  if String.eqb text "denial" then Ret (VDict denial)
  else Raise (Exn "JSONDecodeError" "Expecting value").

(** A healthy Redis on which nobody ever answers approval requests. *)
Definition quiet : Collaborators := {|
  json_loads := demo_json_loads;
  py_str := demo_str;
  utcnow_isoformat := fun _ => "2025-01-01T00:00:00";
  get_current_job := fun _ => Some "job-123";
  RedisTracker_new := fun _ => Ret tt;
  redis_setex := fun _ _ _ _ => Ret tt;
  redis_publish := fun _ _ _ => Ret tt;
  list_wakeup := fun _ _ => None;
  get_queue := fun _ => Ret tt;
  queue_enqueue := fun _ _ _ _ => Ret "sub-job-123"
|}.

(** The same Redis with an approver who denies after two seconds. *)
Definition denying : Collaborators := {|
  json_loads := demo_json_loads;
  py_str := demo_str;
  utcnow_isoformat := fun _ => "2025-01-01T00:00:00";
  get_current_job := fun _ => Some "job-123";
  RedisTracker_new := fun _ => Ret tt;
  redis_setex := fun _ _ _ _ => Ret tt;
  redis_publish := fun _ _ _ => Ret tt;
  list_wakeup := fun _ _ => Some (2, Pushed "denial");
  get_queue := fun _ => Ret tt;
  queue_enqueue := fun _ _ _ _ => Ret "sub-job-123"
|}.

Definition waiting_context : AgentExecutionContext :=
  {| agent_id := "test-agent"; job_id := "test-job"; session_id := VNone;
     parent_agent_id := VNone; status := WAITING_APPROVAL;
     start_time := "2025-01-01T00:00:00"; end_time := None; metadata := VDict [] |}.

(** A configuration dictionary without the required [name]. *)
Definition nameless_config : pydict := [ ("description", VStr "Test agent") ].

End ADKDemo.

(* ===================================================================== *)
(** ** Concrete collaborators for the crawl and cleanup scenarios *)
(* ===================================================================== *)

Module JobsDemo.
Import Jobs.

Definition page_links : pyval := VList [ VStr "https://a.com/1"; VStr "https://a.com/2" ].

(** A site on which every page has the same two outbound links, no
    specialised parser applies, and the tracker accepts what it is given. *)
Definition site : Collaborators := {|
  get_current_job := None;
  crawl_url := fun url _ =>
    Ret (Success [ ("url", VStr url); ("status_code", VInt 200);
                   ("content", VStr "<html></html>"); ("content_type", VStr "text/html");
                   ("links", page_links) ]);
  crawl_recursive := fun url _ => Ret [ [ ("url", VStr url) ] ];
  parse_content := fun _ _ _ => Ret (Failure (Exn "ValueError" "no parser"));
  add_to_queue := fun urls _ => Ret (Success (Z.of_nat (length urls)));
  process_content := fun _ _ _ => Ret (Success (VStr "# text"));
  cache_content := fun _ _ _ => Ret (Success true)
|}.

(** A worker process just started, with the configured depth limit 3. *)
Definition fresh : process := {| crawler_max_depth := 3; calls := [] |}.

End JobsDemo.

Module CleanupDemo.
Import Cleanup.

(** 2025-01-01T00:00:00, in microseconds since the epoch. *)
Definition now : Z := 1735689600 * 1000000.

(** The record of a page crawled ten days ago, and of one crawled two days
    ago; the store keeps them as the texts [old-record] and [new-record]. *)
Definition old_record : pydict :=
  [ ("url", VStr "https://example.com/old"); ("depth", VInt 0);
    ("status_code", VInt 200); ("crawled_at", VStr "2024-12-22T00:00:00") ].

Definition new_record : pydict :=
  [ ("url", VStr "https://example.com/new"); ("depth", VInt 0);
    ("status_code", VInt 200); ("crawled_at", VStr "2024-12-30T00:00:00") ].

Definition demo_json_loads (text : string) : outcome pyval :=
  if String.eqb text "old-record" then Ret (VDict old_record)
  else if String.eqb text "new-record" then Ret (VDict new_record)
  else Raise (Exn "JSONDecodeError" "Expecting value").

Definition demo_fromisoformat (v : pyval) : outcome datetime :=
  match v with
  | VStr s =>
      if String.eqb s "2024-12-22T00:00:00" then Ret (naive (now - 10 * MICROS_PER_DAY))
      else if String.eqb s "2024-12-30T00:00:00" then Ret (naive (now - 2 * MICROS_PER_DAY))
      else Raise (Exn "ValueError" "Invalid isoformat string")
  | _ => Raise (Exn "TypeError" "fromisoformat: argument must be str")
  end.

Definition stats : pyval :=
  VDict [ ("crawled_urls", VInt 100); ("cached_robots", VInt 10);
          ("cached_content", VInt 50) ].

(** A store with the two records, and one failed job that ended twenty
    days ago in the registry of the queue [default]. *)
Definition two_records : store := {|
  crawl_records := {[ "crawl:url:old" := "old-record"; "crawl:url:new" := "new-record" ]};
  failed_job_registry := {[ "default" := ["failed-1"] ]};
  finished_job_registry := ∅;
  effects := []
|}.

(** A healthy Redis and RQ: one scan page lists both keys. *)
Definition healthy : Env := {|
  get_current_job := None;
  utcnow := now;
  json_loads := demo_json_loads;
  fromisoformat := demo_fromisoformat;
  import_rq_integration := Ret tt;
  get_stats := fun _ => Ret stats;
  get_redis_connection := Ret tt;
  scan_replies := ScanDone ["crawl:url:old"; "crawl:url:new"];
  get_fault := fun _ => None;
  delete_fault := fun _ => None;
  get_all_queues := Ret ["default"];
  registry_fault := fun _ _ => None;
  job_fetch := fun _ => Ret (Some (naive (now - 20 * MICROS_PER_DAY)));
  remove_fault := fun _ => None;
  scard := fun _ => Ret 0
|}.

(** The same, except that RQ no longer knows the failed job. *)
Definition job_gone : Env := {|
  get_current_job := None;
  utcnow := now;
  json_loads := demo_json_loads;
  fromisoformat := demo_fromisoformat;
  import_rq_integration := Ret tt;
  get_stats := fun _ => Ret stats;
  get_redis_connection := Ret tt;
  scan_replies := ScanDone ["crawl:url:old"; "crawl:url:new"];
  get_fault := fun _ => None;
  delete_fault := fun _ => None;
  get_all_queues := Ret ["default"];
  registry_fault := fun _ _ => None;
  job_fetch := fun _ => Raise (Exn "NoSuchJobError" "No such job: failed-1");
  remove_fault := fun _ => None;
  scard := fun _ => Ret 0
|}.

(** The same as [healthy], except that removing a job from its registry
    fails. *)
Definition remove_fails : Env := {|
  get_current_job := None;
  utcnow := now;
  json_loads := demo_json_loads;
  fromisoformat := demo_fromisoformat;
  import_rq_integration := Ret tt;
  get_stats := fun _ => Ret stats;
  get_redis_connection := Ret tt;
  scan_replies := ScanDone ["crawl:url:old"; "crawl:url:new"];
  get_fault := fun _ => None;
  delete_fault := fun _ => None;
  get_all_queues := Ret ["default"];
  registry_fault := fun _ _ => None;
  job_fetch := fun _ => Ret (Some (naive (now - 20 * MICROS_PER_DAY)));
  remove_fault := fun _ => Some (Exn "ConnectionError" "Connection reset by peer");
  scard := fun _ => Ret 0
|}.

(** The same as [healthy], except that the scan loses its connection. *)
Definition scan_fails : Env := {|
  get_current_job := None;
  utcnow := now;
  json_loads := demo_json_loads;
  fromisoformat := demo_fromisoformat;
  import_rq_integration := Ret tt;
  get_stats := fun _ => Ret stats;
  get_redis_connection := Ret tt;
  scan_replies := ScanFailed (Exn "ConnectionError" "Redis connection lost");
  get_fault := fun _ => None;
  delete_fault := fun _ => None;
  get_all_queues := Ret ["default"];
  registry_fault := fun _ _ => None;
  job_fetch := fun _ => Ret (Some (naive (now - 20 * MICROS_PER_DAY)));
  remove_fault := fun _ => None;
  scard := fun _ => Ret 0
|}.

(** The same as [healthy], except that the second [SCAN] loses its
    connection, after a first page that lists the old record. *)
Definition scan_fails_late : Env := {|
  get_current_job := None;
  utcnow := now;
  json_loads := demo_json_loads;
  fromisoformat := demo_fromisoformat;
  import_rq_integration := Ret tt;
  get_stats := fun _ => Ret stats;
  get_redis_connection := Ret tt;
  scan_replies :=
    ScanPage 17 ["crawl:url:old"] (ScanFailed (Exn "ConnectionError" "Redis connection lost"));
  get_fault := fun _ => None;
  delete_fault := fun _ => None;
  get_all_queues := Ret ["default"];
  registry_fault := fun _ _ => None;
  job_fetch := fun _ => Ret (Some (naive (now - 20 * MICROS_PER_DAY)));
  remove_fault := fun _ => None;
  scard := fun _ => Ret 0
|}.

(** The same as [healthy], except that no connection can be had. *)
Definition no_connection : Env := {|
  get_current_job := None;
  utcnow := now;
  json_loads := demo_json_loads;
  fromisoformat := demo_fromisoformat;
  import_rq_integration := Ret tt;
  get_stats := fun _ => Ret stats;
  get_redis_connection := Raise (Exn "ConnectionError" "Connection refused");
  scan_replies := ScanDone ["crawl:url:old"; "crawl:url:new"];
  get_fault := fun _ => None;
  delete_fault := fun _ => None;
  get_all_queues := Ret ["default"];
  registry_fault := fun _ _ => None;
  job_fetch := fun _ => Ret (Some (naive (now - 20 * MICROS_PER_DAY)));
  remove_fault := fun _ => None;
  scard := fun _ => Ret 0
|}.

End CleanupDemo.

(* ===================================================================== *)
(** ** Relations kept along a computation *)
(* ===================================================================== *)

Module Frames.

(** Every run of [m] relates the state it starts from to the state it
    leaves, whether it returns or raises. *)
Definition keeps {S A} (R : S -> S -> Prop) (m : M S A) : Prop :=
  forall s, R s (snd (m s)).

(** [l'] is [l] with more at the end. *)
Definition extends {A} (l l' : list A) : Prop := exists more, l' = l ++ more.

End Frames.

(* ===================================================================== *)
(** ** What a trace of agent jobs stored and queued *)
(* ===================================================================== *)

Module ADKTrace.
Import ADK.

(** The contexts the jobs tried to store, oldest first. *)
Definition persisted (h : history) : list (string * Z * pydict) :=
  flat_map (fun e => match e with ESetex k ttl d => [(k, ttl, d)] | _ => [] end) h.

(** [job = get_current_job(); job_id = job.id if job else "local"], at the
    trace [h]. *)
Definition job_id_at (C : Collaborators) (h : history) : string :=
  match get_current_job C h with Some id => id | None => "local" end.

(** The context [execute_agent] creates at [h], in a later state. *)
Definition context_at (C : Collaborators) (agent_config : AgentConfig)
    (context parent_agent_id : pyval) (h : history)
    (s : AgentStatus) (e : option string) : AgentExecutionContext :=
  {| agent_id := py_str C (name agent_config) +:+ "_" +:+ job_id_at C h;
     job_id := job_id_at C h;
     session_id := VNone;
     parent_agent_id := parent_agent_id;
     status := s;
     start_time := utcnow_isoformat C h;
     end_time := e;
     metadata := py_or context (VDict []) |}.

(** The Redis key of an agent's context. *)
Definition context_key (agent_id : string) : string :=
  "adk:agent:" +:+ agent_id +:+ ":context".

(** A sub-agent configuration that [adk_agent_job] can rebuild. *)
Definition complete_config (d : pydict) : Prop :=
  is_Some (Py.lookup "name" d) /\ is_Some (Py.lookup "description" d).

(** An entry of [sub_agents] that reports success. *)
Definition succeeded (v : pyval) : Prop :=
  exists d, v = VDict d /\ Py.lookup "status" d = Some (VStr "success").

(** An entry of [sub_agents] for a job that was queued. *)
Definition queued_entry (v : pyval) : Prop :=
  exists d, v = VDict d /\ Py.lookup "status" d = Some (VStr "enqueued").


(** The dictionary [multi_agent_coordination_job] starts from. *)
Definition coordination_result (strategy : string) (coordinator : pyval)
    (sub_agents : list pyval) (job_id : string) : pydict :=
  [ ("status", VStr "success");
    ("strategy", VStr strategy);
    ("coordinator", coordinator);
    ("sub_agents", VList sub_agents);
    ("job_id", VStr job_id) ].

(** The dictionary it returns from its [except] branch. *)
Definition coordination_error (message job_id : string) : pydict :=
  [ ("status", VStr "error"); ("error", VStr message); ("job_id", VStr job_id) ].

(** The jobs handed to the queue for [sub_agent_configs]. *)
Definition enqueue_events (task : pyval) (job_id : string)
    (sub_agent_configs : list pydict) : history :=
  map (fun c => EEnqueue c task job_id) sub_agent_configs.

End ADKTrace.

(* ===================================================================== *)
(** ** adk_integration.py: reading a stored context back *)
(* ===================================================================== *)

Module ADKContext.

(** [AgentStatus(value)]: the member with that value, or [ValueError]. *)
Definition AgentStatus_of (v : pyval) : outcome ADK.AgentStatus :=
  match v with
  | VStr s =>
      if String.eqb s "initializing" then Ret ADK.INITIALIZING
      else if String.eqb s "running" then Ret ADK.RUNNING
      else if String.eqb s "waiting_approval" then Ret ADK.WAITING_APPROVAL
      else if String.eqb s "completed" then Ret ADK.COMPLETED
      else if String.eqb s "failed" then Ret ADK.FAILED
      else if String.eqb s "cancelled" then Ret ADK.CANCELLED
      else Raise (Exn "ValueError" "not a valid AgentStatus")
  | _ => Raise (Exn "ValueError" "not a valid AgentStatus")
  end.

(** An [AgentExecutionContext] as [_get_context] builds it: the dataclass
    does not check its fields, so the identifiers are whatever the stored
    dictionary held.  Times are kept in ISO format. *)
Record AgentExecutionContext : Type := {
  agent_id : pyval;
  job_id : pyval;
  session_id : pyval;
  parent_agent_id : pyval;
  status : ADK.AgentStatus;
  start_time : string;
  end_time : option string;
  metadata : pyval
}.

(** The object a context written by [execute_agent] is read back as. *)
Definition loaded (c : ADK.AgentExecutionContext) : AgentExecutionContext :=
  {| agent_id := VStr (ADK.agent_id c);
     job_id := VStr (ADK.job_id c);
     session_id := ADK.session_id c;
     parent_agent_id := ADK.parent_agent_id c;
     status := ADK.status c;
     start_time := ADK.start_time c;
     end_time := ADK.end_time c;
     metadata := ADK.metadata c |}.

(** [json.loads], [datetime.fromisoformat] (answering with the time in ISO
    format) and [redis.get], which answers [None] for a missing key. *)
Record Collaborators : Type := {
  json_loads : string -> outcome pyval;
  fromisoformat : pyval -> outcome string;
  redis_get : string -> outcome (option string)
}.

Definition bind {A B} (o : outcome A) (f : A -> outcome B) : outcome B :=
  match o with
  | Ret a => f a
  | Raise e => Raise e
  end.

Section Reader.

Variable C : Collaborators.

(** The body of the [try] in [ADKAgentRunner._get_context]. *)
Definition read_context (agent_id : string) : outcome (option AgentExecutionContext) :=
  let key := "adk:agent:" +:+ agent_id +:+ ":context" in
  bind (redis_get C key) (fun data =>
  match data with
  | None => Ret None
  | Some text =>
      if String.eqb text "" then Ret None
      else
        bind (json_loads C text) (fun ctx_dict =>
        bind (item ctx_dict "agent_id") (fun agent_id =>
        bind (item ctx_dict "job_id") (fun job_id =>
        bind (get_method ctx_dict "session_id" VNone) (fun session_id =>
        bind (get_method ctx_dict "parent_agent_id" VNone) (fun parent_agent_id =>
        bind (item ctx_dict "status") (fun status_value =>
        bind (AgentStatus_of status_value) (fun status =>
        bind (item ctx_dict "start_time") (fun start_text =>
        bind (fromisoformat C start_text) (fun start_time =>
        bind (get_method ctx_dict "end_time" VNone) (fun end_value =>
        bind (if truthy end_value then
                bind (item ctx_dict "end_time") (fun end_text =>
                bind (fromisoformat C end_text) (fun t => Ret (Some t)))
              else Ret None) (fun end_time =>
        bind (get_method ctx_dict "metadata" (VDict [])) (fun metadata =>
        Ret (Some {| agent_id := agent_id;
                     job_id := job_id;
                     session_id := session_id;
                     parent_agent_id := parent_agent_id;
                     status := status;
                     start_time := start_time;
                     end_time := end_time;
                     metadata := metadata |})))))))))))))
  end).

(** [ADKAgentRunner._get_context]: every exception becomes [None]. *)
Definition _get_context (agent_id : string) : option AgentExecutionContext :=
  match read_context agent_id with
  | Ret context => context
  | Raise _ => None
  end.

End Reader.

End ADKContext.

(* ===================================================================== *)
(** ** What a digest does with each crawled page *)
(* ===================================================================== *)

Module JobsTrace.
Import Jobs.

(** The parser call [digest_url_job] makes for a page. *)
Definition parse_call (data : pydict) : event :=
  EParseContent (get data "url")
                (get_default data "content" (VStr ""))
                (get_default data "content_type" (VStr "text/html")).

(** The parser's answer for a page. *)
Definition parse_answer (C : Collaborators) (data : pydict)
  : outcome (Result ParsedData exn) :=
  parse_content C (get data "url")
                (get_default data "content" (VStr ""))
                (get_default data "content_type" (VStr "text/html")).

(** The page as the digest returns it. *)
Definition parsed_page (C : Collaborators) (data : pydict) : pydict :=
  match parse_answer C data with
  | Ret (Success parsed_data) => with_parsed data parsed_data
  | _ => data
  end.

(** A page the loop of the digest gets through. *)
Definition digestible (C : Collaborators) (data : pydict) : Prop :=
  is_Some (Py.lookup "url" data) /\ is_ret (parse_answer C data) = true.

(** The depth limit a crawl job decides on. *)
Definition limit_in_force (max_depth : option Z) (p : process) : Z :=
  match max_depth with Some d => d | None => crawler_max_depth p end.

End JobsTrace.

(* ===================================================================== *)
(** ** What a clean-up run does to the registries and the queues *)
(* ===================================================================== *)

Module CleanupTrace.
Import Cleanup.

(** The flag that governs a registry. *)
Definition enabled (kind : registry_kind) (clean_failed_jobs clean_finished_jobs : bool)
  : bool :=
  match kind with
  | FailedJobs => clean_failed_jobs
  | FinishedJobs => clean_finished_jobs
  end.

(** RQ knows the job, and it ended (at a naive time) before
    [utcnow() - timedelta(days=max_age_days)]. *)
Definition ended_before_cutoff (E : Env) (max_age_days : Z) (job_id : string) : Prop :=
  exists t, job_fetch E job_id = Ret (Some t)
            /\ aware t = false
            /\ micros t < utcnow E - max_age_days * MICROS_PER_DAY.

(** From [s] to [s'] no registry gained a job, and a registry lost only jobs
    that ended before the cutoff, and only if its flag was set. *)
Definition registries_shrink (E : Env) (max_age_days : Z)
    (clean_failed_jobs clean_finished_jobs : bool) (s s' : state) : Prop :=
  forall kind queue j,
    (j ∈ job_ids kind queue (fst s') -> j ∈ job_ids kind queue (fst s))
    /\ (j ∈ job_ids kind queue (fst s) ->
        j ∈ job_ids kind queue (fst s')
        \/ (enabled kind clean_failed_jobs clean_finished_jobs = true
            /\ ended_before_cutoff E max_age_days j)).

(** The queue-size warnings printed so far, oldest first. *)
Definition warnings (l : list event) : list (string * Z) :=
  flat_map (fun e => match e with EWarnQueueSize q n => [(q, n)] | _ => [] end) l.

(** A warning the third phase may print: one of its three queues, with the
    size [SCARD] answered, above the threshold. *)
Definition big_queue (E : Env) (w : string * Z) : Prop :=
  fst w ∈ ["default"; "high"; "low"]
  /\ scard E ("crawl:queue:" +:+ fst w) = Ret (snd w)
  /\ 1000 < snd w.

(** From [s] to [s'] only warnings about big queues were printed. *)
Definition only_warns (E : Env) (s s' : state) : Prop :=
  exists more, warnings (effects (fst s')) = warnings (effects (fst s)) ++ more
               /\ Forall (big_queue E) more.

(** What every step of a run keeps. *)
Definition tidy (E : Env) (max_age_days : Z)
    (clean_failed_jobs clean_finished_jobs : bool) (s s' : state) : Prop :=
  registries_shrink E max_age_days clean_failed_jobs clean_finished_jobs s s'
  /\ only_warns E s s'
  /\ (stale_queues_cleaned (snd s) = 0 -> stale_queues_cleaned (snd s') = 0).

(** The record the job returns from its outer [except]. *)
Definition error_result (E : Env) (e : exn) : pydict :=
  [ ("status", VStr "error");
    ("error", VStr (exn_msg e));
    ("job_id", VStr (match get_current_job E with Some id => id | None => "local" end)) ].

(** The healthy store of the demo, whose statistics cannot be read any more
    once something has been deleted. *)
Definition stats_lost : Env := {|
  get_current_job := None;
  utcnow := CleanupDemo.now;
  json_loads := CleanupDemo.demo_json_loads;
  fromisoformat := CleanupDemo.demo_fromisoformat;
  import_rq_integration := Ret tt;
  get_stats := fun st =>
    match effects st with
    | [] => Ret CleanupDemo.stats
    | _ => Raise (Exn "ConnectionError" "Redis connection lost")
    end;
  get_redis_connection := Ret tt;
  scan_replies := ScanDone ["crawl:url:old"; "crawl:url:new"];
  get_fault := fun _ => None;
  delete_fault := fun _ => None;
  get_all_queues := Ret ["default"];
  registry_fault := fun _ _ => None;
  job_fetch := fun _ => Ret (Some (naive (CleanupDemo.now - 20 * MICROS_PER_DAY)));
  remove_fault := fun _ => None;
  scard := fun _ => Ret 0
|}.

End CleanupTrace.

(* ===================================================================== *)
(** ** What the listener may put on the status channel *)
(* ===================================================================== *)

Module K0mmand3rTrace.
Import K0mmand3r.

(** A message on the listener's status channel whose level is [error], or
    [info] in a mode that lets [info] through. *)
Definition allowed_message (channel filter_mode : string) (p : string * pydict) : Prop :=
  fst p = channel +:+ ":status"
  /\ (Py.get (snd p) "level" = VStr "error"
      \/ (Py.get (snd p) "level" = VStr "info"
          /\ _should_publish filter_mode "info" = true)).

(** From [h] to [h'] only such messages were published. *)
Definition publishes_only_allowed (channel filter_mode : string) (h h' : history) : Prop :=
  exists more, published h' = published h ++ more
               /\ Forall (allowed_message channel filter_mode) more.

End K0mmand3rTrace.

(* ===================================================================== *)
(** ** job_executor.py: running an agent for the job system *)
(* ===================================================================== *)

Module JobExecutor.

(** The attributes of an [AgentResult] that the executor reads. *)
Record AgentResult : Type := {
  success : pyval;
  output : pyval;
  error : pyval;
  metadata : pyval
}.

(** The agent service and the file system ([Path.exists], [Path.is_file],
    [Path.read_text]); each call answers or raises. *)
Record Collaborators : Type := {
  run_agent : string -> string -> outcome AgentResult;
  path_exists : string -> outcome bool;
  path_is_file : string -> outcome bool;
  read_text : string -> outcome string
}.

(** The line feed. *)
Definition LF : string := String (Ascii.ascii_of_nat 10) EmptyString.

Section Executor.

Variable C : Collaborators.

(** The body of the loop of [_load_context_files]: what one path adds to
    [context_parts].  A path that does not exist or is not a file is
    skipped, and so is one on which any of the calls raises. *)
Definition context_block (file_path : string) : list string :=
  match path_exists C file_path with
  | Ret true =>
      match path_is_file C file_path with
      | Ret true =>
          match read_text C file_path with
          | Ret content =>
              [ "--- Context from " +:+ file_path +:+ " ---";
                content;
                "--- End context ---" ]
          | Raise _ => []
          end
      | _ => []
      end
  | _ => []
  end.

(** [JobExecutor._load_context_files]. *)
Definition _load_context_files (file_paths : list string) : string :=
  match file_paths with
  | [] => ""
  | _ =>
      let context_parts := flat_map context_block file_paths in
      match context_parts with
      | [] => ""
      | _ => String.concat LF context_parts
      end
  end.

(** The prompt handed to the agent. *)
Definition full_prompt (context prompt : string) : string :=
  if negb (String.eqb context "") then context +:+ LF +:+ LF +:+ prompt else prompt.

(** [JobExecutor.execute_agent_task]; [timeout_ms] is only logged. *)
Definition execute_agent_task (agent_type prompt : string)
    (context_files : option (list string)) (timeout_ms : option Z) : pydict :=
  let context := _load_context_files (default [] context_files) in
  match run_agent C agent_type (full_prompt context prompt) with
  | Ret result =>
      [ ("success", success result);
        ("output", py_or (output result) (VStr ""));
        ("error", error result);
        ("metadata", metadata result) ]
  | Raise e =>
      [ ("success", VBool false);
        ("output", VStr "");
        ("error", VStr (exn_msg e));
        ("metadata", VDict []) ]
  end.

End Executor.

(** The path can be loaded: it exists, is a file and can be read. *)
Definition loadable (C : Collaborators) (file_path : string) : bool :=
  match path_exists C file_path, path_is_file C file_path, read_text C file_path with
  | Ret true, Ret true, Ret _ => true
  | _, _, _ => false
  end.

End JobExecutor.

(* ===================================================================== *)
(** * Properties *)
(* ===================================================================== *)


Module PyFacts.

Lemma lookup_set_eq k v d : lookup k (set k v d) = Some v.
Proof.
  induction d as [|[k' v'] d IH]; simpl.
  - now rewrite String.eqb_refl.
  - destruct (String.eqb k k') eqn:E; simpl.
    + now rewrite String.eqb_refl.
    + now rewrite E.
Qed.

Lemma lookup_set_ne k k' v d : k <> k' -> lookup k' (set k v d) = lookup k' d.
Proof.
  intros Hne. induction d as [|[k0 v0] d IH]; simpl.
  - destruct (String.eqb k' k) eqn:E; [|reflexivity].
    apply String.eqb_eq in E. congruence.
  - destruct (String.eqb k k0) eqn:E; simpl.
    + apply String.eqb_eq in E. subst k0.
      destruct (String.eqb k' k) eqn:E'; [|reflexivity].
      apply String.eqb_eq in E'. congruence.
    + now rewrite IH.
Qed.

Lemma str_in_spec x xs : str_in x xs = true <-> In x xs.
Proof.
  unfold str_in. rewrite existsb_exists. split.
  - intros (y & Hy & E). apply String.eqb_eq in E. now subst.
  - intros H. exists x. split; [assumption | apply String.eqb_refl].
Qed.

(** A computation bound to a continuation returns only if both do. *)
Lemma bind_ret_inv {S A B} (m : M S A) (f : A -> M S B) s b s' :
  (m ≫= f) s = (Ret b, s') ->
  exists a s1, m s = (Ret a, s1) /\ f a s1 = (Ret b, s').
Proof.
  unfold mbind, M_bind. destruct (m s) as [[a|e] s1]; intros H.
  - exists a, s1. split; [reflexivity | exact H].
  - discriminate.
Qed.

(** A [try] yields a job result as soon as its body can only return one and
    its handler always does. *)
Lemma try_except_shape {S} (body : M S pydict) (handler : exn -> M S pydict) s :
  (forall d s', body s = (Ret d, s') -> job_result_shape (Ret d)) ->
  (forall e s', job_result_shape (fst (handler e s'))) ->
  job_result_shape (fst (try_except body handler s)).
Proof.
  intros Hb Hh. unfold try_except.
  destruct (body s) as [[d|e] s'] eqn:E.
  - exact (Hb d s' eq_refl).
  - apply Hh.
Qed.

End PyFacts.

Module K0mmand3rProps.
Import K0mmand3r.

Lemma table_get_status_levels_unknown (mode : string) :
  mode <> "critical" -> mode <> "compact" -> mode <> "verbose" -> mode <> "debug" ->
  table_get mode STATUS_LEVELS = None.
Proof.
  intros H1 H2 H3 H4. unfold STATUS_LEVELS. simpl.
  repeat match goal with
  | |- context [String.eqb mode ?s] =>
      destruct (String.eqb_spec mode s); [congruence|]
  end.
  reflexivity.
Qed.

Lemma should_publish_allowed (mode level : string) :
  _should_publish mode level = true <-> In level (allowed_levels mode).
Proof. unfold _should_publish. apply PyFacts.str_in_spec. Qed.

(** A filtered level leaves the status channel untouched, whatever the
    collaborators do. *)
Lemma publish_result_filtered C channel mode result level h :
  _should_publish mode level = false ->
  _publish_result C channel mode result level h
  = (Ret tt, h ++ [ELog "debug" "Filtered message"]).
Proof.
  intros Hf. unfold _publish_result, try_except. rewrite Hf. reflexivity.
Qed.

(** An allowed level whose message formats and whose transport accepts it
    puts exactly that message on the status channel. *)
Lemma publish_result_delivered C channel mode result level h msg :
  _should_publish mode level = true ->
  status_message_of C (utcnow_isoformat C h) result level = Ret msg ->
  redis_publish C h (channel +:+ ":status") msg = Ret tt ->
  _publish_result C channel mode result level h
  = (Ret tt, h ++ [EPublish (channel +:+ ":status") msg] ++ [ELog "info" "Published"]).
Proof.
  intros Hf Hm Hp. unfold _publish_result, try_except. rewrite Hf. simpl.
  unfold mbind, M_bind, gets, lift, publish. simpl. rewrite Hm. rewrite Hp.
  unfold log, emit, modify. simpl. now rewrite <- app_assoc.
Qed.

Lemma published_app h1 h2 : published (h1 ++ h2) = published h1 ++ published h2.
Proof. unfold published. apply flat_map_app. Qed.

(** [_publish_result] never raises. *)
Lemma publish_result_returns C channel mode result level h :
  fst (_publish_result C channel mode result level h) = Ret tt.
Proof.
  unfold _publish_result, try_except.
  match goal with |- context [match ?b h with _ => _ end] => destruct (b h) as [[[]|e] h'] end;
    reflexivity.
Qed.

(** What [_publish_result] puts on the status channel: the status message,
    once, when the level passes the filter, the message can be built and
    Redis accepts it; nothing in every other case. *)
Lemma publish_result_published C channel mode result level h :
  published (snd (_publish_result C channel mode result level h))
  = published h
    ++ (if _should_publish mode level then
          match status_message_of C (utcnow_isoformat C h) result level with
          | Ret msg =>
              match redis_publish C h (channel +:+ ":status") msg with
              | Ret _ => [(channel +:+ ":status", msg)]
              | Raise _ => []
              end
          | Raise _ => []
          end
        else []).
Proof.
  unfold _publish_result, try_except.
  destruct (_should_publish mode level); cbn.
  - unfold mbind, M_bind, gets, lift, publish. cbn.
    destruct (status_message_of _ _ _ _) as [msg|e]; cbn.
    + destruct (redis_publish _ _ _ _) as [[]|e]; cbn;
        rewrite !published_app; cbn; now rewrite ?app_nil_r.
    + rewrite published_app. reflexivity.
  - rewrite published_app. reflexivity.
Qed.

Lemma status_message_level_of C now result level msg :
  status_message_of C now result level = Ret msg -> Py.get msg "level" = VStr level.
Proof.
  unfold status_message_of. intros Hm.
  destruct (contains _ _) as [[|]|]; try discriminate.
  - destruct (item _ _) as [p|]; try discriminate. injection Hm as <-. reflexivity.
  - injection Hm as <-. reflexivity.
Qed.

(** C4 (amended).  The filter lets a level through exactly when it belongs
    to the fixed allowed set of the active mode: [error], [fatal] for
    [critical]; [info], [error], [fatal] for [compact]; [debug], [info],
    [warn], [error], [fatal] for [verbose]; and those with [trace] for
    [debug].  A message whose level does not pass is never published.  A
    message whose level passes is published, once, exactly when its status
    message can be built and the Redis publish succeeds; otherwise nothing is
    published.  So in mode [compact] a [debug] message is never published,
    and an [info] message is published under those two conditions. *)
Theorem severity_filter_publishes_iff_allowed_and_delivered
    C channel mode result level h :
  (_should_publish "critical" level = true <-> In level ["error"; "fatal"])
  /\ (_should_publish "compact" level = true <-> In level ["info"; "error"; "fatal"])
  /\ (_should_publish "verbose" level = true
      <-> In level ["debug"; "info"; "warn"; "error"; "fatal"])
  /\ (_should_publish "debug" level = true
      <-> In level ["trace"; "debug"; "info"; "warn"; "error"; "fatal"])
  /\ published (snd (_publish_result C channel mode result level h))
     = published h
       ++ (if _should_publish mode level then
             match status_message_of C (utcnow_isoformat C h) result level with
             | Ret msg =>
                 match redis_publish C h (channel +:+ ":status") msg with
                 | Ret _ => [(channel +:+ ":status", msg)]
                 | Raise _ => []
                 end
             | Raise _ => []
             end
           else [])
  /\ (forall msg,
        status_message_of C (utcnow_isoformat C h) result level = Ret msg ->
        Py.get msg "level" = VStr level)
  /\ published (snd (_publish_result C channel "compact" result "debug" h)) = published h
  /\ (forall msg,
        status_message_of C (utcnow_isoformat C h) result "info" = Ret msg ->
        redis_publish C h (channel +:+ ":status") msg = Ret tt ->
        published (snd (_publish_result C channel "compact" result "info" h))
        = published h ++ [(channel +:+ ":status", msg)]).
Proof.
  split; [apply (should_publish_allowed "critical")|].
  split; [apply (should_publish_allowed "compact")|].
  split; [apply (should_publish_allowed "verbose")|].
  split; [apply (should_publish_allowed "debug")|].
  split; [apply publish_result_published|].
  split; [intros msg; apply status_message_level_of|].
  split.
  - rewrite publish_result_published. cbn. apply app_nil_r.
  - intros msg Hm Hp. rewrite publish_result_published.
    change (_should_publish "compact" "info") with true. cbn iota.
    now rewrite Hm, Hp.
Qed.

(** C10. A listener whose [filter_mode] is none of the four known modes
    filters as [compact] does: exactly [info], [error] and [fatal] pass. *)
Theorem unknown_filter_mode_falls_back_to_compact (mode level : string) :
  mode <> "critical" -> mode <> "compact" -> mode <> "verbose" -> mode <> "debug" ->
  allowed_levels mode = ["info"; "error"; "fatal"]
  /\ (_should_publish mode level = true
      <-> level = "info" \/ level = "error" \/ level = "fatal").
Proof.
  intros H1 H2 H3 H4.
  assert (Ha : allowed_levels mode = ["info"; "error"; "fatal"]).
  { unfold allowed_levels.
    now rewrite table_get_status_levels_unknown by assumption. }
  split; [exact Ha|].
  rewrite should_publish_allowed, Ha. simpl. intuition congruence.
Qed.

Lemma handle_message_returns C channel mode data h :
  fst (_handle_message C channel mode data h) = Ret tt.
Proof.
  unfold _handle_message, try_except.
  match goal with |- context [match ?b h with _ => _ end] =>
    destruct (b h) as [[[]|e] h'] end; [reflexivity|].
  destruct (String.eqb _ _); reflexivity.
Qed.

Lemma unknown_verb_not_mapped (v : string) :
  str_in v agent_verbs = false -> table_get v VERB_MAP = None.
Proof.
  unfold str_in, agent_verbs. simpl. intros H.
  repeat (apply orb_false_elim in H as [? H]).
  unfold VERB_MAP. simpl.
  repeat match goal with E : String.eqb v _ = false |- _ => rewrite E; clear E end.
  reflexivity.
Qed.

(** One delivered message is handled and the loop goes on with the rest. *)
Lemma listen_step C channel mode (m : pubsub_message) rest h :
  stop_requested m = false -> mtype m = "message" ->
  listen C channel mode (Ret m :: rest) h
  = listen C channel mode rest (snd (_handle_message C channel mode (mdata m) h)).
Proof.
  intros Hs Ht. simpl. rewrite Hs, Ht. simpl.
  unfold mbind, M_bind.
  pose proof (handle_message_returns C channel mode (mdata m) h) as Hr.
  destruct (_handle_message C channel mode (mdata m) h) as [[[]|e] h']; simpl in *;
    [reflexivity | discriminate].
Qed.

(** C9. [_handle_message] returns normally on every payload.  Bytes that
    are not UTF-8, text that is not JSON, JSON that is not a
    [K0mmand3rMessage] and a message whose verb belongs to neither dispatch
    family are logged and dropped: the only effects are log records.  The
    subscriber loop then continues with the next item of the stream. *)
Theorem handle_message_drops_bad_payloads C channel mode data h :
  fst (_handle_message C channel mode data h) = Ret tt
  /\ (forall e, text_of C data = Raise e ->
        exists tpl, snd (_handle_message C channel mode data h) = h ++ [ELog "error" tpl])
  /\ (forall text e, text_of C data = Ret text -> json_loads C text = Raise e ->
        exists tpl, snd (_handle_message C channel mode data h) = h ++ [ELog "error" tpl])
  /\ (forall text v e, text_of C data = Ret text -> json_loads C text = Ret v ->
        K0mmand3rMessage_new v = Raise e ->
        exists tpl, snd (_handle_message C channel mode data h) = h ++ [ELog "error" tpl])
  /\ (forall text v m, text_of C data = Ret text -> json_loads C text = Ret v ->
        K0mmand3rMessage_new v = Ret m ->
        str_in (verb m) agent_verbs = false -> verb m <> "chain" ->
        snd (_handle_message C channel mode data h)
        = h ++ [ELog "info" "Received command"; ELog "warning" "Unknown verb"])
  /\ (forall stop_requested rest,
        stop_requested = false ->
        listen C channel mode
          (Ret {| stop_requested := stop_requested; mtype := "message"; mdata := data |}
             :: rest) h
        = listen C channel mode rest (snd (_handle_message C channel mode data h))).
Proof.
  split; [apply handle_message_returns|].
  split.
  { intros e He. unfold _handle_message, try_except, mbind, M_bind, lift.
    destruct data as [s|b]; simpl in He; [discriminate|]. rewrite He. simpl.
    destruct (String.eqb _ _); eexists; reflexivity. }
  split.
  { intros text e Ht He. unfold _handle_message, try_except, mbind, M_bind, lift.
    destruct data as [s|b]; simpl in Ht.
    - injection Ht as ->. unfold mret, M_ret. rewrite He. simpl.
      destruct (String.eqb _ _); eexists; reflexivity.
    - rewrite Ht, He. simpl. destruct (String.eqb _ _); eexists; reflexivity. }
  split.
  { intros text v e Ht Hv He. unfold _handle_message, try_except, mbind, M_bind, lift.
    destruct data as [s|b]; simpl in Ht.
    - injection Ht as ->. unfold mret, M_ret. rewrite Hv, He. simpl.
      destruct (String.eqb _ _); eexists; reflexivity.
    - rewrite Ht, Hv, He. simpl. destruct (String.eqb _ _); eexists; reflexivity. }
  split.
  { intros text v m Ht Hv Hm Hverb Hchain.
    assert (Hc : String.eqb (verb m) "chain" = false)
      by (apply String.eqb_neq; exact Hchain).
    pose proof (unknown_verb_not_mapped _ Hverb) as Hmap.
    unfold _handle_message, try_except, mbind, M_bind, lift.
    destruct data as [s|b]; simpl in Ht.
    - injection Ht as ->. unfold mret, M_ret. rewrite Hv, Hm.
      cbn -[table_get str_in agent_verbs VERB_MAP].
      rewrite Hmap, Hverb, Hc. cbn. now rewrite <- app_assoc.
    - rewrite Ht, Hv, Hm. unfold mret, M_ret.
      cbn -[table_get str_in agent_verbs VERB_MAP].
      rewrite Hmap, Hverb, Hc. cbn. now rewrite <- app_assoc. }
  intros stop rest ->. now apply listen_step.
Qed.

(** Level [error] passes the filter in every mode, known or not. *)
Lemma error_level_always_allowed (mode : string) : _should_publish mode "error" = true.
Proof.
  unfold _should_publish, allowed_levels, STATUS_LEVELS. simpl.
  repeat match goal with
  | |- context [String.eqb mode ?s] => destruct (String.eqb mode s); [reflexivity|]
  end.
  reflexivity.
Qed.

(** The agent family reports a failing command at level [error]. *)
Lemma agent_failure_is_published_at_error_level C channel mode m h e :
  let params := params m in
  let agent_name := py_or (Py.get params "name") (Py.get params "agent") in
  let input_text := py_or (Py.get params "input") (py_or (content m) (VStr "")) in
  let model := Py.get params "model" in
  eq_str (get_default params "action" (VStr "run")) AgentAction.RUN = true ->
  truthy agent_name = true ->
  run_agent C (h ++ [ERunAgent agent_name input_text model]) agent_name input_text model
  = Raise e ->
  _handle_agent_command C channel mode m h
  = _publish_result C channel mode [("error", VStr (exn_msg e))] "error"
      (h ++ [ERunAgent agent_name input_text model; ELog "error" "Agent command failed"]).
Proof.
  intros params0 agent_name input_text model Ha Hn Hr.
  unfold _handle_agent_command, try_except.
  fold params0. rewrite Ha. cbn [orb]. fold agent_name input_text model.
  rewrite Hn. cbn [negb].
  unfold mbind, M_bind, emit, modify, ask. rewrite Hr.
  unfold log, emit, modify. now rewrite <- app_assoc.
Qed.

(** C2. What the code does when a chain command fails: the exception is
    caught and handed to [_publish_result] at the default level [info], not
    [error] as in the agent family; under the [critical] filter the failure
    therefore never reaches the status channel. *)
Theorem chain_failure_is_published_at_info_level C channel mode m h e :
  let params := params m in
  let chain_name := py_or (Py.get params "name") (Py.get params "chain") in
  eq_str (get_default params "action" (VStr "run")) ChainAction.RUN = true ->
  truthy chain_name = true ->
  run_chain C (h ++ [ERunChain chain_name (chain_params_of params)])
    chain_name (chain_params_of params) = Raise e ->
  _handle_chain_command C channel mode m h
  = _publish_result C channel mode [("error", VStr (exn_msg e))] "info"
      (h ++ [ERunChain chain_name (chain_params_of params);
             ELog "error" "Chain command failed"])
  /\ (mode = "critical" ->
      published (snd (_handle_chain_command C channel mode m h)) = published h).
Proof.
  intros params0 chain_name Ha Hn Hr.
  assert (Heq : _handle_chain_command C channel mode m h
    = _publish_result C channel mode [("error", VStr (exn_msg e))] "info"
        (h ++ [ERunChain chain_name (chain_params_of params0);
               ELog "error" "Chain command failed"])).
  { unfold _handle_chain_command, try_except.
    fold params0. rewrite Ha. fold chain_name. rewrite Hn. cbn [negb].
    unfold mbind, M_bind, emit, modify, ask. rewrite Hr.
    unfold log, emit, modify. now rewrite <- app_assoc. }
  split; [exact Heq|].
  intros ->. rewrite Heq. rewrite publish_result_filtered by reflexivity.
  cbn [snd]. rewrite !published_app. cbn. now rewrite !app_nil_r.
Qed.

Lemma agent_runs_app h1 h2 : agent_runs (h1 ++ h2) = agent_runs h1 ++ agent_runs h2.
Proof. unfold agent_runs. apply flat_map_app. Qed.

Lemma publish_result_agent_runs C channel mode result level h :
  agent_runs (snd (_publish_result C channel mode result level h)) = agent_runs h.
Proof.
  unfold _publish_result, try_except.
  destruct (_should_publish mode level); cbn.
  - unfold mbind, M_bind, gets, lift, publish.
    destruct (status_message_of _ _ _ _) as [msg|e]; cbn.
    + destruct (redis_publish _ _ _ _); cbn;
        rewrite !agent_runs_app; cbn; now rewrite !app_nil_r.
    + rewrite agent_runs_app. cbn. now rewrite app_nil_r.
  - rewrite agent_runs_app. cbn. now rewrite app_nil_r.
Qed.

Lemma status_message_type_of C now result level msg :
  status_message_of C now result level = Ret msg ->
  Py.get msg "type" = VStr (if truthy (Py.get result "error") then "error" else "progress").
Proof.
  unfold status_message_of. intros Hm.
  destruct (contains _ _) as [[|]|]; try discriminate.
  - destruct (item _ _) as [p|]; try discriminate. injection Hm as <-. reflexivity.
  - injection Hm as <-. reflexivity.
Qed.

(** C7 (amended). On the message
    [{"verb":"dispatch","params":{"name":"researcher","input":"hi"}}] the
    router maps [dispatch] to [run] and calls [run_agent] exactly once, with
    agent [researcher], input [hi] and no model override.  When the call
    returns, the result is published at level [info]: exactly one status
    message, whose [type] is [error] when the result carries an error and
    [progress] otherwise, is published when the filter mode lets [info]
    through, the status message can be built from the result and the Redis
    publish succeeds; in every other case (mode [critical], a result that
    cannot be formatted, a failing publish) none is published.  When the
    call raises, the failure is reported in the same way at level [error],
    which every mode lets through. *)
Theorem dispatch_scenario_publishes_when_info_is_delivered C channel mode h :
  json_loads C RouterDemo.dispatch_text = Ret (VDict RouterDemo.dispatch_dict) ->
  let h1 := h ++ [ELog "info" "Received command"; ELog "debug" "Mapped verb to action";
                  ERunAgent (VStr "researcher") (VStr "hi") VNone] in
  let h2 := h1 ++ [ELog "error" "Agent command failed"] in
  let h' := snd (_handle_message C channel mode (PStr RouterDemo.dispatch_text) h) in
  table_get "dispatch" VERB_MAP = Some AgentAction.RUN
  /\ agent_runs h' = agent_runs h ++ [(VStr "researcher", VStr "hi", VNone)]
  /\ (forall result,
        run_agent C h1 (VStr "researcher") (VStr "hi") VNone = Ret result ->
        published h'
        = published h
          ++ (if _should_publish mode "info" then
                match status_message_of C (utcnow_isoformat C h1) result "info" with
                | Ret msg =>
                    match redis_publish C h1 (channel +:+ ":status") msg with
                    | Ret _ => [(channel +:+ ":status", msg)]
                    | Raise _ => []
                    end
                | Raise _ => []
                end
              else [])
        /\ (forall msg,
              status_message_of C (utcnow_isoformat C h1) result "info" = Ret msg ->
              Py.get msg "level" = VStr "info"
              /\ Py.get msg "type"
                 = VStr (if truthy (Py.get result "error") then "error" else "progress")))
  /\ (forall e,
        run_agent C h1 (VStr "researcher") (VStr "hi") VNone = Raise e ->
        exists msg,
          status_message_of C (utcnow_isoformat C h2) [("error", VStr (exn_msg e))] "error"
          = Ret msg
          /\ Py.get msg "level" = VStr "error"
          /\ published h'
             = published h
               ++ match redis_publish C h2 (channel +:+ ":status") msg with
                  | Ret _ => [(channel +:+ ":status", msg)]
                  | Raise _ => []
                  end).
Proof.
  intros Hjson h1 h2 h'.
  split; [reflexivity|].
  assert (Hstep : forall r,
    run_agent C h1 (VStr "researcher") (VStr "hi") VNone = r ->
    _handle_message C channel mode (PStr RouterDemo.dispatch_text) h
    = match r with
      | Ret result => _publish_result C channel mode result "info" h1
      | Raise e => _publish_result C channel mode [("error", VStr (exn_msg e))] "error" h2
      end).
  { intros r Hr. unfold _handle_message.
    unfold try_except at 1. unfold mbind, M_bind, mret, M_ret, lift.
    rewrite Hjson. cbn -[_handle_agent_command _handle_chain_command].
    unfold _handle_agent_command, try_except at 1.
    cbn -[_publish_result]. unfold mbind, M_bind, emit, modify, ask.
    rewrite <- !app_assoc. cbn -[_publish_result]. fold h1. rewrite Hr.
    pose proof (publish_result_returns C channel mode) as Hret.
    destruct r as [result|e].
    - specialize (Hret result "info" h1).
      destruct (_publish_result C channel mode result "info" h1) as [[[]|e'] g];
        [reflexivity | discriminate].
    - unfold log, emit, modify. cbn -[_publish_result]. fold h2.
      specialize (Hret [("error", VStr (exn_msg e))] "error" h2).
      destruct (_publish_result C channel mode [("error", VStr (exn_msg e))] "error" h2)
        as [[[]|e'] g]; [reflexivity | discriminate]. }
  assert (Hh1 : published h1 = published h /\
                agent_runs h1 = agent_runs h ++ [(VStr "researcher", VStr "hi", VNone)]).
  { unfold h1. rewrite published_app, agent_runs_app. cbn. now rewrite app_nil_r. }
  assert (Hh2 : published h2 = published h /\ agent_runs h2 = agent_runs h1).
  { unfold h2. rewrite published_app, agent_runs_app. cbn.
    rewrite !app_nil_r. split; [apply Hh1 | reflexivity]. }
  split.
  { subst h'.
    rewrite (Hstep _ eq_refl).
    destruct (run_agent C h1 (VStr "researcher") (VStr "hi") VNone) as [result|e];
      rewrite publish_result_agent_runs.
    - apply Hh1.
    - destruct Hh2 as [_ ->]. apply Hh1. }
  split.
  - intros result Hr. subst h'. rewrite (Hstep _ Hr). cbn beta iota. split.
    + rewrite publish_result_published. destruct Hh1 as [-> _]. reflexivity.
    + intros msg Hm. split.
      * eapply status_message_level_of; exact Hm.
      * eapply status_message_type_of; exact Hm.
  - intros e Hr. subst h'. rewrite (Hstep _ Hr). cbn beta iota.
    destruct (status_message_of C (utcnow_isoformat C h2) [("error", VStr (exn_msg e))]
                "error") as [msg|e'] eqn:Hm; [|discriminate Hm].
    exists msg. split; [reflexivity|]. split.
    + eapply status_message_level_of; exact Hm.
    + rewrite publish_result_published, error_level_always_allowed, Hm.
      destruct Hh2 as [-> _]. reflexivity.
Qed.

(** The filter theorem at work on a healthy service in mode [compact]. *)
Lemma severity_filter_witness :
  published (snd (_publish_result RouterDemo.demo "b00t:langchain" "compact"
                    RouterDemo.researcher_result "info" []))
  = published [] ++ [("b00t:langchain:status", RouterDemo.researcher_status)].
Proof.
  destruct (severity_filter_publishes_iff_allowed_and_delivered RouterDemo.demo
              "b00t:langchain" "compact" RouterDemo.researcher_result "info" [])
    as (_ & _ & _ & _ & _ & _ & _ & Hpub).
  apply (Hpub RouterDemo.researcher_status); reflexivity.
Defined.

(** C4, as stated, fails when Redis refuses the publish: in mode [compact]
    the level [info] is in the allowed set, and yet nothing is published. *)
Lemma allowed_info_message_is_not_published_when_redis_is_down :
  In "info" (allowed_levels "compact")
  /\ published (snd (_publish_result RouterDemo.redis_down "b00t:langchain" "compact"
                       RouterDemo.researcher_result "info" [])) = [].
Proof. split; [cbn; tauto | reflexivity]. Qed.

(** The mode [loud] is unknown and filters as [compact]. *)
Lemma unknown_filter_mode_witness :
  allowed_levels "loud" = ["info"; "error"; "fatal"]
  /\ (_should_publish "loud" "debug" = true
      <-> "debug" = "info" \/ "debug" = "error" \/ "debug" = "fatal").
Proof.
  apply (unknown_filter_mode_falls_back_to_compact "loud" "debug"); discriminate.
Defined.

(** Text that is not JSON is logged and dropped. *)
Lemma handle_message_witness :
  fst (_handle_message RouterDemo.demo "b00t:langchain" "compact" (PStr "dispatch!") [])
  = Ret tt
  /\ exists tpl,
       snd (_handle_message RouterDemo.demo "b00t:langchain" "compact"
              (PStr "dispatch!") [])
       = [] ++ [ELog "error" tpl].
Proof.
  destruct (handle_message_drops_bad_payloads RouterDemo.demo "b00t:langchain"
              "compact" (PStr "dispatch!") []) as (Hret & _ & Hjson & _).
  split; [exact Hret|].
  apply (Hjson "dispatch!" (Exn "JSONDecodeError" "Expecting value")); reflexivity.
Defined.

(** A failing chain under the [critical] filter: nothing reaches the status
    channel. *)
Lemma chain_failure_witness :
  _handle_chain_command RouterDemo.demo "b00t:langchain" "critical"
    RouterDemo.chain_message []
  = _publish_result RouterDemo.demo "b00t:langchain" "critical"
      [("error", VStr "chain crashed")] "info"
      ([] ++ [ERunChain (VStr "summarize") []; ELog "error" "Chain command failed"])
  /\ ("critical" = "critical" ->
      published (snd (_handle_chain_command RouterDemo.demo "b00t:langchain" "critical"
                        RouterDemo.chain_message [])) = published []).
Proof.
  apply (chain_failure_is_published_at_info_level RouterDemo.demo "b00t:langchain"
           "critical" RouterDemo.chain_message [] (Exn "RuntimeError" "chain crashed"));
    reflexivity.
Defined.

(** C7, as stated, fails under the [critical] filter: the agent runs and
    returns, and no status message is published. *)
Lemma dispatch_scenario_critical_publishes_nothing :
  ~ (length (published (snd (_handle_message RouterDemo.demo "b00t:langchain" "critical"
                               (PStr RouterDemo.dispatch_text) []))) = 1%nat).
Proof. vm_compute. discriminate. Qed.

(** The dispatch scenario on the default [compact] filter. *)
Lemma dispatch_scenario_witness :
  agent_runs (snd (_handle_message RouterDemo.demo "b00t:langchain" "compact"
                     (PStr RouterDemo.dispatch_text) []))
  = agent_runs [] ++ [(VStr "researcher", VStr "hi", VNone)]
  /\ published (snd (_handle_message RouterDemo.demo "b00t:langchain" "compact"
                       (PStr RouterDemo.dispatch_text) []))
     = published [] ++ [("b00t:langchain:status", RouterDemo.researcher_status)].
Proof.
  destruct (dispatch_scenario_publishes_when_info_is_delivered RouterDemo.demo
              "b00t:langchain" "compact" [] eq_refl) as (_ & Hruns & Hret & _).
  split; [exact Hruns|].
  exact (proj1 (Hret RouterDemo.researcher_result eq_refl)).
Defined.

End K0mmand3rProps.

Module ADKProps.
Import ADK.

Lemma Zmax_0_bounds at_time timeout :
  0 <= timeout -> at_time <= timeout -> 0 <= Z.max 0 at_time <= timeout.
Proof. lia. Qed.

(** The wait, spelled out: the request is published; when that succeeds, the
    pop decides how long the call takes and what it returns. *)
Lemma wait_for_approval_eq C context action timeout h :
  let request := approval_request context action (utcnow_isoformat C h) in
  let h1 := h ++ [EPublish (approval_channel context) request] in
  let h2 := h1 ++ [EBrpop (response_key context) timeout] in
  let failed e : Result bool pyval := Failure (VStr ("Approval error: " +:+ exn_msg e)) in
  _wait_for_approval C context action timeout h
  = match redis_publish C h (approval_channel context) request with
    | Raise e => (After 0 (Ret (failed e)), h1)
    | Ret _ =>
        (match redis_brpop C h1 (response_key context) timeout with
         | Forever => Forever
         | After t (Raise e) => After t (Ret (failed e))
         | After t (Ret None) =>
             After t (Ret (Failure (VStr ("Approval timeout after "
                                          +:+ pretty timeout +:+ "s"))))
         | After t (Ret (Some (_, data))) =>
             After t
               (Ret match json_loads C data with
                    | Ret (VDict d) =>
                        if truthy (get_default d "approved" VNone) then Success true
                        else Failure (get_default d "reason" (VStr "Approval denied"))
                    | Ret _ =>
                        failed (Exn "AttributeError" "object has no attribute 'get'")
                    | Raise e => failed e
                    end)
         end, h2)
    end.
Proof.
  intros request h1 h2 failed.
  unfold _wait_for_approval, W_try, mbind, W_bind, instant, blocking_call, gets, call,
    lift, mret, W_ret.
  fold (approval_channel context) (response_key context).
  fold (approval_request context action (utcnow_isoformat C h)). fold request.
  destruct (redis_publish C h (approval_channel context) request) as [[]|e]; cbn;
    [|reflexivity].
  fold h1. fold h2.
  destruct (redis_brpop C h1 (response_key context) timeout) as [t [[[k data]|]|e]|];
    cbn; rewrite ?Z.add_0_r; try reflexivity.
  destruct (json_loads C data) as [response|e]; cbn; rewrite ?Z.add_0_r;
    [|reflexivity].
  destruct response; cbn; rewrite ?Z.add_0_r; try reflexivity.
  destruct (truthy (get_default d "approved" VNone)); cbn; rewrite ?Z.add_0_r;
    reflexivity.
Qed.

(** C5.  What the code does.  [_wait_for_approval] never raises.  With a
    positive timeout it comes back with a [Result] within the timeout; when
    the request was published and nothing is pushed on the response key
    within the timeout, it comes back after exactly the timeout with the
    failure [Approval timeout after <t>s], never a success; when a response
    dictionary is popped, the result is [Success True] exactly when its
    [approved] is true (for a Boolean: when it is [True]) and otherwise the
    failure carrying the response's [reason] ([Approval denied] when it has
    none).  But with timeout 0 the [BRPOP] waits without limit: when nothing
    ever happens on the response key, the call never comes back. *)
Theorem wait_for_approval_is_bounded_unless_timeout_is_zero
    C context action timeout h :
  let run := _wait_for_approval C context action timeout h in
  let request := approval_request context action (utcnow_isoformat C h) in
  let h1 := h ++ [EPublish (approval_channel context) request] in
  let h2 := h1 ++ [EBrpop (response_key context) timeout] in
  let timed_out : Result bool pyval :=
    Failure (VStr ("Approval timeout after " +:+ pretty timeout +:+ "s")) in
  (forall t e, fst run <> After t (Raise e))
  /\ (0 < timeout ->
      exists elapsed r, fst run = After elapsed (Ret r) /\ 0 <= elapsed <= timeout)
  /\ (redis_publish C h (approval_channel context) request = Ret tt ->
      snd run = h2
      /\ (0 < timeout ->
          list_wakeup C h1 (response_key context) = None ->
          fst run = After timeout (Ret timed_out))
      /\ (forall at_time w,
            0 < timeout < at_time ->
            list_wakeup C h1 (response_key context) = Some (at_time, w) ->
            fst run = After timeout (Ret timed_out))
      /\ (forall at_time data d,
            0 <= timeout -> timeout = 0 \/ at_time <= timeout ->
            list_wakeup C h1 (response_key context) = Some (at_time, Pushed data) ->
            json_loads C data = Ret (VDict d) ->
            fst run
            = After (Z.max 0 at_time)
                (Ret (if truthy (get_default d "approved" VNone) then Success true
                      else Failure (get_default d "reason" (VStr "Approval denied"))))
            /\ forall approved,
                 Py.get d "approved" = VBool approved ->
                 truthy (get_default d "approved" VNone) = approved)
      /\ (timeout = 0 ->
          list_wakeup C h1 (response_key context) = None ->
          fst run = Forever)).
Proof.
  intros run request h1 h2 timed_out. subst run.
  rewrite wait_for_approval_eq. fold request. fold h1. fold h2.
  destruct (redis_publish C h (approval_channel context) request) as [[]|e] eqn:Hpub.
  2:{ cbn [fst snd]. split; [discriminate|].
      split; [intros Ht; eexists 0, _; split; [reflexivity | lia]|]. discriminate. }
  cbn [fst snd]. unfold redis_brpop.
  split.
  { intros t e.
    destruct (timeout <? 0); [discriminate|].
    destruct (list_wakeup C h1 (response_key context)) as [[a [data|e']]|];
      repeat match goal with
             | |- context [if ?b then _ else _] => destruct b
             end; discriminate. }
  split.
  { intros Ht.
    destruct (Z.ltb_spec timeout 0); [lia|].
    destruct (Z.eqb_spec timeout 0); [lia|]. cbn [orb].
    destruct (list_wakeup C h1 (response_key context)) as [[a w]|].
    - destruct (Z.leb_spec a timeout).
      + destruct w; eexists (Z.max 0 a), _; (split; [reflexivity | lia]).
      + eexists timeout, _. split; [reflexivity | lia].
    - eexists timeout, _. split; [reflexivity | lia]. }
  intros _. split; [reflexivity|].
  split.
  { intros Ht Hw. rewrite Hw.
    destruct (Z.ltb_spec timeout 0); [lia|].
    destruct (Z.eqb_spec timeout 0); [lia|]. reflexivity. }
  split.
  { intros a w Ht Hw. rewrite Hw.
    destruct (Z.ltb_spec timeout 0); [lia|].
    destruct (Z.eqb_spec timeout 0); [lia|]. cbn [orb].
    destruct (Z.leb_spec a timeout); [lia|]. reflexivity. }
  split.
  { intros a data d Ht Hin Hw Hjs. rewrite Hw.
    destruct (Z.ltb_spec timeout 0); [lia|].
    assert (Hb : (timeout =? 0) || (a <=? timeout) = true).
    { destruct Hin as [-> | Hle]; [reflexivity|].
      apply orb_true_iff. right. now apply Z.leb_le. }
    rewrite Hb, Hjs. split; [reflexivity|].
    intros approved Ha. unfold Py.get in Ha. unfold get_default.
    destruct (lookup "approved" d); [subst; reflexivity | discriminate]. }
  intros -> Hw. rewrite Hw. reflexivity.
Qed.

(** The failing input: nobody ever answers and the timeout is 0; the call
    never comes back.  With a timeout of one second it comes back after one
    second with the timeout failure, and an approver who denies after two
    seconds of a five-second wait makes it fail with the approver's reason. *)
Lemma wait_for_approval_witness :
  fst (_wait_for_approval ADKDemo.quiet ADKDemo.waiting_context (VStr "deploy") 0 [])
  = Forever
  /\ (snd (_wait_for_approval ADKDemo.quiet ADKDemo.waiting_context (VStr "deploy") 1 [])
      = [EPublish "adk:agent:test-agent:approval"
           (approval_request ADKDemo.waiting_context (VStr "deploy")
              "2025-01-01T00:00:00");
         EBrpop "adk:agent:test-agent:approval:response" 1]
      /\ fst (_wait_for_approval ADKDemo.quiet ADKDemo.waiting_context (VStr "deploy")
                1 [])
         = After 1 (Ret (Failure (VStr "Approval timeout after 1s"))))
  /\ fst (_wait_for_approval ADKDemo.denying ADKDemo.waiting_context (VStr "deploy") 5 [])
     = After 2 (Ret (Failure (VStr "Not safe"))).
Proof.
  destruct (wait_for_approval_is_bounded_unless_timeout_is_zero ADKDemo.quiet
              ADKDemo.waiting_context (VStr "deploy") 0 []) as (_ & _ & Hz).
  destruct (Hz eq_refl) as (_ & _ & _ & _ & Hforever).
  destruct (wait_for_approval_is_bounded_unless_timeout_is_zero ADKDemo.quiet
              ADKDemo.waiting_context (VStr "deploy") 1 []) as (_ & _ & Hq).
  destruct (Hq eq_refl) as (Htrace & Htimeout & _).
  destruct (wait_for_approval_is_bounded_unless_timeout_is_zero ADKDemo.denying
              ADKDemo.waiting_context (VStr "deploy") 5 []) as (_ & _ & Hd).
  destruct (Hd eq_refl) as (_ & _ & _ & Hresp & _).
  split; [exact (Hforever eq_refl eq_refl)|].
  split; [split; [exact Htrace | exact (Htimeout eq_refl eq_refl)]|].
  apply (Hresp 2 "denial" ADKDemo.denial); [lia | right; lia | reflexivity | reflexivity].
Defined.

End ADKProps.

Module JobsProps.
Import Jobs.

(** Destruct the scrutinee of the first [match] or [if] of the goal. *)
Ltac break_match :=
  match goal with
  | |- context [match ?x with _ => _ end] => destruct x eqn:?
  end.

(** Case analysis on the next collaborator answer or test of a crawl job. *)
Ltac break_call :=
  match goal with
  | |- context [crawl_url ?C ?u ?d] => destruct (crawl_url C u d) as [[?|?]|?]
  | |- context [crawl_recursive ?C ?u ?d] => destruct (crawl_recursive C u d) as [?|?]
  | |- context [parse_content ?C ?a ?b ?c] =>
      destruct (parse_content C a b c) as [[?|?]|?]
  | |- context [process_content ?C ?a ?b ?c] =>
      destruct (process_content C a b c) as [[?|?]|?]
  | |- context [cache_content ?C ?a ?b ?c] =>
      destruct (cache_content C a b c) as [[?|?]|?]
  | |- context [Z.ltb ?a ?b] => destruct (Z.ltb a b)
  | |- context [truthy ?x] => destruct (truthy x)
  | |- context [set_of ?x] => destruct (set_of x)
  | |- context [add_to_queue ?C ?a ?b] => destruct (add_to_queue C a b) as [[?|?]|?]
  end.

(** Unfold the plumbing of the effect monad. *)
Ltac unfold_eff :=
  unfold try_except, mbind, M_bind, mret, M_ret, Eff.lift, Eff.gets, Eff.modify,
    Eff.raise, Eff.ask in *.

(** An explicit [max_depth] is stored in the crawler singleton and is still
    there when the job has returned. *)
Lemma crawl_url_job_sets_max_depth C url depth d p :
  crawler_max_depth (snd (crawl_url_job C url depth (Some d) p)) = d.
Proof.
  unfold crawl_url_job, set_max_depth, call. unfold_eff. cbn.
  repeat (break_call; cbn; try reflexivity).
Qed.

(** C6. What the code does: [crawl_url_job] called with an explicit
    [max_depth] leaves that value in the process-wide crawler, and a later
    call without [max_depth] decides on it whether to queue links.  In a
    fresh worker (limit 3) a crawl at depth 0 queues the page's two links;
    after one job run with [max_depth=0] the same crawl queues nothing. *)
Theorem max_depth_override_leaks_into_next_job :
  (forall C url depth d p,
     crawler_max_depth (snd (crawl_url_job C url depth (Some d) p)) = d)
  /\ queued (calls_of (crawl_url_job JobsDemo.site "https://b.com" 0 None) JobsDemo.fresh)
     = [([VStr "https://a.com/1"; VStr "https://a.com/2"], 1)]
  /\ queued (calls_of (crawl_url_job JobsDemo.site "https://b.com" 0 None)
               (snd (crawl_url_job JobsDemo.site "https://a.com" 0 (Some 0) JobsDemo.fresh)))
     = [].
Proof.
  split; [apply crawl_url_job_sets_max_depth|].
  split; vm_compute; reflexivity.
Qed.

End JobsProps.

Module JobResultProps.
Import PyFacts.

(** Close a goal about a literal job result. *)
Ltac shape_leaf :=
  cbn; split; [first [left; reflexivity | right; reflexivity] | reflexivity].

Lemma crawl_url_job_shape C url depth max_depth p :
  job_result_shape (fst (Jobs.crawl_url_job C url depth max_depth p)).
Proof.
  unfold Jobs.crawl_url_job, Jobs.set_max_depth, Jobs.call. JobsProps.unfold_eff.
  destruct max_depth; cbn; repeat (JobsProps.break_call; cbn); shape_leaf.
Qed.

Lemma digest_url_job_shape C url depth p :
  job_result_shape (fst (Jobs.digest_url_job C url depth p)).
Proof.
  unfold Jobs.digest_url_job. apply try_except_shape.
  - intros d s' H.
    apply bind_ret_inv in H as (results & s1 & _ & H).
    apply bind_ret_inv in H as (processed & s2 & _ & H).
    injection H as <- _. shape_leaf.
  - intros e s'. shape_leaf.
Qed.

Lemma process_binary_content_job_shape C url content content_type p :
  job_result_shape (fst (Jobs.process_binary_content_job C url content content_type p)).
Proof.
  unfold Jobs.process_binary_content_job, Jobs.call. JobsProps.unfold_eff.
  cbn; repeat (JobsProps.break_call; cbn); shape_leaf.
Qed.

Lemma cleanup_old_data_job_shape E max_age_days clean_failed clean_finished s :
  job_result_shape
    (fst (Cleanup.cleanup_old_data_job E max_age_days clean_failed clean_finished s)).
Proof.
  unfold Cleanup.cleanup_old_data_job. apply try_except_shape.
  - intros d s' H.
    repeat (apply bind_ret_inv in H as (? & ? & _ & H)).
    injection H as <- _. shape_leaf.
  - intros e s'. shape_leaf.
Qed.

Lemma multi_agent_coordination_job_shape C coordinator subs task strategy h :
  job_result_shape (fst (ADK.multi_agent_coordination_job C coordinator subs task strategy h)).
Proof.
  unfold ADK.multi_agent_coordination_job, ADK.current_job_id.
  unfold mbind at 1 2, M_bind at 1 2, Eff.gets, mret at 1, M_ret at 1.
  apply try_except_shape.
  - intros d s' H.
    apply bind_ret_inv in H as (coordinator_name & s1 & _ & H).
    destruct (String.eqb strategy "sequential").
    { apply bind_ret_inv in H as (? & ? & _ & H). injection H as <- _. shape_leaf. }
    destruct (String.eqb strategy "parallel").
    { apply bind_ret_inv in H as (? & ? & _ & H).
      apply bind_ret_inv in H as (? & ? & _ & H). injection H as <- _. shape_leaf. }
    destruct (String.eqb strategy "hierarchical").
    { apply bind_ret_inv in H as (? & ? & _ & H). injection H as <- _. shape_leaf. }
    discriminate.
  - intros e s'. shape_leaf.
Qed.

(** [_persist_context] turns every failure into a value. *)
Lemma persist_context_returns C context h :
  exists r h', ADK._persist_context C context h = (Ret r, h').
Proof.
  unfold ADK._persist_context, ADK.call. JobsProps.unfold_eff.
  destruct (ADK.redis_setex _ _ _ _ _) as [[]|e]; eauto.
Qed.

(** The body of [execute_agent] cannot raise, so the job result is always
    the success record. *)
Lemma execute_agent_shape C agent_config task context parent h :
  job_result_shape (fst (ADK.execute_agent C agent_config task context parent h)).
Proof.
  unfold ADK.execute_agent, ADK.current_job_id, try_except.
  unfold mbind, M_bind, Eff.gets, mret, M_ret. cbn beta iota.
  repeat match goal with
  | |- context [ADK._persist_context C ?c ?g] =>
      destruct (persist_context_returns C c g) as (? & ? & ->); cbn beta iota
  end.
  shape_leaf.
Qed.

Lemma adk_agent_job_shape C agent_config_dict task context parent h :
  is_Some (lookup "name" agent_config_dict) ->
  is_Some (lookup "description" agent_config_dict) ->
  ADK.RedisTracker_new C h = Ret tt ->
  job_result_shape (fst (ADK.adk_agent_job C agent_config_dict task context parent h)).
Proof.
  intros [n Hn] [d Hd] Ht.
  unfold ADK.adk_agent_job, subscript, ADK.call, mbind, M_bind, Eff.lift.
  rewrite Hn, Hd, Ht. apply execute_agent_shape.
Qed.

(** C1. What the code does: [crawl_url_job], [digest_url_job],
    [process_binary_content_job], [cleanup_old_data_job] and
    [multi_agent_coordination_job] return, for every input and whatever their
    collaborators answer or raise, a dictionary with [status] equal to
    [success] or [error] and with a [job_id]; so does [adk_agent_job] once
    its configuration has a [name] and a [description] and the tracker can
    be built.  But [adk_agent_job] reads [agent_config_dict["name"]] outside
    any [try]: on a configuration without [name] it raises [KeyError] past
    its boundary, before any store call. *)
Theorem job_results_have_status_and_job_id_but_adk_agent_job_raises :
  (forall C url depth max_depth p,
     job_result_shape (fst (Jobs.crawl_url_job C url depth max_depth p)))
  /\ (forall C url depth p,
        job_result_shape (fst (Jobs.digest_url_job C url depth p)))
  /\ (forall C url content content_type p,
        job_result_shape
          (fst (Jobs.process_binary_content_job C url content content_type p)))
  /\ (forall E max_age_days clean_failed clean_finished s,
        job_result_shape
          (fst (Cleanup.cleanup_old_data_job E max_age_days clean_failed clean_finished s)))
  /\ (forall C coordinator subs task strategy h,
        job_result_shape
          (fst (ADK.multi_agent_coordination_job C coordinator subs task strategy h)))
  /\ (forall C agent_config_dict task context parent h,
        is_Some (lookup "name" agent_config_dict) ->
        is_Some (lookup "description" agent_config_dict) ->
        ADK.RedisTracker_new C h = Ret tt ->
        job_result_shape
          (fst (ADK.adk_agent_job C agent_config_dict task context parent h)))
  /\ (forall C agent_config_dict task context parent h,
        lookup "name" agent_config_dict = None ->
        ADK.adk_agent_job C agent_config_dict task context parent h
        = (Raise (Exn "KeyError" "'name'"), h)
        /\ ~ job_result_shape
               (fst (ADK.adk_agent_job C agent_config_dict task context parent h))).
Proof.
  split; [exact crawl_url_job_shape|].
  split; [exact digest_url_job_shape|].
  split; [exact process_binary_content_job_shape|].
  split; [exact cleanup_old_data_job_shape|].
  split; [exact multi_agent_coordination_job_shape|].
  split; [exact adk_agent_job_shape|].
  intros C d task context parent h Hname.
  assert (Heq : ADK.adk_agent_job C d task context parent h
                = (Raise (Exn "KeyError" "'name'"), h)).
  { unfold ADK.adk_agent_job, subscript, mbind, M_bind, Eff.lift.
    rewrite Hname. reflexivity. }
  split; [exact Heq|]. rewrite Heq. cbn. tauto.
Qed.

(** A configuration with only a [description]: the job raises [KeyError]. *)
Lemma adk_agent_job_key_error_witness :
  ADK.adk_agent_job ADKDemo.quiet ADKDemo.nameless_config (VStr "Test task") VNone VNone []
  = (Raise (Exn "KeyError" "'name'"), [])
  /\ ~ job_result_shape
         (fst (ADK.adk_agent_job ADKDemo.quiet ADKDemo.nameless_config
                 (VStr "Test task") VNone VNone [])).
Proof.
  destruct job_results_have_status_and_job_id_but_adk_agent_job_raises
    as (_ & _ & _ & _ & _ & _ & Hraise).
  apply Hraise. reflexivity.
Defined.

End JobResultProps.

Module CleanupProps.
Import Cleanup PyFacts.

(** *** Relations that every step of a computation maintains *)

Section Frame.

Variable R : state -> state -> Prop.
Hypothesis R_refl : forall s, R s s.
Hypothesis R_trans : forall a b c, R a b -> R b c -> R a c.

Lemma preserves_ret {A} (a : A) : preserves R (mret a : M state A).
Proof. intros s. apply R_refl. Qed.

Lemma preserves_raise {A} (e : exn) : preserves R (@Eff.raise state A e).
Proof. intros s. apply R_refl. Qed.

Lemma preserves_lift {A} (o : outcome A) : preserves R (Eff.lift o).
Proof. intros s. apply R_refl. Qed.

Lemma preserves_gets {A} (f : state -> A) : preserves R (Eff.gets f).
Proof. intros s. apply R_refl. Qed.

Lemma preserves_ask {A} (f : state -> outcome A) : preserves R (Eff.ask f).
Proof. intros s. apply R_refl. Qed.

Lemma preserves_modify (f : state -> state) :
  (forall s, R s (f s)) -> preserves R (Eff.modify f).
Proof. intros H s. apply H. Qed.

Lemma preserves_bind {A B} (m : M state A) (f : A -> M state B) :
  preserves R m -> (forall a, preserves R (f a)) -> preserves R (m ≫= f).
Proof.
  intros Hm Hf s. unfold mbind, M_bind.
  specialize (Hm s). destruct (m s) as [[a|e] s1]; cbn in *.
  - eapply R_trans; [exact Hm | apply Hf].
  - exact Hm.
Qed.

Lemma preserves_try {A} (body : M state A) (handler : exn -> M state A) :
  preserves R body -> (forall e, preserves R (handler e)) -> preserves R (try_except body handler).
Proof.
  intros Hb Hh s. unfold try_except.
  specialize (Hb s). destruct (body s) as [[a|e] s1]; cbn in *.
  - exact Hb.
  - eapply R_trans; [exact Hb | apply Hh].
Qed.

End Frame.

(** *** Each phase returns normally *)

Lemma append_error_returns msg s : fst (append_error msg s) = Ret tt.
Proof. reflexivity. Qed.

Lemma try_append_error_returns (body : M state unit) (label : exn -> string) s :
  fst (try_except body (fun e => append_error (label e)) s) = Ret tt.
Proof. unfold try_except. destruct (body s) as [[[]|e] s1]; reflexivity. Qed.

Lemma clean_crawl_data_returns E cutoff s : fst (clean_crawl_data E cutoff s) = Ret tt.
Proof. apply try_append_error_returns. Qed.

Lemma clean_job_registries_returns E cutoff cf cff s :
  fst (clean_job_registries E cutoff cf cff s) = Ret tt.
Proof. apply try_append_error_returns. Qed.

Lemma check_stale_queues_returns E s : fst (check_stale_queues E s) = Ret tt.
Proof. apply try_append_error_returns. Qed.

Lemma clean_key_returns E cutoff key s : fst (clean_key E cutoff key s) = Ret tt.
Proof. apply try_append_error_returns. Qed.

Lemma clean_job_returns E cutoff kind queue j s :
  fst (clean_job E cutoff kind queue j s) = Ret tt.
Proof.
  unfold clean_job, try_except.
  match goal with |- context [match ?b s with _ => _ end] =>
    destruct (b s) as [[[]|e] s1] end; reflexivity.
Qed.

(** Sequencing after a computation that returns. *)
Lemma bind_returns {A} (m : M state unit) (k : M state A) s :
  fst (m s) = Ret tt -> (m;; k) s = k (snd (m s)).
Proof.
  unfold mbind, M_bind. destruct (m s) as [[[]|e] s1]; cbn; intros H;
    [reflexivity | discriminate].
Qed.

(** *** What a run can do to the crawl records *)

Lemma only_expired_deleted_refl E cutoff s : only_expired_deleted E cutoff s s.
Proof. intros k. now left. Qed.

Lemma only_expired_deleted_trans E cutoff a b c :
  only_expired_deleted E cutoff a b -> only_expired_deleted E cutoff b c ->
  only_expired_deleted E cutoff a c.
Proof.
  intros Hab Hbc k. destruct (Hbc k) as [Heq | (Hnone & data & Hb & Hold)].
  - rewrite Heq. apply Hab.
  - right. split; [exact Hnone|]. destruct (Hab k) as [Heq | (Hnone' & _)].
    + exists data. now rewrite <- Heq.
    + congruence.
Qed.







Section Sweep.

Variable E : Env.
Variable cutoff : datetime.

Let R := only_expired_deleted E cutoff.

Local Lemma R_refl s : R s s.
Proof. apply only_expired_deleted_refl. Qed.

Local Lemma R_trans a b c : R a b -> R b c -> R a c.
Proof. apply only_expired_deleted_trans. Qed.






End Sweep.

(** *** Phases 2 and 3 leave the crawl data alone *)












(** *** The sweep on a reliable store *)


Lemma clean_keys_returns E cutoff keys s : fst (clean_keys E cutoff keys s) = Ret tt.
Proof.
  revert s. induction keys as [|k keys IH]; intros s; cbn; [reflexivity|].
  rewrite bind_returns by apply clean_key_returns. apply IH.
Qed.

Section ReliableSweep.

Variable E : Env.
Variable cutoff : datetime.
Variable st0 : store.
Hypothesis no_get_fault : forall k, get_fault E k = None.
Hypothesis no_delete_fault : forall k, delete_fault E k = None.



Lemma use_redis_conn_bound s :
  redis_conn (snd s) = true -> use_redis_conn s = (Ret tt, s).
Proof.
  intros H. unfold use_redis_conn, mbind, M_bind, Eff.gets. cbn. now rewrite H.
Qed.

Lemma scan_loop_page cursor keys next s :
  redis_conn (snd s) = true ->
  scan_loop E cutoff (ScanPage cursor keys next) s
  = (if cursor =? 0 then mret tt else scan_loop E cutoff next)
      (snd (clean_keys E cutoff keys s)).
Proof.
  intros Hconn. cbn [scan_loop]. unfold mbind, M_bind.
  rewrite (use_redis_conn_bound _ Hconn). cbn [fst snd].
  pose proof (clean_keys_returns E cutoff keys s) as Hret.
  destruct (clean_keys E cutoff keys s) as [[[]|e] s1]; cbn in *;
    [reflexivity | discriminate].
Qed.



End ReliableSweep.


(** The job, once its set-up has succeeded: the three phases run one after
    the other and the result is the success record. *)
Lemma run_success E max_age_days cf cff st stats_before cutoff :
  import_rq_integration E = Ret tt ->
  get_stats E st = Ret stats_before ->
  cutoff_time (utcnow E) max_age_days = Ret cutoff ->
  let s1 := snd (clean_crawl_data E cutoff (st, initial_locals)) in
  let s2 := snd (clean_job_registries E cutoff cf cff s1) in
  let s3 := snd (check_stale_queues E s2) in
  forall stats_after, get_stats E (fst s3) = Ret stats_after ->
  run E max_age_days cf cff st
  = (Ret [ ("status", VStr "success");
           ("stats_before", stats_before);
           ("stats_after", stats_after);
           ("cleanup_results", VDict (cleanup_results (snd s3)));
           ("max_age_days", VInt max_age_days);
           ("job_id", VStr (match get_current_job E with
                            | Some id => id
                            | None => "local"
                            end)) ], s3).
Proof.
  intros Himp Hstats Hcut s1 s2 s3 stats_after Hafter.
  unfold run, cleanup_old_data_job, try_except.
  unfold mbind at 1 2 3 4, M_bind at 1 2 3 4, Eff.lift, Eff.ask, on_locals, Eff.modify.
  rewrite Himp. cbn [fst snd]. rewrite Hstats, Hcut.
  rewrite bind_returns by apply clean_crawl_data_returns. fold s1.
  rewrite bind_returns by apply clean_job_registries_returns. fold s2.
  rewrite bind_returns by apply check_stale_queues_returns. fold s3.
  unfold mbind, M_bind, Eff.gets, mret, M_ret. rewrite Hafter. reflexivity.
Qed.

(** *** The decision on one record *)

Lemma cutoff_time_naive now max_age_days cutoff :
  cutoff_time now max_age_days = Ret cutoff ->
  cutoff = naive (now - max_age_days * MICROS_PER_DAY).
Proof.
  unfold cutoff_time. destruct (_ || _); [discriminate|].
  destruct (_ >? _); [discriminate|].
  destruct (_ || _); [discriminate|]. now intros [= <-].
Qed.








(** A scan that fails after its first page: the old record was deleted, and
    yet [crawl_data_cleaned] is 0, because the counter is stored only once
    the loop has ended. *)
Lemma late_scan_failure_loses_the_count :
  crawl_records (fst (snd (run CleanupDemo.scan_fails_late 7 true true
                             CleanupDemo.two_records)))
    !! "crawl:url:old" = None
  /\ counter_of (fst (run CleanupDemo.scan_fails_late 7 true true CleanupDemo.two_records))
       "crawl_data_cleaned" = VInt 0
  /\ errors_of (fst (run CleanupDemo.scan_fails_late 7 true true CleanupDemo.two_records))
     = [VStr "Crawl data cleanup error: Redis connection lost"].
Proof. repeat split; vm_compute; reflexivity. Qed.

(** *** Errors are only ever appended *)

Lemma errors_grow_refl s : errors_grow s s.
Proof. split; [exists []; now rewrite app_nil_r | auto]. Qed.

Lemma errors_grow_trans a b c : errors_grow a b -> errors_grow b c -> errors_grow a c.
Proof.
  intros [[m1 H1] C1] [[m2 H2] C2]. split; [|auto].
  exists (m1 ++ m2). now rewrite H2, H1, app_assoc.
Qed.

Lemma on_locals_errors_grow f :
  (forall l, errors (f l) = errors l /\ (redis_conn l = true -> redis_conn (f l) = true)) ->
  preserves errors_grow (on_locals f).
Proof.
  intros H s. destruct (H (snd s)) as [He Hc]. split; [|exact Hc].
  exists []. cbn. now rewrite He, app_nil_r.
Qed.

Lemma on_store_errors_grow f : preserves errors_grow (on_store f).
Proof. intros s. split; [exists []; cbn; now rewrite app_nil_r | auto]. Qed.

Lemma append_error_errors_grow msg : preserves errors_grow (append_error msg).
Proof. intros s. split; [now exists [msg] | auto]. Qed.

(** Walk through a computation built from the primitives above. *)
Ltac grow :=
  repeat first
    [ apply preserves_ret; exact errors_grow_refl
    | apply preserves_raise; exact errors_grow_refl
    | apply preserves_lift; exact errors_grow_refl
    | apply preserves_gets; exact errors_grow_refl
    | apply preserves_ask; exact errors_grow_refl
    | apply append_error_errors_grow
    | apply on_store_errors_grow
    | apply on_locals_errors_grow; intros ?; split; [reflexivity | cbn; auto]
    | apply on_locals_errors_grow; intros ?;
      match goal with |- context [count_removed ?k _] => destruct k end;
      split; [reflexivity | cbn; auto]
    | assumption
    | apply preserves_bind; [exact errors_grow_trans | | intros ?]
    | apply preserves_try; [exact errors_grow_trans | | intros ?]
    | match goal with
      | |- preserves _ (match ?x with _ => _ end) => destruct x
      end ].

Lemma clean_key_errors_grow E cutoff key : preserves errors_grow (clean_key E cutoff key).
Proof. unfold clean_key, redis_get, redis_delete, use_redis_conn. grow. Qed.

Lemma clean_keys_errors_grow E cutoff keys : preserves errors_grow (clean_keys E cutoff keys).
Proof.
  induction keys as [|k keys IH]; cbn; [grow|].
  pose proof (clean_key_errors_grow E cutoff k). grow.
Qed.

Lemma scan_loop_errors_grow E cutoff replies :
  preserves errors_grow (scan_loop E cutoff replies).
Proof.
  induction replies as [keys|e|cursor keys next IH]; cbn [scan_loop];
    unfold use_redis_conn;
    (apply preserves_bind; [exact errors_grow_trans | grow | intros _]).
  - apply clean_keys_errors_grow.
  - grow.
  - apply preserves_bind;
      [exact errors_grow_trans | apply clean_keys_errors_grow | intros _].
    grow.
Qed.

Lemma clean_crawl_data_errors_grow E cutoff :
  preserves errors_grow (clean_crawl_data E cutoff).
Proof.
  unfold clean_crawl_data. pose proof (scan_loop_errors_grow E cutoff (scan_replies E)).
  grow.
Qed.

Lemma clean_job_errors_grow E cutoff kind queue j :
  preserves errors_grow (clean_job E cutoff kind queue j).
Proof. unfold clean_job, use_redis_conn. grow. Qed.

Lemma clean_jobs_errors_grow E cutoff kind queue ids :
  preserves errors_grow (clean_jobs E cutoff kind queue ids).
Proof.
  induction ids as [|j ids IH]; cbn; [grow|].
  pose proof (clean_job_errors_grow E cutoff kind queue j). grow.
Qed.

Lemma clean_queues_errors_grow E cutoff cf cff queues :
  preserves errors_grow (clean_queues E cutoff cf cff queues).
Proof.
  induction queues as [|q queues IH]; cbn; [grow|].
  apply preserves_bind; [exact errors_grow_trans | | intros _; exact IH].
  unfold clean_queue, list_registry.
  apply preserves_bind; [exact errors_grow_trans | | intros _].
  - destruct cf; [|grow].
    apply preserves_bind; [exact errors_grow_trans | grow | intros ids].
    destruct (0 <? _); [apply clean_jobs_errors_grow | grow].
  - destruct cff; [|grow].
    apply preserves_bind; [exact errors_grow_trans | grow | intros ids].
    apply clean_jobs_errors_grow.
Qed.

Lemma clean_job_registries_errors_grow E cutoff cf cff :
  preserves errors_grow (clean_job_registries E cutoff cf cff).
Proof.
  unfold clean_job_registries.
  apply preserves_try; [exact errors_grow_trans | | intros e; grow].
  apply preserves_bind; [exact errors_grow_trans | grow | intros queues].
  apply clean_queues_errors_grow.
Qed.

Lemma check_queues_errors_grow E names : preserves errors_grow (check_queues E names).
Proof.
  induction names as [|n names IH]; cbn; [grow|]. unfold use_redis_conn. grow.
Qed.

Lemma check_stale_queues_errors_grow E : preserves errors_grow (check_stale_queues E).
Proof.
  unfold check_stale_queues. pose proof (check_queues_errors_grow E ["default"; "high"; "low"]).
  grow.
Qed.

(** *** Failures and where they end up *)

Lemma connection_failure_recorded E cutoff s e :
  get_redis_connection E = Raise e ->
  clean_crawl_data E cutoff s
  = (Ret tt, (fst s, with_errors (snd s)
                       (errors (snd s) ++ ["Crawl data cleanup error: " +:+ exn_msg e]))).
Proof.
  intros H. unfold clean_crawl_data, try_except, mbind, M_bind, Eff.lift.
  rewrite H. reflexivity.
Qed.

(** A scan that fails raises out of the loop, after the pages before it. *)
Lemma scan_loop_fails E cutoff replies s e :
  redis_conn (snd s) = true ->
  scan_failure replies = Some e ->
  fst (scan_loop E cutoff replies s) = Raise e.
Proof.
  revert s. induction replies as [keys|e'|cursor keys next IH]; intros s Hconn Hf;
    cbn [scan_failure] in Hf.
  - discriminate.
  - injection Hf as ->. cbn [scan_loop]. unfold mbind, M_bind.
    now rewrite (use_redis_conn_bound _ Hconn).
  - rewrite (scan_loop_page _ _ _ _ _ _ Hconn).
    destruct (cursor =? 0); [discriminate|].
    apply IH; [|exact Hf]. apply (clean_keys_errors_grow E cutoff keys s). exact Hconn.
Qed.

Lemma scan_failure_recorded E cutoff s e :
  get_redis_connection E = Ret tt -> scan_failure (scan_replies E) = Some e ->
  exists key_errors,
    errors (snd (snd (clean_crawl_data E cutoff s)))
    = errors (snd s) ++ key_errors ++ ["Crawl data cleanup error: " +:+ exn_msg e].
Proof.
  intros Hc Hs.
  set (s0 := (fst s, with_crawl_cleaned (with_redis_conn (snd s)) 0) : state).
  assert (Hrun : clean_crawl_data E cutoff s
                 = append_error ("Crawl data cleanup error: " +:+ exn_msg e)
                     (snd (scan_loop E cutoff (scan_replies E) s0))).
  { unfold clean_crawl_data, try_except.
    unfold mbind at 1 2 3, M_bind at 1 2 3, Eff.lift, on_locals at 1 2, Eff.modify.
    rewrite Hc. cbn [fst snd]. fold s0.
    pose proof (scan_loop_fails E cutoff (scan_replies E) s0 e eq_refl Hs) as Hf.
    unfold mbind, M_bind.
    destruct (scan_loop E cutoff (scan_replies E) s0) as [[[]|e'] s1]; cbn in Hf;
      [discriminate|]. injection Hf as ->. reflexivity. }
  rewrite Hrun.
  destruct (scan_loop_errors_grow E cutoff (scan_replies E) s0) as [[more Hmore] _].
  exists more. cbn. rewrite Hmore. cbn. now rewrite <- app_assoc.
Qed.

(** Whatever fails on one crawl key is appended under the key's name, and
    the store is as it was. *)
Lemma key_failure_recorded E cutoff key s e :
  redis_conn (snd s) = true ->
  key_failure E cutoff (fst s) key = Some e ->
  clean_key E cutoff key s
  = (Ret tt, (fst s, with_errors (snd s)
                       (errors (snd s)
                        ++ ["Error processing " +:+ key +:+ ": " +:+ exn_msg e]))).
Proof.
  destruct s as [st l]. cbn [fst snd]. intros Hc H.
  unfold key_failure in H.
  unfold clean_key, redis_get, redis_delete, use_redis_conn, append_error,
    on_locals, on_store.
  unfold try_except, mbind, M_bind, mret, M_ret, Eff.gets, Eff.modify, Eff.raise, Eff.lift.
  cbn. rewrite Hc. cbn.
  destruct (get_fault E key) as [e0|]; cbn.
  { injection H as ->. reflexivity. }
  destruct (crawl_records st !! key) as [text|]; cbn; [|discriminate].
  destruct (negb (String.eqb text "")); cbn; [|discriminate].
  destruct (expired E cutoff text) as [[|]|e0]; cbn.
  - rewrite Hc. cbn. rewrite H. reflexivity.
  - discriminate.
  - injection H as ->. reflexivity.
Qed.

(** Whatever goes wrong with one job of a registry is swallowed: the errors
    list is as it was. *)
Lemma clean_job_errors_unchanged E cutoff kind queue j s :
  errors (snd (snd (clean_job E cutoff kind queue j s))) = errors (snd s).
Proof.
  destruct s as [st l].
  unfold clean_job, use_redis_conn, try_except, mbind, M_bind, mret, M_ret,
    Eff.gets, Eff.lift, Eff.raise, on_store, on_locals, Eff.modify.
  cbn. destruct (redis_conn l); cbn; [|reflexivity].
  destruct (job_fetch E j) as [[t|]|e]; cbn; try reflexivity.
  destruct (dt_lt t cutoff) as [[|]|e]; cbn; try reflexivity.
  destruct (remove_fault E j); cbn; [reflexivity|].
  destruct kind; reflexivity.
Qed.

(** An exception on one job of a registry leaves no trace at all. *)
Lemma job_failure_dropped E cutoff kind queue j s e :
  redis_conn (snd s) = true ->
  job_failure E cutoff j = Some e ->
  clean_job E cutoff kind queue j s = (Ret tt, s).
Proof.
  destruct s as [st l]. cbn [fst snd]. intros Hc H. unfold job_failure in H.
  unfold clean_job, use_redis_conn, try_except, mbind, M_bind, mret, M_ret,
    Eff.gets, Eff.lift, Eff.raise, on_store, on_locals, Eff.modify.
  cbn. rewrite Hc. cbn.
  destruct (job_fetch E j) as [[t|]|e0]; cbn; [|discriminate|reflexivity].
  destruct (dt_lt t cutoff) as [[|]|e0]; cbn; [|discriminate|reflexivity].
  destruct (remove_fault E j); [reflexivity | discriminate].
Qed.

Lemma clean_jobs_quiet E cutoff kind queue ids s :
  fst (clean_jobs E cutoff kind queue ids s) = Ret tt
  /\ errors (snd (snd (clean_jobs E cutoff kind queue ids s))) = errors (snd s).
Proof.
  revert s. induction ids as [|j ids IH]; intros s; cbn [clean_jobs].
  - split; reflexivity.
  - rewrite bind_returns by apply clean_job_returns.
    destruct (IH (snd (clean_job E cutoff kind queue j s))) as [Hr He].
    split; [exact Hr|]. rewrite He. apply clean_job_errors_unchanged.
Qed.

Lemma seq_run {A B} (m : M state A) (k : A -> M state B) s :
  (m ≫= k) s
  = match m s with
    | (Ret a, s1) => k a s1
    | (Raise e, s1) => (Raise e, s1)
    end.
Proof. reflexivity. Qed.

Lemma list_registry_eq E kind queue s :
  list_registry E kind queue s
  = match registry_fault E kind queue with
    | Some e => (Raise e, s)
    | None => (Ret (job_ids kind queue (fst s)), s)
    end.
Proof. unfold list_registry. destruct (registry_fault E kind queue); reflexivity. Qed.

(** One queue: the listing failure, if any, comes out; the errors list is
    as it was. *)
Lemma clean_queue_outcome E cutoff cf cff q s :
  fst (clean_queue E cutoff cf cff q s)
  = match queue_listing_failure E cf cff q with
    | Some e => Raise e
    | None => Ret tt
    end
  /\ errors (snd (snd (clean_queue E cutoff cf cff q s))) = errors (snd s).
Proof.
  unfold clean_queue, queue_listing_failure.
  assert (Hfailed : forall s0,
    let r := (if cf then
                failed_jobs ← list_registry E FailedJobs q;
                if (0 <? Z.of_nat (length failed_jobs)) then
                  clean_jobs E cutoff FailedJobs q failed_jobs
                else mret tt
              else mret tt) s0 in
    fst r = match (if cf then registry_fault E FailedJobs q else None) with
            | Some e => Raise e
            | None => Ret tt
            end
    /\ errors (snd (snd r)) = errors (snd s0)).
  { intros s0. destruct cf; [|split; reflexivity].
    unfold mbind, M_bind. rewrite list_registry_eq.
    destruct (registry_fault E FailedJobs q); [split; reflexivity|].
    destruct (0 <? _); [apply clean_jobs_quiet | split; reflexivity]. }
  assert (Hfinished : forall s0,
    let r := (if cff then
                finished_jobs ← list_registry E FinishedJobs q;
                clean_jobs E cutoff FinishedJobs q finished_jobs
              else mret tt) s0 in
    fst r = match (if cff then registry_fault E FinishedJobs q else None) with
            | Some e => Raise e
            | None => Ret tt
            end
    /\ errors (snd (snd r)) = errors (snd s0)).
  { intros s0. destruct cff; [|split; reflexivity].
    unfold mbind, M_bind. rewrite list_registry_eq.
    destruct (registry_fault E FinishedJobs q); [split; reflexivity|].
    apply clean_jobs_quiet. }
  cbv zeta in Hfailed, Hfinished.
  destruct (Hfailed s) as [Hr1 He1].
  rewrite (seq_run (if cf then _ else _) _ s).
  match goal with
  | |- context [match ?m s with _ => _ end] => destruct (m s) as [[[]|e1] s1]
  end; cbn [fst snd] in *.
  - destruct (if cf then registry_fault E FailedJobs q else None); [discriminate|].
    destruct (Hfinished s1) as [Hr2 He2].
    split; [|etransitivity; [exact He2 | exact He1]].
    rewrite Hr2. destruct (if cff then registry_fault E FinishedJobs q else None);
      reflexivity.
  - destruct (if cf then registry_fault E FailedJobs q else None); [|discriminate].
    split; [exact Hr1 | exact He1].
Qed.

Lemma clean_queues_outcome E cutoff cf cff queues s :
  fst (clean_queues E cutoff cf cff queues s)
  = match listing_failure E cf cff queues with
    | Some e => Raise e
    | None => Ret tt
    end
  /\ errors (snd (snd (clean_queues E cutoff cf cff queues s))) = errors (snd s).
Proof.
  revert s. induction queues as [|q queues IH]; intros s;
    cbn [clean_queues listing_failure].
  - split; reflexivity.
  - destruct (clean_queue_outcome E cutoff cf cff q s) as [Hr He].
    unfold mbind, M_bind.
    destruct (clean_queue E cutoff cf cff q s) as [[[]|e1] s1]; cbn [fst snd] in *.
    + destruct (queue_listing_failure E cf cff q); [discriminate|].
      destruct (IH s1) as [Hr' He']. split; [exact Hr' | congruence].
    + destruct (queue_listing_failure E cf cff q); [|discriminate].
      split; [exact Hr | exact He].
Qed.

(** A failure that ends the registry phase is appended under its label. *)
Lemma registry_phase_failure_recorded E cutoff cf cff s e :
  registry_phase_failure E cf cff = Some e ->
  errors (snd (snd (clean_job_registries E cutoff cf cff s)))
  = errors (snd s) ++ ["Job registry cleanup error: " +:+ exn_msg e].
Proof.
  unfold registry_phase_failure, clean_job_registries, try_except.
  unfold mbind, M_bind, Eff.lift.
  destruct (get_all_queues E) as [queues|e0]; intros H.
  - destruct (clean_queues_outcome E cutoff cf cff queues s) as [Hr He].
    rewrite H in Hr.
    destruct (clean_queues E cutoff cf cff queues s) as [[[]|e1] s1];
      cbn [fst snd] in *; [discriminate|].
    injection Hr as ->. cbn. now rewrite He.
  - injection H as ->. reflexivity.
Qed.

(** The queue phase: the first [SCARD] that fails comes out; the local
    variables are as they were. *)
Lemma check_queues_outcome E names s :
  redis_conn (snd s) = true ->
  fst (check_queues E names s)
  = match scard_failure E names with
    | Some e => Raise e
    | None => Ret tt
    end
  /\ snd (snd (check_queues E names s)) = snd s.
Proof.
  revert s. induction names as [|n names IH]; intros s Hc;
    cbn [check_queues scard_failure].
  - split; reflexivity.
  - rewrite (seq_run use_redis_conn _ s), (use_redis_conn_bound _ Hc).
    rewrite seq_run. unfold Eff.lift.
    destruct (scard E ("crawl:queue:" +:+ n)) as [size|e]; [|split; reflexivity].
    rewrite seq_run.
    destruct (1000 <? size); unfold on_store, Eff.modify, mret, M_ret; cbn [fst snd];
      match goal with
      | |- context [check_queues E names ?s'] => destruct (IH s' Hc) as [Hr Hl]
      end; (split; [exact Hr | exact Hl]).
Qed.

Lemma scard_failure_recorded E s e :
  redis_conn (snd s) = true ->
  scard_failure E ["default"; "high"; "low"] = Some e ->
  errors (snd (snd (check_stale_queues E s)))
  = errors (snd s) ++ ["Queue cleanup error: " +:+ exn_msg e].
Proof.
  intros Hc H. unfold check_stale_queues, try_except.
  destruct (check_queues_outcome E ["default"; "high"; "low"] s Hc) as [Hr Hl].
  rewrite H in Hr.
  destruct (check_queues E ["default"; "high"; "low"] s) as [[[]|e1] s1];
    cbn [fst snd] in *; [discriminate|].
  injection Hr as ->. cbn. now rewrite Hl.
Qed.

Lemma connection_stays E cutoff s :
  get_redis_connection E = Ret tt ->
  redis_conn (snd (snd (clean_crawl_data E cutoff s))) = true.
Proof.
  intros Hc. unfold clean_crawl_data, try_except.
  unfold mbind at 1 2, M_bind at 1 2, Eff.lift, on_locals at 1, Eff.modify.
  rewrite Hc.
  match goal with |- context [?m (s.1, with_redis_conn s.2)] =>
    assert (Hm : preserves errors_grow m)
  end.
  { pose proof (scan_loop_errors_grow E cutoff (scan_replies E)). grow. }
  match goal with |- context [?m (s.1, with_redis_conn s.2)] =>
    destruct (Hm (s.1, with_redis_conn s.2)) as [_ Hconn];
    destruct (m (s.1, with_redis_conn s.2)) as [[[]|e] s1]
  end; cbn in *; auto.
Qed.

(** C8.  What the code does.  When the job's set-up outside the phases
    succeeds, all three phases run in turn, each returning normally whatever
    its collaborators raise, and the job reports [success] with the errors
    gathered on the way, which are only ever appended to.  Every failure that
    ends a phase is appended to [errors] under the phase's label (no
    connection or a failing [SCAN] on any page; [get_all_queues] or the
    listing of any registry failing; any of the three [SCARD] calls failing),
    and whatever fails on one crawl key (its [GET], its decoding, its
    [DELETE]) is appended under the key's name without ending the sweep.  But
    whatever fails on one job of a registry ([Job.fetch], the comparison or
    [remove]) is dropped: the job is skipped and nothing is appended. *)
Theorem cleanup_failures_are_recorded_except_on_registry_jobs
    E max_age_days cf cff st cutoff :
  cutoff_time (utcnow E) max_age_days = Ret cutoff ->
  import_rq_integration E = Ret tt ->
  (forall st, is_ret (get_stats E st) = true) ->
  let s1 := snd (clean_crawl_data E cutoff (st, initial_locals)) in
  let s2 := snd (clean_job_registries E cutoff cf cff s1) in
  let s3 := snd (check_stale_queues E s2) in
  let result := run E max_age_days cf cff st in
  (forall s, fst (clean_crawl_data E cutoff s) = Ret tt
             /\ fst (clean_job_registries E cutoff cf cff s) = Ret tt
             /\ fst (check_stale_queues E s) = Ret tt)
  /\ snd result = s3
  /\ (exists d, fst result = Ret d /\ Py.get d "status" = VStr "success")
  /\ errors_of (fst result) = map VStr (errors (snd s3))
  /\ errors_grow (st, initial_locals) s1 /\ errors_grow s1 s2 /\ errors_grow s2 s3
  /\ (forall s e, get_redis_connection E = Raise e ->
        errors (snd (snd (clean_crawl_data E cutoff s)))
        = errors (snd s) ++ ["Crawl data cleanup error: " +:+ exn_msg e])
  /\ (forall s e,
        get_redis_connection E = Ret tt -> scan_failure (scan_replies E) = Some e ->
        exists key_errors,
          errors (snd (snd (clean_crawl_data E cutoff s)))
          = errors (snd s) ++ key_errors ++ ["Crawl data cleanup error: " +:+ exn_msg e])
  /\ (forall s key e,
        redis_conn (snd s) = true -> key_failure E cutoff (fst s) key = Some e ->
        clean_key E cutoff key s
        = (Ret tt, (fst s, with_errors (snd s)
                             (errors (snd s)
                              ++ ["Error processing " +:+ key +:+ ": " +:+ exn_msg e]))))
  /\ (forall s e, registry_phase_failure E cf cff = Some e ->
        errors (snd (snd (clean_job_registries E cutoff cf cff s)))
        = errors (snd s) ++ ["Job registry cleanup error: " +:+ exn_msg e])
  /\ (forall s e,
        redis_conn (snd s) = true ->
        scard_failure E ["default"; "high"; "low"] = Some e ->
        errors (snd (snd (check_stale_queues E s)))
        = errors (snd s) ++ ["Queue cleanup error: " +:+ exn_msg e])
  /\ (forall s kind queue j e,
        redis_conn (snd s) = true -> job_failure E cutoff j = Some e ->
        clean_job E cutoff kind queue j s = (Ret tt, s))
  /\ (forall s kind queue j,
        fst (clean_job E cutoff kind queue j s) = Ret tt
        /\ errors (snd (snd (clean_job E cutoff kind queue j s))) = errors (snd s)).
Proof.
  intros Hcut Himp Hstats s1 s2 s3 result.
  destruct (get_stats E st) as [before|] eqn:Hb;
    [|specialize (Hstats st); rewrite Hb in Hstats; discriminate].
  destruct (get_stats E (fst s3)) as [after|] eqn:Ha;
    [|specialize (Hstats (fst s3)); rewrite Ha in Hstats; discriminate].
  assert (Hrun : result = _) by
    exact (run_success E max_age_days cf cff st before cutoff Himp Hb Hcut after Ha).
  fold s1 s2 s3 in Hrun.
  split.
  { intros s. split; [apply clean_crawl_data_returns|].
    split; [apply clean_job_registries_returns | apply check_stale_queues_returns]. }
  split; [rewrite Hrun; reflexivity|].
  split; [rewrite Hrun; eexists; split; reflexivity|].
  split; [rewrite Hrun; reflexivity|].
  split; [apply clean_crawl_data_errors_grow|].
  split; [apply clean_job_registries_errors_grow|].
  split; [apply check_stale_queues_errors_grow|].
  split; [intros s e H; now rewrite (connection_failure_recorded _ _ _ _ H)|].
  split; [intros s e; apply scan_failure_recorded|].
  split; [intros s key e; apply key_failure_recorded|].
  split; [intros s e; apply registry_phase_failure_recorded|].
  split; [intros s e; apply scard_failure_recorded|].
  split; [intros s kind queue j e; apply job_failure_dropped|].
  intros s kind queue j.
  split; [apply clean_job_returns | apply clean_job_errors_unchanged].
Qed.

(** The failing input: the failed job of the demo ended twenty days ago and
    is due for removal, and removing it raises.  The job reports [success]
    with an empty [errors] list; the failed job is still in its registry and
    nothing was counted. *)
Lemma cleanup_remove_failure_witness :
  job_failure CleanupDemo.remove_fails (naive (CleanupDemo.now - 7 * MICROS_PER_DAY))
    "failed-1"
  = Some (Exn "ConnectionError" "Connection reset by peer")
  /\ (exists d, fst (run CleanupDemo.remove_fails 7 true true CleanupDemo.two_records)
                = Ret d
                /\ Py.get d "status" = VStr "success")
  /\ errors_of (fst (run CleanupDemo.remove_fails 7 true true CleanupDemo.two_records))
     = []
  /\ counter_of (fst (run CleanupDemo.remove_fails 7 true true CleanupDemo.two_records))
       "failed_jobs_cleaned" = VInt 0
  /\ job_ids FailedJobs "default"
       (fst (snd (run CleanupDemo.remove_fails 7 true true CleanupDemo.two_records)))
     = ["failed-1"].
Proof.
  destruct (cleanup_failures_are_recorded_except_on_registry_jobs CleanupDemo.remove_fails
              7 true true CleanupDemo.two_records
              (naive (CleanupDemo.now - 7 * MICROS_PER_DAY))
              eq_refl eq_refl (fun _ => eq_refl))
    as (_ & _ & Hstatus & Herrors & _).
  split; [reflexivity|].
  split; [exact Hstatus|].
  split; [rewrite Herrors|]; [vm_compute; reflexivity|].
  split; vm_compute; reflexivity.
Defined.

(** A lost connection during the scan: the job still reports [success],
    with the failure in [errors], and the later phases have run (the failed
    job of queue [default] is removed from its registry). *)
Lemma scan_failure_is_recorded_and_later_phases_run :
  errors_of (fst (run CleanupDemo.scan_fails 7 true true CleanupDemo.two_records))
  = [VStr "Crawl data cleanup error: Redis connection lost"]
  /\ counter_of (fst (run CleanupDemo.scan_fails 7 true true CleanupDemo.two_records))
       "failed_jobs_cleaned" = VInt 1.
Proof. split; vm_compute; reflexivity. Qed.

(** When the connection itself cannot be had, [redis_conn] is never
    assigned: the registry phase then removes nothing (every fetch fails on
    the unassigned variable and is swallowed) and the queue phase fails on
    its first [SCARD]. *)
Lemma unassigned_connection_reaches_later_phases :
  errors_of (fst (run CleanupDemo.no_connection 7 true true CleanupDemo.two_records))
  = [ VStr "Crawl data cleanup error: Connection refused";
      VStr ("Queue cleanup error: cannot access local variable 'redis_conn' "
            +:+ "where it is not associated with a value") ]
  /\ counter_of (fst (run CleanupDemo.no_connection 7 true true CleanupDemo.two_records))
       "failed_jobs_cleaned" = VInt 0
  /\ counter_of (fst (run CleanupDemo.healthy 7 true true CleanupDemo.two_records))
       "failed_jobs_cleaned" = VInt 1.
Proof. repeat split; vm_compute; reflexivity. Qed.

End CleanupProps.

(* ===================================================================== *)
(** * Further properties of the modelled code *)
(* ===================================================================== *)

Module FramesFacts.
Import Frames.

Section Keeps.

Context {S : Type}.
Variable R : S -> S -> Prop.
Hypothesis R_refl : forall s, R s s.
Hypothesis R_trans : forall a b c, R a b -> R b c -> R a c.

Lemma keeps_ret {A} (a : A) : keeps R (mret a : M S A).
Proof. intros s. apply R_refl. Qed.

Lemma keeps_raise {A} (e : exn) : keeps R (@Eff.raise S A e).
Proof. intros s. apply R_refl. Qed.

Lemma keeps_lift {A} (o : outcome A) : keeps R (@Eff.lift S A o).
Proof. intros s. apply R_refl. Qed.

Lemma keeps_gets {A} (f : S -> A) : keeps R (Eff.gets f).
Proof. intros s. apply R_refl. Qed.

Lemma keeps_ask {A} (f : S -> outcome A) : keeps R (Eff.ask f).
Proof. intros s. apply R_refl. Qed.

Lemma keeps_bind {A B} (m : M S A) (f : A -> M S B) :
  keeps R m -> (forall a, keeps R (f a)) -> keeps R (m ≫= f).
Proof.
  intros Hm Hf s. unfold mbind, M_bind.
  specialize (Hm s). destruct (m s) as [[a|e] s1]; cbn in *.
  - eapply R_trans; [exact Hm | apply Hf].
  - exact Hm.
Qed.

Lemma keeps_try {A} (body : M S A) (handler : exn -> M S A) :
  keeps R body -> (forall e, keeps R (handler e)) -> keeps R (try_except body handler).
Proof.
  intros Hb Hh s. unfold try_except.
  specialize (Hb s). destruct (body s) as [[a|e] s1]; cbn in *.
  - exact Hb.
  - eapply R_trans; [exact Hb | apply Hh].
Qed.

Lemma keeps_finally {A} (body : M S A) (cleanup : M S unit) :
  keeps R body -> keeps R cleanup -> keeps R (try_finally body cleanup).
Proof.
  intros Hb Hc s. unfold try_finally.
  specialize (Hb s). destruct (body s) as [r s1]. specialize (Hc s1).
  destruct (cleanup s1) as [[[]|e] s2]; cbn in *; eapply R_trans; eassumption.
Qed.

End Keeps.

Lemma extends_refl {A} (l : list A) : extends l l.
Proof. exists []. now rewrite app_nil_r. Qed.

Lemma extends_trans {A} (a b c : list A) : extends a b -> extends b c -> extends a c.
Proof. intros [m1 ->] [m2 ->]. exists (m1 ++ m2). now rewrite app_assoc. Qed.

Lemma extends_snoc {A} (l : list A) x : extends l (l ++ [x]).
Proof. now exists [x]. Qed.


Lemma keeps_modify {S} (R : S -> S -> Prop) (f : S -> S) :
  (forall s, R s (f s)) -> keeps R (Eff.modify f).
Proof. intros H s. apply H. Qed.

(** Binding the answer of a collaborator: the continuation knows the answer. *)
Lemma keeps_bind_lift {S A B} (R : S -> S -> Prop) (o : outcome A) (f : A -> M S B) :
  (forall s, R s s) ->
  (forall a, o = Ret a -> keeps R (f a)) -> keeps R (Eff.lift o ≫= f).
Proof.
  intros Hrefl Hf s. unfold mbind, M_bind, Eff.lift.
  destruct o as [a|e]; cbn; [now apply Hf | apply Hrefl].
Qed.

End FramesFacts.

Module K0mmand3rExtra.
Import K0mmand3r K0mmand3rProps Frames FramesFacts.

(** *** The severity filter *)

(** X1. The filter modes are nested: what [critical] lets through [compact]
    lets through, what [compact] lets through [verbose] does, and what
    [verbose] lets through [debug] does; [error] and [fatal] pass in every
    mode, known or not. *)
Theorem filter_modes_are_nested (level mode : string) :
  (_should_publish "critical" level = true -> _should_publish "compact" level = true)
  /\ (_should_publish "compact" level = true -> _should_publish "verbose" level = true)
  /\ (_should_publish "verbose" level = true -> _should_publish "debug" level = true)
  /\ _should_publish mode "error" = true
  /\ _should_publish mode "fatal" = true.
Proof.
  split; [|split; [|split; [|split]]].
  - rewrite !should_publish_allowed. cbn. tauto.
  - rewrite !should_publish_allowed. cbn. tauto.
  - rewrite !should_publish_allowed. cbn. tauto.
  - apply error_level_always_allowed.
  - unfold _should_publish, allowed_levels, STATUS_LEVELS. simpl.
    repeat match goal with
    | |- context [String.eqb mode ?s] => destruct (String.eqb mode s); [reflexivity|]
    end.
    reflexivity.
Qed.

Lemma filter_modes_witness :
  _should_publish "verbose" "info" = true.
Proof.
  destruct (filter_modes_are_nested "info" "verbose") as (_ & H & _).
  apply H. reflexivity.
Defined.

(** *** Publishing *)

(** What [_publish_result] can do to the status channel. *)
Lemma publish_result_cases C channel mode result level h :
  published (snd (_publish_result C channel mode result level h)) = published h
  \/ exists msg,
       status_message_of C (utcnow_isoformat C h) result level = Ret msg
       /\ _should_publish mode level = true
       /\ redis_publish C h (channel +:+ ":status") msg = Ret tt
       /\ published (snd (_publish_result C channel mode result level h))
          = published h ++ [(channel +:+ ":status", msg)].
Proof.
  destruct (_should_publish mode level) eqn:Hf.
  2:{ left. rewrite publish_result_filtered by assumption. cbn.
      rewrite published_app. cbn. apply app_nil_r. }
  destruct (status_message_of C (utcnow_isoformat C h) result level) as [msg|e] eqn:Hm.
  2:{ left. unfold _publish_result, try_except. rewrite Hf. cbn.
      unfold mbind, M_bind, Eff.gets, Eff.lift. cbn. rewrite Hm. cbn.
      rewrite published_app. cbn. apply app_nil_r. }
  destruct (redis_publish C h (channel +:+ ":status") msg) as [[]|e] eqn:Hp.
  - right. exists msg. rewrite (publish_result_delivered _ _ _ _ _ _ msg) by assumption.
    cbn. rewrite published_app. auto.
  - left. unfold _publish_result, try_except. rewrite Hf. cbn.
    unfold mbind, M_bind, Eff.gets, Eff.lift, publish. cbn. rewrite Hm. cbn.
    rewrite Hp. cbn. rewrite !published_app. cbn. now rewrite !app_nil_r.
Qed.

Lemma status_message_level C now result level msg :
  status_message_of C now result level = Ret msg -> Py.get msg "level" = VStr level.
Proof.
  unfold status_message_of. intros Hm.
  destruct (contains _ _) as [[|]|]; try discriminate.
  - destruct (item _ _) as [p|]; try discriminate. injection Hm as <-. reflexivity.
  - injection Hm as <-. reflexivity.
Qed.

(** X2. [_publish_result] never raises and puts at most one message on the
    status channel; a message it publishes goes to [<channel>:status],
    carries the level it was given, and that level passes the filter. *)
Theorem publish_result_publishes_at_most_once C channel mode result level h :
  fst (_publish_result C channel mode result level h) = Ret tt
  /\ (published (snd (_publish_result C channel mode result level h)) = published h
      \/ exists msg,
           published (snd (_publish_result C channel mode result level h))
           = published h ++ [(channel +:+ ":status", msg)]
           /\ Py.get msg "level" = VStr level
           /\ _should_publish mode level = true).
Proof.
  split; [apply publish_result_returns|].
  destruct (publish_result_cases C channel mode result level h)
    as [Hsame | (msg & Hm & Hf & _ & Hpub)]; [now left|].
  right. exists msg. split; [exact Hpub|]. split; [|exact Hf].
  eapply status_message_level; eassumption.
Qed.

(** X3. The status message built for a result whose metadata is a
    dictionary: it carries the timestamp with a [Z], the given level and the
    metadata itself, and it has a [progress] entry exactly when the metadata
    has one, with the same value.  A result whose metadata is [None], a
    boolean or a number cannot be formatted, and [_publish_result] then publishes
    nothing, whatever the level. *)
Theorem status_message_carries_progress C now result level :
  (forall md,
     get_default result "metadata" (VDict []) = VDict md ->
     exists msg,
       status_message_of C now result level = Ret msg
       /\ Py.lookup "progress" msg = Py.lookup "progress" md
       /\ Py.get msg "metadata" = VDict md
       /\ Py.get msg "level" = VStr level
       /\ Py.get msg "timestamp" = VStr (now +:+ "Z")
       /\ Py.get msg "type"
          = VStr (if truthy (Py.get result "error") then "error" else "progress"))
  /\ (forall channel mode h,
        match get_default result "metadata" (VDict []) with
        | VNone | VBool _ | VInt _ | VFloat _ _ => True
        | _ => False
        end ->
        published (snd (_publish_result C channel mode result level h)) = published h).
Proof.
  split.
  - intros md Hmd. unfold status_message_of. rewrite Hmd. cbn [contains item].
    unfold mem, subscript. destruct (Py.lookup "progress" md) as [p|] eqn:Hp.
    + eexists. split; [reflexivity|]. cbn. repeat split; reflexivity.
    + eexists. split; [reflexivity|]. cbn. repeat split; reflexivity.
  - intros channel mode h Hmd.
    destruct (publish_result_cases C channel mode result level h)
      as [Hsame | (msg & Hm & _)]; [exact Hsame|].
    exfalso. unfold status_message_of in Hm.
    destruct (get_default result "metadata" (VDict []));
      cbn in Hm; try discriminate; contradiction.
Qed.

(** A result dumped with [metadata: None] is dropped even at level [error]. *)
Lemma status_message_witness :
  (exists msg,
     status_message_of RouterDemo.demo "2025-01-01T00:00:00"
       [ ("output", VStr "half way"); ("metadata", VDict [ ("progress", VInt 50) ]) ]
       "info" = Ret msg
     /\ Py.lookup "progress" msg = Some (VInt 50))
  /\ published (snd (_publish_result RouterDemo.demo "b00t:langchain" "debug"
                       [ ("error", VStr "boom"); ("metadata", VNone) ] "error" []))
     = [].
Proof.
  destruct (status_message_carries_progress RouterDemo.demo "2025-01-01T00:00:00"
              [ ("output", VStr "half way"); ("metadata", VDict [ ("progress", VInt 50) ]) ]
              "info") as (Hfmt & _).
  destruct (status_message_carries_progress RouterDemo.demo "2025-01-01T00:00:00"
              [ ("error", VStr "boom"); ("metadata", VNone) ] "error") as (_ & Hdrop).
  split.
  - destruct (Hfmt [ ("progress", VInt 50) ] eq_refl) as (msg & Hm & Hp & _).
    exists msg. split; [exact Hm | exact Hp].
  - apply (Hdrop "b00t:langchain" "debug" []). exact I.
Defined.

(** *** Verb mapping and routing *)

Lemma handle_agent_command_returns C channel mode m h :
  fst (_handle_agent_command C channel mode m h) = Ret tt.
Proof.
  unfold _handle_agent_command, try_except.
  match goal with |- context [match ?b h with _ => _ end] =>
    destruct (b h) as [[[]|e] h'] end; [reflexivity|].
  unfold mbind, M_bind, log, emit, Eff.modify. cbn [fst snd].
  apply publish_result_returns.
Qed.

Lemma handle_chain_command_returns C channel mode m h :
  fst (_handle_chain_command C channel mode m h) = Ret tt.
Proof.
  unfold _handle_chain_command, try_except.
  match goal with |- context [match ?b h with _ => _ end] =>
    destruct (b h) as [[[]|e] h'] end; [reflexivity|].
  unfold mbind, M_bind, log, emit, Eff.modify. cbn [fst snd].
  apply publish_result_returns.
Qed.

(** A message that was accepted is accepted again once the action has been
    written into its parameters, and only the action differs. *)
Lemma set_action_revalidates d m action :
  K0mmand3rMessage_new (VDict d) = Ret m ->
  exists d',
    set_action d action = Ret d'
    /\ K0mmand3rMessage_new (VDict d')
       = Ret {| verb := verb m; params := Py.set "action" (VStr action) (params m);
                content := content m; agent_id := agent_id m |}.
Proof.
  unfold K0mmand3rMessage_new, set_action, optional_str, mem, Py.get, get_default.
  destruct (Py.lookup "verb" d) as [[| | | |v| |]|] eqn:Hverb; try discriminate.
  destruct (Py.lookup "params" d) as [p|] eqn:Hparams.
  - rewrite Hparams.
    destruct p as [| | | | | |ps]; try discriminate.
    destruct (Py.lookup "content" d) as [[| | | |c| |]|] eqn:Hc; try discriminate;
      destruct (Py.lookup "agent_id" d) as [[| | | |a| |]|] eqn:Ha; try discriminate;
      intros [= <-]; eexists; (split; [reflexivity|]);
      rewrite ?(PyFacts.lookup_set_ne "params" "verb"),
        ?(PyFacts.lookup_set_ne "params" "content"),
        ?(PyFacts.lookup_set_ne "params" "agent_id") by discriminate;
      rewrite PyFacts.lookup_set_eq, Hverb, Hc, Ha; reflexivity.
  - rewrite PyFacts.lookup_set_eq.
    destruct (Py.lookup "content" d) as [[| | | |c| |]|] eqn:Hc; try discriminate;
      destruct (Py.lookup "agent_id" d) as [[| | | |a| |]|] eqn:Ha; try discriminate;
      intros [= <-]; eexists; (split; [reflexivity|]);
      rewrite ?(PyFacts.lookup_set_ne "params" "verb"),
        ?(PyFacts.lookup_set_ne "params" "content"),
        ?(PyFacts.lookup_set_ne "params" "agent_id") by discriminate;
      rewrite PyFacts.lookup_set_eq, Hverb, Hc, Ha; reflexivity.
Qed.

Lemma mapped_verb_is_agent_verb (v action : string) :
  table_get v VERB_MAP = Some action -> str_in v agent_verbs = true.
Proof.
  unfold VERB_MAP, agent_verbs, str_in. cbn.
  repeat match goal with
  | |- context [String.eqb v ?s] => destruct (String.eqb v s); cbn
  end; try reflexivity; discriminate.
Qed.

(** X4. A verb of the verb table is always handled by the agent family, with
    the table's action written over whatever [action] the sender put in the
    parameters and every other parameter kept; the verb [chain] goes to the
    chain family with its parameters as sent. *)
Theorem mapped_verbs_run_the_table_action C channel mode data text d m h :
  text_of C data = Ret text ->
  json_loads C text = Ret (VDict d) ->
  K0mmand3rMessage_new (VDict d) = Ret m ->
  (forall action,
     table_get (verb m) VERB_MAP = Some action ->
     let m' := {| verb := verb m; params := Py.set "action" (VStr action) (params m);
                  content := content m; agent_id := agent_id m |} in
     Py.get (params m') "action" = VStr action
     /\ (forall k, k <> "action" -> Py.lookup k (params m') = Py.lookup k (params m))
     /\ snd (_handle_message C channel mode data h)
        = snd (_handle_agent_command C channel mode m'
                 (h ++ [ELog "info" "Received command";
                        ELog "debug" "Mapped verb to action"])))
  /\ (verb m = "chain" ->
      snd (_handle_message C channel mode data h)
      = snd (_handle_chain_command C channel mode m
               (h ++ [ELog "info" "Received command"]))).
Proof.
  intros Ht Hj Hm.
  assert (Hstart : forall k : K0mmand3rMessage -> M history unit,
    _handle_message C channel mode data h
    = try_except
        (message ← match table_get (verb m) VERB_MAP with
                   | Some action =>
                       message_dict ← Eff.lift (set_action d action);
                       message ← Eff.lift (K0mmand3rMessage_new (VDict message_dict));
                       log "debug" "Mapped verb to action";;
                       mret message
                   | None => mret m
                   end;
         if str_in (verb message) agent_verbs
         then _handle_agent_command C channel mode message
         else if String.eqb (verb message) "chain"
              then _handle_chain_command C channel mode message
              else log "warning" "Unknown verb")
        (fun e =>
           if String.eqb (exn_class e) "JSONDecodeError"
           then log "error" "Invalid JSON message"
           else log "error" "Error handling message")
        (h ++ [ELog "info" "Received command"])).
  { intros _. unfold _handle_message, try_except, mbind, M_bind, Eff.lift.
    destruct data as [s|b]; cbn in Ht.
    - injection Ht as ->. unfold mret, M_ret. rewrite Hj, Hm. reflexivity.
    - rewrite Ht, Hj, Hm. reflexivity. }
  specialize (Hstart (fun _ => mret tt)).
  split.
  - intros action Hmap m'.
    split; [unfold Py.get; cbn; now rewrite PyFacts.lookup_set_eq|].
    split; [intros k Hk; cbn; now apply PyFacts.lookup_set_ne|].
    destruct (set_action_revalidates d m action Hm) as (d' & Hset & Hnew).
    rewrite Hstart. unfold try_except, mbind, M_bind, Eff.lift, mret, M_ret.
    rewrite Hmap, Hset, Hnew. cbn [log emit Eff.modify fst snd verb].
    rewrite (mapped_verb_is_agent_verb _ _ Hmap).
    rewrite <- app_assoc. cbn [app]. fold m'.
    pose proof (handle_agent_command_returns C channel mode m'
                  (h ++ [ELog "info" "Received command";
                         ELog "debug" "Mapped verb to action"])) as Hret.
    destruct (_handle_agent_command C channel mode m' _) as [[[]|e] h2]; cbn in *;
      [reflexivity | discriminate].
  - intros Hverb. rewrite Hstart. unfold try_except, mbind, M_bind, mret, M_ret.
    rewrite Hverb. cbn -[_handle_chain_command _handle_agent_command].
    rewrite Hverb. cbn -[_handle_chain_command _handle_agent_command].
    pose proof (handle_chain_command_returns C channel mode m
                  (h ++ [ELog "info" "Received command"])) as Hret.
    destruct (_handle_chain_command C channel mode m _) as [[[]|e] h2]; cbn in *;
      [reflexivity | discriminate].
Qed.

(** The dispatch message of the demo: handled as an agent [run]. *)
Lemma mapped_verbs_witness :
  snd (_handle_message RouterDemo.demo "b00t:langchain" "compact"
         (PStr RouterDemo.dispatch_text) [])
  = snd (_handle_agent_command RouterDemo.demo "b00t:langchain" "compact"
           {| verb := "dispatch";
              params := [ ("name", VStr "researcher"); ("input", VStr "hi");
                          ("action", VStr "run") ];
              content := VNone; agent_id := VNone |}
           [ELog "info" "Received command"; ELog "debug" "Mapped verb to action"]).
Proof.
  destruct (mapped_verbs_run_the_table_action RouterDemo.demo "b00t:langchain" "compact"
              (PStr RouterDemo.dispatch_text) RouterDemo.dispatch_text
              RouterDemo.dispatch_dict
              {| verb := "dispatch";
                 params := [ ("name", VStr "researcher"); ("input", VStr "hi") ];
                 content := VNone; agent_id := VNone |} []
              eq_refl eq_refl eq_refl) as (H & _).
  destruct (H "run" eq_refl) as (_ & _ & Heq). exact Heq.
Defined.

(** *** Failures of agent commands *)

(** X5. When an agent run raises, the agent family reports it at level
    [error], which no filter mode drops: if Redis accepts the message, exactly
    that one status message is published, in every mode.  Its [type] is
    [error] unless the exception has an empty message, in which case it is
    [progress]. *)
Theorem agent_failures_pass_every_filter C channel mode m h e :
  let params := params m in
  let agent_name := py_or (Py.get params "name") (Py.get params "agent") in
  let input_text := py_or (Py.get params "input") (py_or (content m) (VStr "")) in
  let model := Py.get params "model" in
  let h1 := h ++ [ERunAgent agent_name input_text model;
                  ELog "error" "Agent command failed"] in
  let msg : pydict :=
    [ ("timestamp", VStr (utcnow_isoformat C h1 +:+ "Z"));
      ("agent", VStr ("langchain." +:+ py_str C (VStr "unknown")));
      ("task_id", VStr "");
      ("type", VStr (if String.eqb (exn_msg e) "" then "progress" else "error"));
      ("level", VStr "error");
      ("message", VStr (exn_msg e));
      ("metadata", VDict []) ] in
  eq_str (get_default params "action" (VStr "run")) AgentAction.RUN = true ->
  truthy agent_name = true ->
  run_agent C (h ++ [ERunAgent agent_name input_text model]) agent_name input_text model
  = Raise e ->
  redis_publish C h1 (channel +:+ ":status") msg = Ret tt ->
  published (snd (_handle_agent_command C channel mode m h))
  = published h ++ [(channel +:+ ":status", msg)].
Proof.
  intros params0 agent_name input_text model h1 msg Ha Hn Hr Hp.
  rewrite (agent_failure_is_published_at_error_level C channel mode m h e Ha Hn Hr).
  fold params0 agent_name input_text model h1.
  assert (Hmsg : status_message_of C (utcnow_isoformat C h1)
                   [("error", VStr (exn_msg e))] "error" = Ret msg).
  { unfold status_message_of, msg, py_or. cbn.
    destruct (String.eqb_spec (exn_msg e) "") as [Heq|_]; [rewrite Heq|]; reflexivity. }
  rewrite (publish_result_delivered C channel mode _ "error" h1 msg
             (error_level_always_allowed mode) Hmsg Hp).
  cbn [snd]. unfold h1. rewrite !published_app. cbn. now rewrite !app_nil_r.
Qed.

(** The crashing agent of the demo, under the strictest filter. *)
Lemma agent_failures_witness :
  published (snd (_handle_agent_command RouterDemo.demo "b00t:langchain" "critical"
                    {| verb := "agent"; params := [ ("name", VStr "crasher") ];
                       content := VNone; agent_id := VNone |} []))
  = [] ++ [("b00t:langchain:status",
            [ ("timestamp", VStr "2025-01-01T00:00:00Z");
              ("agent", VStr "langchain.unknown");
              ("task_id", VStr "");
              ("type", VStr "error");
              ("level", VStr "error");
              ("message", VStr "agent crashed");
              ("metadata", VDict []) ])].
Proof.
  apply (agent_failures_pass_every_filter RouterDemo.demo "b00t:langchain" "critical"
           {| verb := "agent"; params := [ ("name", VStr "crasher") ];
              content := VNone; agent_id := VNone |} []
           (Exn "RuntimeError" "agent crashed")); reflexivity.
Defined.

(** *** Chain parameters *)

(** X6. The parameters handed to a chain are the command's parameters
    without [action], [name] and [chain]: those three keys are never passed
    on, and every other key is passed on with the value it had. *)
Theorem chain_params_drop_only_routing_keys (params : pydict) (k : string) :
  Py.lookup k (chain_params_of params)
  = if str_in k ["action"; "name"; "chain"] then None else Py.lookup k params.
Proof.
  unfold chain_params_of.
  induction params as [|[k' v] params IH].
  - now destruct (str_in k _).
  - rewrite filter_cons. cbn [fst Py.lookup].
    destruct (decide _) as [Hd|Hd]; cbn [Py.lookup]; rewrite IH;
      destruct (String.eqb_spec k k') as [->|Hne]; try reflexivity;
      destruct (str_in k' _); cbn in Hd; tauto.
Qed.

(** *** The subscriber loop *)

Ltac walk_history :=
  repeat first
    [ apply keeps_ret; exact extends_refl
    | apply keeps_raise; exact extends_refl
    | apply keeps_lift; exact extends_refl
    | apply keeps_gets; exact extends_refl
    | apply keeps_ask; exact extends_refl
    | solve [eauto]
    | intros ?; apply extends_snoc
    | apply keeps_bind; [exact extends_trans | | intros ?]
    | apply keeps_try; [exact extends_trans | | intros ?]
    | match goal with
      | |- keeps _ (match ?x with _ => _ end) => destruct x
      end ].

Lemma publish_extends C channel msg : keeps extends (publish C channel msg).
Proof.
  intros h. unfold publish. destruct (redis_publish C h channel msg); apply extends_snoc.
Qed.

Lemma publish_result_extends C channel mode result level :
  keeps extends (_publish_result C channel mode result level).
Proof.
  unfold _publish_result, log, emit, Eff.modify.
  pose proof (publish_extends C (channel +:+ ":status")). walk_history.
Qed.

Lemma handle_agent_command_extends C channel mode m :
  keeps extends (_handle_agent_command C channel mode m).
Proof.
  unfold _handle_agent_command, agents_pop, log, emit, Eff.modify.
  pose proof (publish_result_extends C channel mode). walk_history.
Qed.

Lemma handle_chain_command_extends C channel mode m :
  keeps extends (_handle_chain_command C channel mode m).
Proof.
  unfold _handle_chain_command, log, emit, Eff.modify.
  pose proof (publish_result_extends C channel mode). walk_history.
Qed.

Lemma handle_message_extends C channel mode data :
  keeps extends (_handle_message C channel mode data).
Proof.
  unfold _handle_message, log, emit, Eff.modify.
  pose proof (handle_agent_command_extends C channel mode).
  pose proof (handle_chain_command_extends C channel mode).
  walk_history.
Qed.

Lemma listen_extends C channel mode items : keeps extends (listen C channel mode items).
Proof.
  induction items as [|[m|e] items IH]; cbn [listen].
  - walk_history.
  - pose proof (handle_message_extends C channel mode (mdata m)). walk_history.
  - walk_history.
Qed.

(** X7. Once the subscription has succeeded, [start] always calls
    [unsubscribe], whatever the stream delivers: also when the stream fails,
    when the listener is cancelled and when a stop is requested; a failure of
    the stream never leaves [start].  [start] returns normally exactly when
    [unsubscribe] and [aclose] succeed: an exception of [unsubscribe] leaves
    [start] before [aclose] is called, and an exception of [aclose] leaves it
    before the final log record.  When [subscribe] itself raises, the
    exception leaves [start] and nothing else is done. *)
Theorem start_unsubscribes_once_subscribed C channel mode pubsub h :
  let h0 := h ++ [ELog "info" "k0mmand3r listener starting"; ESubscribe channel] in
  (forall e, subscribe pubsub h0 channel = Raise e ->
             start C channel mode pubsub h = (Raise e, h0))
  /\ (subscribe pubsub h0 channel = Ret tt ->
      exists handled,
        let h1 := h0 ++ [ELog "info" "Subscribed"] ++ handled ++ [EUnsubscribe channel] in
        start C channel mode pubsub h
        = match unsubscribe pubsub h1 channel with
          | Raise e => (Raise e, h1)
          | Ret _ =>
              match aclose pubsub (h1 ++ [EAclose]) with
              | Raise e => (Raise e, h1 ++ [EAclose])
              | Ret _ => (Ret tt, h1 ++ [EAclose; ELog "info" "Listener stopped"])
              end
          end).
Proof.
  intros h0.
  assert (Hstart : start C channel mode pubsub h
                   = match subscribe pubsub h0 channel with
                     | Raise e => (Raise e, h0)
                     | Ret _ =>
                         try_finally
                           (try_except (listen C channel mode (messages pubsub))
                              (fun e =>
                                 if String.eqb (exn_class e) "CancelledError"
                                 then log "info" "Listener cancelled"
                                 else log "error" "Listener error"))
                           (emit (EUnsubscribe channel);;
                            ask (fun g => unsubscribe pubsub g channel);;
                            emit EAclose;;
                            ask (fun g => aclose pubsub g);;
                            log "info" "Listener stopped")
                           (h0 ++ [ELog "info" "Subscribed"])
                     end).
  { unfold start. unfold mbind at 1 2 3 4, M_bind at 1 2 3 4.
    unfold log at 1 2, emit at 1 2 3, Eff.modify, Eff.ask at 1. cbn [fst snd].
    replace ((h ++ [ELog "info" "k0mmand3r listener starting"]) ++ [ESubscribe channel])
      with h0 by (unfold h0; now rewrite <- app_assoc).
    destruct (subscribe pubsub h0 channel) as [[]|e]; reflexivity. }
  rewrite Hstart. split.
  - intros e ->. reflexivity.
  - intros ->. unfold try_finally, try_except.
    set (g := h0 ++ [ELog "info" "Subscribed"]).
    destruct (listen_extends C channel mode (messages pubsub) g) as [more Hmore].
    assert (Hbody : exists handled,
              (let (o, s') := listen C channel mode (messages pubsub) g in
               match o with
               | Ret a => (Ret a, s')
               | Raise e =>
                   (if String.eqb (exn_class e) "CancelledError"
                    then log "info" "Listener cancelled"
                    else log "error" "Listener error") s'
               end) = (Ret tt, g ++ handled)).
    { destruct (listen C channel mode (messages pubsub) g) as [[[]|e] g1];
        cbn in Hmore; subst g1.
      - exists more. reflexivity.
      - destruct (String.eqb (exn_class e) "CancelledError");
          eexists (more ++ [_]); unfold log, emit, Eff.modify; cbn [fst snd];
          rewrite <- app_assoc; reflexivity. }
    destruct Hbody as (handled & Hbody). exists handled.
    cbn zeta. rewrite Hbody.
    unfold mbind, M_bind, log, emit, Eff.modify, Eff.ask. cbn [fst snd].
    replace ((g ++ handled) ++ [EUnsubscribe channel])
      with (h0 ++ [ELog "info" "Subscribed"] ++ handled ++ [EUnsubscribe channel])
      by (unfold g; now rewrite <- !app_assoc).
    destruct (unsubscribe pubsub _ channel) as [[]|e]; [|reflexivity].
    destruct (aclose pubsub _) as [[]|e]; [|reflexivity].
    now rewrite <- !app_assoc.
Qed.

(** A stream that fails at once, on a connection that can still be closed. *)
Lemma start_unsubscribes_witness :
  exists handled,
    start RouterDemo.demo "b00t:langchain" "compact"
      {| subscribe := fun _ _ => Ret tt;
         messages := [Raise (Exn "ConnectionError" "Connection closed by server")];
         unsubscribe := fun _ _ => Ret tt;
         aclose := fun _ => Ret tt |} []
    = (Ret tt,
       ([ELog "info" "k0mmand3r listener starting"; ESubscribe "b00t:langchain"]
        ++ [ELog "info" "Subscribed"] ++ handled ++ [EUnsubscribe "b00t:langchain"])
       ++ [EAclose; ELog "info" "Listener stopped"]).
Proof.
  destruct (start_unsubscribes_once_subscribed RouterDemo.demo "b00t:langchain" "compact"
              {| subscribe := fun _ _ => Ret tt;
                 messages := [Raise (Exn "ConnectionError" "Connection closed by server")];
                 unsubscribe := fun _ _ => Ret tt;
                 aclose := fun _ => Ret tt |} []) as [_ Hsub].
  destruct (Hsub eq_refl) as [handled Hrun]. exists handled. exact Hrun.
Defined.

(** *** What reaches the status channel *)

Section Allowed.

Variable C : Collaborators.
Variables channel mode : string.

Let R := K0mmand3rTrace.publishes_only_allowed channel mode.

Lemma allowed_refl h : R h h.
Proof. exists []. rewrite app_nil_r. split; [reflexivity | constructor]. Qed.

Lemma allowed_trans a b c : R a b -> R b c -> R a c.
Proof.
  intros (m1 & H1 & F1) (m2 & H2 & F2). exists (m1 ++ m2).
  rewrite H2, H1, app_assoc. split; [reflexivity | apply Forall_app; auto].
Qed.

Lemma log_allowed level template : keeps R (log level template).
Proof.
  intros h. exists []. unfold log, emit, Eff.modify. cbn [snd].
  rewrite published_app. cbn. split; [reflexivity | constructor].
Qed.

Lemma emit_allowed e :
  match e with EPublish _ _ => False | _ => True end -> keeps R (emit e).
Proof.
  intros He h. exists []. unfold emit, Eff.modify. cbn [snd].
  rewrite published_app. destruct e; try contradiction; cbn;
    (split; [reflexivity | constructor]).
Qed.

Lemma publish_result_allowed result level :
  level = "info" \/ level = "error" ->
  keeps R (_publish_result C channel mode result level).
Proof.
  intros Hlevel h.
  destruct (publish_result_cases C channel mode result level h)
    as [Hsame | (msg & Hm & Hf & _ & Hpub)].
  - exists []. rewrite app_nil_r. split; [exact Hsame | constructor].
  - exists [(channel +:+ ":status", msg)]. split; [exact Hpub|].
    constructor; [|constructor]. split; [reflexivity|]. cbn [snd].
    apply status_message_level in Hm. rewrite Hm.
    destruct Hlevel as [-> | ->]; auto.
Qed.

Ltac walk_allowed :=
  unfold agents_pop, log;
  repeat first
    [ apply keeps_ret; exact allowed_refl
    | apply keeps_raise; exact allowed_refl
    | apply keeps_lift; exact allowed_refl
    | apply keeps_gets; exact allowed_refl
    | apply keeps_ask; exact allowed_refl
    | solve [eauto]
    | apply emit_allowed; exact I
    | apply keeps_bind; [exact allowed_trans | | intros ?]
    | apply keeps_try; [exact allowed_trans | | intros ?]
    | apply keeps_finally; [exact allowed_trans | |]
    | match goal with
      | |- keeps _ (match ?x with _ => _ end) => destruct x
      end ].

Lemma handle_agent_command_allowed m : keeps R (_handle_agent_command C channel mode m).
Proof.
  unfold _handle_agent_command.
  pose proof (fun result => publish_result_allowed result "info" (or_introl eq_refl)).
  pose proof (fun result => publish_result_allowed result "error" (or_intror eq_refl)).
  walk_allowed.
Qed.

Lemma handle_chain_command_allowed m : keeps R (_handle_chain_command C channel mode m).
Proof.
  unfold _handle_chain_command.
  pose proof (fun result => publish_result_allowed result "info" (or_introl eq_refl)).
  walk_allowed.
Qed.

Lemma handle_message_allowed data : keeps R (_handle_message C channel mode data).
Proof.
  unfold _handle_message.
  pose proof handle_agent_command_allowed.
  pose proof handle_chain_command_allowed.
  walk_allowed.
Qed.

Lemma listen_allowed items : keeps R (listen C channel mode items).
Proof.
  induction items as [|[m|e] items IH]; cbn [listen].
  - walk_allowed.
  - pose proof (handle_message_allowed (mdata m)). walk_allowed.
  - walk_allowed.
Qed.

Lemma start_allowed pubsub : keeps R (start C channel mode pubsub).
Proof. unfold start. pose proof (listen_allowed (messages pubsub)). walk_allowed. Qed.

End Allowed.

(** X27. Whatever the listener receives and whatever its collaborators do,
    everything it publishes goes to its own status channel, at level [info]
    or [error], and never at a level its filter mode drops.  In particular,
    in a mode that drops [info] (such as [critical]) only the [error]
    messages of failed agent commands are published. *)
Theorem listener_publishes_only_what_the_filter_allows C channel mode pubsub h :
  exists more,
    published (snd (start C channel mode pubsub h)) = published h ++ more
    /\ Forall (fun p => fst p = channel +:+ ":status"
                        /\ (Py.get (snd p) "level" = VStr "error"
                            \/ (Py.get (snd p) "level" = VStr "info"
                                /\ _should_publish mode "info" = true)))
              more.
Proof. apply (start_allowed C channel mode pubsub h). Qed.

(** X28. A [run-job] command on a listener without a job executor is
    answered with the error [Job executor not available], but at level
    [info]: in a mode that drops [info] the requester is told nothing, and
    otherwise the status message has type [error] and level [info]. *)
Theorem missing_executor_is_reported_at_info_level C channel mode m h :
  job_executor C = None ->
  Py.get (params m) "action" = VStr "run-job" ->
  let h1 := h ++ [ELog "error" "Job executor not initialized"] in
  let msg : pydict :=
    [ ("timestamp", VStr (utcnow_isoformat C h1 +:+ "Z"));
      ("agent", VStr ("langchain." +:+ py_str C (VStr "unknown")));
      ("task_id", VStr "");
      ("type", VStr "error");
      ("level", VStr "info");
      ("message", VStr "Job executor not available");
      ("metadata", VDict []) ] in
  (_should_publish mode "info" = false ->
   published (snd (_handle_agent_command C channel mode m h)) = published h)
  /\ (_should_publish mode "info" = true ->
      redis_publish C h1 (channel +:+ ":status") msg = Ret tt ->
      published (snd (_handle_agent_command C channel mode m h))
      = published h ++ [(channel +:+ ":status", msg)]).
Proof.
  intros Hex Haction h1 msg.
  assert (Hrun : _handle_agent_command C channel mode m h
                 = _publish_result C channel mode
                     [ ("error", VStr "Job executor not available") ] "info" h1).
  { unfold _handle_agent_command, try_except, get_default.
    unfold Py.get in Haction.
    destruct (Py.lookup "action" (params m)) as [a|]; [|discriminate Haction].
    subst a. cbn -[_publish_result]. rewrite Hex.
    unfold mbind, M_bind, log, emit, Eff.modify. cbn -[_publish_result].
    fold h1.
    pose proof (publish_result_returns C channel mode
                  [ ("error", VStr "Job executor not available") ] "info" h1) as Hret.
    destruct (_publish_result C channel mode _ "info" h1) as [[[]|e] h2];
      [reflexivity | discriminate Hret]. }
  rewrite Hrun. split.
  - intros Hf. rewrite publish_result_filtered by exact Hf. cbn [snd].
    unfold h1. rewrite !published_app. cbn. now rewrite !app_nil_r.
  - intros Hf Hp.
    assert (Hmsg : status_message_of C (utcnow_isoformat C h1)
                     [ ("error", VStr "Job executor not available") ] "info" = Ret msg)
      by reflexivity.
    rewrite (publish_result_delivered C channel mode _ "info" h1 msg Hf Hmsg Hp).
    cbn [snd]. unfold h1. rewrite !published_app. cbn. now rewrite !app_nil_r.
Qed.

(** The demo listener, which has no job executor, in [critical] mode. *)
Lemma missing_executor_witness :
  published (snd (_handle_agent_command RouterDemo.demo "b00t:langchain" "critical"
                    {| verb := "agent"; params := [ ("action", VStr "run-job") ];
                       content := VNone; agent_id := VNone |} []))
  = published [].
Proof.
  apply (proj1 (missing_executor_is_reported_at_info_level RouterDemo.demo
                  "b00t:langchain" "critical"
                  {| verb := "agent"; params := [ ("action", VStr "run-job") ];
                     content := VNone; agent_id := VNone |} []
                  eq_refl eq_refl)).
  reflexivity.
Defined.

End K0mmand3rExtra.


Module ADKExtra.
Import ADK ADKTrace PyFacts.

(** *** [execute_agent] *)

Lemma persist_context_eq C context h :
  _persist_context C context h
  = (Ret (match redis_setex C h (context_key (agent_id context)) 3600
                  (context_to_dict context) with
          | Ret _ => Success true
          | Raise e => Failure e
          end),
     h ++ [ESetex (context_key (agent_id context)) 3600 (context_to_dict context)]).
Proof.
  unfold _persist_context, call, context_key, try_except, mbind, M_bind, mret, M_ret.
  destruct (redis_setex _ _ _ _ _) as [[]|e]; reflexivity.
Qed.

Lemma execute_agent_eq C agent_config task context parent h :
  let ctx := context_at C agent_config context parent h in
  let key := context_key (agent_id (ctx INITIALIZING None)) in
  let h2 := h ++ [ESetex key 3600 (context_to_dict (ctx INITIALIZING None));
                  ESetex key 3600 (context_to_dict (ctx RUNNING None))] in
  let completed := ctx COMPLETED (Some (utcnow_isoformat C h2)) in
  execute_agent C agent_config task context parent h
  = (Ret [ ("status", VStr "success");
           ("agent_id", VStr (agent_id completed));
           ("agent_name", name agent_config);
           ("task", task);
           ("result", VStr "Agent execution requires google-adk-python package");
           ("execution_context", VDict (context_to_dict completed));
           ("job_id", VStr (job_id_at C h)) ],
     h2 ++ [ESetex key 3600 (context_to_dict completed)]).
Proof.
  cbv zeta.
  unfold execute_agent, current_job_id, try_except.
  unfold mbind, M_bind, Eff.gets, mret, M_ret. cbn beta iota.
  repeat (rewrite persist_context_eq; cbn beta iota).
  unfold context_at, job_id_at. cbn [agent_id ADK.job_id]. rewrite <- !app_assoc.
  reflexivity.
Qed.

(** X8. [execute_agent] reports success whatever Redis does.  It tries to
    store the context three times under the agent's key, each time for one
    hour: as [initializing], as [running] and as [completed]; a store that
    fails is ignored, so the failure branch is never taken.  The context in
    the result is the last one it tried to store. *)
Theorem execute_agent_reports_success_whatever_redis_does
    C agent_config task context parent h :
  let agent := py_str C (name agent_config) +:+ "_" +:+ job_id_at C h in
  let key := context_key agent in
  exists d1 d2 d3 result,
    execute_agent C agent_config task context parent h
    = (Ret result, h ++ [ESetex key 3600 d1; ESetex key 3600 d2; ESetex key 3600 d3])
    /\ Py.lookup "status" d1 = Some (VStr "initializing")
    /\ Py.lookup "status" d2 = Some (VStr "running")
    /\ Py.lookup "status" d3 = Some (VStr "completed")
    /\ Py.lookup "end_time" d2 = Some VNone
    /\ (exists t, Py.lookup "end_time" d3 = Some (VStr t))
    /\ Py.lookup "status" result = Some (VStr "success")
    /\ Py.lookup "agent_id" result = Some (VStr agent)
    /\ Py.lookup "execution_context" result = Some (VDict d3).
Proof.
  cbv zeta. rewrite execute_agent_eq. cbv zeta.
  do 4 eexists. split.
  - rewrite <- app_assoc. reflexivity.
  - cbn. repeat split; eauto.
Qed.

(** *** [adk_agent_job] *)

Lemma persisted_app h h' : persisted (h ++ h') = persisted h ++ persisted h'.
Proof. apply flat_map_app. Qed.

Lemma adk_agent_job_ok C d task context parent h :
  complete_config d -> RedisTracker_new C h = Ret tt ->
  exists r k d1 d2 d3,
    adk_agent_job C d task context parent h
    = (Ret r, h ++ [ENewTracker; ESetex k 3600 d1; ESetex k 3600 d2; ESetex k 3600 d3])
    /\ Py.lookup "status" r = Some (VStr "success").
Proof.
  intros [[n Hn] [ds Hd]] Ht.
  unfold adk_agent_job, subscript, call, mbind, M_bind, Eff.lift.
  rewrite Hn, Hd, Ht. cbn beta iota. rewrite execute_agent_eq. cbv zeta.
  do 5 eexists. split; [rewrite <- !app_assoc; reflexivity | reflexivity].
Qed.

Lemma adk_agent_job_nameless C d task context parent h :
  Py.lookup "name" d = None ->
  adk_agent_job C d task context parent h = (Raise (Exn "KeyError" "'name'"), h).
Proof.
  intros Hn. unfold adk_agent_job, subscript, mbind, M_bind, Eff.lift.
  now rewrite Hn.
Qed.

(** The rebuilt configuration never reads [sub_agents]. *)
Lemma adk_agent_job_ignores_sub_agents C d v task context parent h :
  adk_agent_job C (Py.set "sub_agents" v d) task context parent h
  = adk_agent_job C d task context parent h.
Proof.
  unfold adk_agent_job, subscript, get_default, get.
  now rewrite !(lookup_set_ne "sub_agents") by discriminate.
Qed.

(** *** [multi_agent_coordination_job] *)

(** X9. The hierarchical strategy runs the coordinator exactly as
    [adk_agent_job] runs it alone.  The sub-agent configurations it stores
    under [sub_agents] are dropped when the configuration is rebuilt, so they
    have no effect: no sub-agent runs, and the [sub_agents] of the result are
    empty. *)
Theorem hierarchical_strategy_ignores_the_sub_agents C d subs task h :
  multi_agent_coordination_job C d subs task "hierarchical" h
  = match Py.lookup "name" d with
    | None => (Ret (coordination_error "'name'" (job_id_at C h)), h)
    | Some coordinator =>
        match adk_agent_job C d task VNone VNone h with
        | (Ret r, h') =>
            (Ret (coordination_result "hierarchical" coordinator [] (job_id_at C h)
                  ++ [("coordinator_result", VDict r)]), h')
        | (Raise e, h') => (Ret (coordination_error (exn_msg e) (job_id_at C h)), h')
        end
    end.
Proof.
  unfold multi_agent_coordination_job, current_job_id, try_except, subscript.
  unfold mbind at 1 2 3, M_bind at 1 2 3, Eff.gets, Eff.lift, mret at 1, M_ret at 1.
  cbn beta iota.
  destruct (Py.lookup "name" d) as [n|]; [|reflexivity].
  cbn -[adk_agent_job]. unfold mbind, M_bind.
  rewrite adk_agent_job_ignores_sub_agents.
  destruct (adk_agent_job C d task VNone VNone h) as [[r|e] h']; reflexivity.
Qed.

(** X10. A strategy other than [sequential], [parallel] and [hierarchical]
    yields an error result and nothing else: no agent runs and no job is
    queued.  The coordinator's name is read first, so a coordinator without a
    name is reported instead of the unknown strategy. *)
Theorem unknown_strategy_does_nothing C d subs task strategy h :
  ~ In strategy ["sequential"; "parallel"; "hierarchical"] ->
  multi_agent_coordination_job C d subs task strategy h
  = (Ret (coordination_error
            (match Py.lookup "name" d with
             | Some _ => "Unknown coordination strategy: " +:+ strategy
             | None => "'name'"
             end)
            (job_id_at C h)), h).
Proof.
  intros Hs.
  assert (H1 : String.eqb strategy "sequential" = false).
  { apply String.eqb_neq. intros ->. apply Hs. cbn. tauto. }
  assert (H2 : String.eqb strategy "parallel" = false).
  { apply String.eqb_neq. intros ->. apply Hs. cbn. tauto. }
  assert (H3 : String.eqb strategy "hierarchical" = false).
  { apply String.eqb_neq. intros ->. apply Hs. cbn. tauto. }
  unfold multi_agent_coordination_job, current_job_id, try_except, subscript.
  unfold mbind at 1 2 3, M_bind at 1 2 3, Eff.gets, Eff.lift, mret at 1, M_ret at 1.
  cbn beta iota. rewrite H1, H2, H3.
  destruct (Py.lookup "name" d) as [n|]; reflexivity.
Qed.

(** A misspelt strategy, with a complete coordinator and one sub-agent. *)
Lemma unknown_strategy_witness :
  multi_agent_coordination_job ADKDemo.quiet
    [ ("name", VStr "coordinator"); ("description", VStr "Coordinates") ]
    [ [ ("name", VStr "agent1"); ("description", VStr "First") ] ]
    (VStr "Complex task") "round-robin" []
  = (Ret [ ("status", VStr "error");
           ("error", VStr "Unknown coordination strategy: round-robin");
           ("job_id", VStr "job-123") ], []).
Proof.
  apply (unknown_strategy_does_nothing ADKDemo.quiet
           [ ("name", VStr "coordinator"); ("description", VStr "Coordinates") ]
           [ [ ("name", VStr "agent1"); ("description", VStr "First") ] ]
           (VStr "Complex task") "round-robin" []).
  cbn. intros [H|[H|[H|[]]]]; discriminate H.
Defined.

(** **** The sequential strategy *)

Section Sequential.

Variable C : Collaborators.
Variables (task : pyval) (job_id : string).
Hypothesis tracker_ok : forall h, RedisTracker_new C h = Ret tt.

Lemma run_sequential_ok subs :
  Forall complete_config subs ->
  forall acc h,
  exists rs h',
    run_sequential C task job_id subs acc h = (Ret (acc ++ rs), h')
    /\ length rs = length subs
    /\ Forall succeeded rs
    /\ length (persisted h') = (length (persisted h) + 3 * length subs)%nat.
Proof.
  induction 1 as [|d subs Hd _ IH]; intros acc h; cbn [run_sequential].
  - exists [], h. rewrite app_nil_r. repeat split; [constructor | cbn; lia].
  - destruct (adk_agent_job_ok C d task VNone (VStr job_id) h Hd (tracker_ok h))
      as (r & k & d1 & d2 & d3 & Hrun & Hstatus).
    unfold mbind, M_bind. rewrite Hrun.
    destruct (IH (acc ++ [VDict r])
                (h ++ [ENewTracker; ESetex k 3600 d1; ESetex k 3600 d2; ESetex k 3600 d3]))
      as (rs & h' & Hrest & Hlen & Hall & Hcount).
    exists (VDict r :: rs), h'. rewrite Hrest, <- app_assoc. cbn [app].
    repeat split.
    + cbn. now rewrite Hlen.
    + constructor; [exists r; auto | exact Hall].
    + rewrite Hcount, persisted_app. cbn. rewrite length_app. cbn. lia.
Qed.

Lemma run_sequential_abort done bad rest :
  Forall complete_config done ->
  Py.lookup "name" bad = None ->
  forall acc h,
  exists h',
    run_sequential C task job_id (done ++ bad :: rest) acc h
    = (Raise (Exn "KeyError" "'name'"), h')
    /\ length (persisted h') = (length (persisted h) + 3 * length done)%nat.
Proof.
  intros Hdone Hbad. induction Hdone as [|d done Hd _ IH]; intros acc h;
    cbn [app run_sequential].
  - unfold mbind, M_bind. rewrite adk_agent_job_nameless by exact Hbad.
    exists h. split; [reflexivity | cbn; lia].
  - destruct (adk_agent_job_ok C d task VNone (VStr job_id) h Hd (tracker_ok h))
      as (r & k & d1 & d2 & d3 & Hrun & Hstatus).
    unfold mbind, M_bind. rewrite Hrun.
    destruct (IH (acc ++ [VDict r])
                (h ++ [ENewTracker; ESetex k 3600 d1; ESetex k 3600 d2; ESetex k 3600 d3]))
      as (h' & Hrest & Hcount).
    exists h'. split; [exact Hrest|].
    rewrite Hcount, persisted_app. cbn. rewrite length_app. cbn. lia.
Qed.

End Sequential.

Lemma coordination_sequential C d subs task h :
  multi_agent_coordination_job C d subs task "sequential" h
  = match Py.lookup "name" d with
    | None => (Ret (coordination_error "'name'" (job_id_at C h)), h)
    | Some coordinator =>
        match run_sequential C task (job_id_at C h) subs [] h with
        | (Ret rs, h') =>
            (Ret (coordination_result "sequential" coordinator rs (job_id_at C h)), h')
        | (Raise e, h') => (Ret (coordination_error (exn_msg e) (job_id_at C h)), h')
        end
    end.
Proof.
  unfold multi_agent_coordination_job, current_job_id, try_except, subscript.
  unfold mbind at 1 2 3, M_bind at 1 2 3, Eff.gets, Eff.lift, mret at 1, M_ret at 1.
  cbn beta iota.
  destruct (Py.lookup "name" d) as [n|]; [|reflexivity].
  cbn -[run_sequential]. unfold mbind, M_bind. fold (job_id_at C h).
  destruct (run_sequential C task (job_id_at C h) subs [] h) as [[rs|e] h']; reflexivity.
Qed.

(** X11. The sequential strategy runs every sub-agent, in order and in this
    process: when every configuration has a name and a description and the
    tracker can be built, the result is a success whose [sub_agents] holds
    one successful result per configuration, and each sub-agent stored its
    context three times. *)
Theorem sequential_strategy_runs_every_sub_agent C d coordinator subs task h :
  Py.lookup "name" d = Some coordinator ->
  (forall h', RedisTracker_new C h' = Ret tt) ->
  Forall complete_config subs ->
  exists rs h',
    multi_agent_coordination_job C d subs task "sequential" h
    = (Ret (coordination_result "sequential" coordinator rs (job_id_at C h)), h')
    /\ length rs = length subs
    /\ Forall succeeded rs
    /\ length (persisted h') = (length (persisted h) + 3 * length subs)%nat.
Proof.
  intros Hn Ht Hsubs. rewrite coordination_sequential, Hn.
  destruct (run_sequential_ok C task (job_id_at C h) Ht subs Hsubs [] h)
    as (rs & h' & Hrun & Hlen & Hall & Hcount).
  rewrite Hrun. exists rs, h'. auto.
Qed.

(** Two complete sub-agents on a healthy Redis. *)
Lemma sequential_strategy_witness :
  exists rs h',
    multi_agent_coordination_job ADKDemo.quiet
      [ ("name", VStr "coordinator"); ("description", VStr "Coordinates") ]
      [ [ ("name", VStr "agent1"); ("description", VStr "First") ];
        [ ("name", VStr "agent2"); ("description", VStr "Second") ] ]
      (VStr "Complex task") "sequential" []
    = (Ret (coordination_result "sequential" (VStr "coordinator") rs "job-123"), h')
    /\ length rs = 2%nat
    /\ Forall succeeded rs
    /\ length (persisted h') = 6%nat.
Proof.
  apply (sequential_strategy_runs_every_sub_agent ADKDemo.quiet
           [ ("name", VStr "coordinator"); ("description", VStr "Coordinates") ]
           (VStr "coordinator")
           [ [ ("name", VStr "agent1"); ("description", VStr "First") ];
             [ ("name", VStr "agent2"); ("description", VStr "Second") ] ]
           (VStr "Complex task") []).
  - reflexivity.
  - reflexivity.
  - repeat constructor; cbn; eauto.
Defined.

(** X12. A sub-agent configuration without a [name] aborts a sequential
    coordination: the job returns the error [KeyError: 'name'] and none of the
    results of the sub-agents that ran before it, although each of them ran
    and stored its context; the configurations after it never run. *)
Theorem sequential_strategy_loses_results_on_a_bad_config
    C d coordinator done bad rest task h :
  Py.lookup "name" d = Some coordinator ->
  (forall h', RedisTracker_new C h' = Ret tt) ->
  Forall complete_config done ->
  Py.lookup "name" bad = None ->
  exists h',
    multi_agent_coordination_job C d (done ++ bad :: rest) task "sequential" h
    = (Ret (coordination_error "'name'" (job_id_at C h)), h')
    /\ length (persisted h') = (length (persisted h) + 3 * length done)%nat.
Proof.
  intros Hn Ht Hdone Hbad. rewrite coordination_sequential, Hn.
  destruct (run_sequential_abort C task (job_id_at C h) Ht done bad rest Hdone Hbad [] h)
    as (h' & Hrun & Hcount).
  rewrite Hrun. exists h'. auto.
Qed.

(** One complete sub-agent, then one without a name, then a complete one. *)
Lemma sequential_abort_witness :
  exists h',
    multi_agent_coordination_job ADKDemo.quiet
      [ ("name", VStr "coordinator"); ("description", VStr "Coordinates") ]
      ([ [ ("name", VStr "agent1"); ("description", VStr "First") ] ]
       ++ ADKDemo.nameless_config
       :: [ [ ("name", VStr "agent3"); ("description", VStr "Third") ] ])
      (VStr "Complex task") "sequential" []
    = (Ret (coordination_error "'name'" "job-123"), h')
    /\ length (persisted h') = 3%nat.
Proof.
  apply (sequential_strategy_loses_results_on_a_bad_config ADKDemo.quiet
           [ ("name", VStr "coordinator"); ("description", VStr "Coordinates") ]
           (VStr "coordinator")
           [ [ ("name", VStr "agent1"); ("description", VStr "First") ] ]
           ADKDemo.nameless_config
           [ [ ("name", VStr "agent3"); ("description", VStr "Third") ] ]
           (VStr "Complex task") []).
  - reflexivity.
  - reflexivity.
  - repeat constructor; cbn; eauto.
  - reflexivity.
Defined.

(** **** The parallel strategy *)

Section Parallel.

Variable C : Collaborators.
Variables (task : pyval) (job_id : string).
Hypothesis enqueue_ok : forall h c, is_ret (queue_enqueue C h c task job_id) = true.

Lemma run_parallel_ok subs :
  Forall (fun c => is_Some (Py.lookup "name" c)) subs ->
  forall acc h,
  exists es,
    run_parallel C task job_id subs acc h
    = (Ret (acc ++ es), h ++ enqueue_events task job_id subs)
    /\ length es = length subs
    /\ Forall queued_entry es.
Proof.
  induction 1 as [|c subs [n Hn] _ IH]; intros acc h;
    cbn [run_parallel enqueue_events map].
  - exists []. rewrite !app_nil_r. repeat split. constructor.
  - unfold mbind at 1, M_bind at 1, call at 1.
    pose proof (enqueue_ok h c) as Hq.
    destruct (queue_enqueue C h c task job_id) as [id|e]; [|discriminate Hq].
    unfold mbind at 1, M_bind at 1, Eff.lift, subscript. rewrite Hn.
    destruct (IH (acc ++ [VDict [ ("agent", n); ("job_id", VStr id);
                                  ("status", VStr "enqueued") ]])
                (h ++ [EEnqueue c task job_id])) as (es & Hrest & Hlen & Hall).
    eexists (_ :: es). rewrite Hrest, <- !app_assoc. cbn [app].
    repeat split.
    + cbn. now rewrite Hlen.
    + constructor; [eexists; split; reflexivity | exact Hall].
Qed.

Lemma run_parallel_abort done bad rest :
  Forall (fun c => is_Some (Py.lookup "name" c)) done ->
  Py.lookup "name" bad = None ->
  forall acc h,
    run_parallel C task job_id (done ++ bad :: rest) acc h
    = (Raise (Exn "KeyError" "'name'"),
       h ++ enqueue_events task job_id (done ++ [bad])).
Proof.
  intros Hdone Hbad. induction Hdone as [|c done [n Hn] _ IH]; intros acc h;
    cbn [app run_parallel enqueue_events map].
  - unfold mbind at 1, M_bind at 1, call at 1.
    pose proof (enqueue_ok h bad) as Hq.
    destruct (queue_enqueue C h bad task job_id) as [id|e]; [|discriminate Hq].
    unfold mbind at 1, M_bind at 1, Eff.lift, subscript. now rewrite Hbad.
  - unfold mbind at 1, M_bind at 1, call at 1.
    pose proof (enqueue_ok h c) as Hq.
    destruct (queue_enqueue C h c task job_id) as [id|e]; [|discriminate Hq].
    unfold mbind at 1, M_bind at 1, Eff.lift, subscript. rewrite Hn.
    rewrite IH, <- app_assoc. reflexivity.
Qed.

End Parallel.

Lemma coordination_parallel C d coordinator subs task h :
  Py.lookup "name" d = Some coordinator ->
  get_queue C h = Ret tt ->
  multi_agent_coordination_job C d subs task "parallel" h
  = match run_parallel C task (job_id_at C h) subs [] (h ++ [EGetQueue]) with
    | (Ret es, h') =>
        (Ret (coordination_result "parallel" coordinator es (job_id_at C h)), h')
    | (Raise e, h') => (Ret (coordination_error (exn_msg e) (job_id_at C h)), h')
    end.
Proof.
  intros Hn Hq.
  unfold multi_agent_coordination_job, current_job_id, try_except, subscript.
  unfold mbind at 1 2 3, M_bind at 1 2 3, Eff.gets, Eff.lift, mret at 1, M_ret at 1.
  cbn beta iota. rewrite Hn.
  cbn -[run_parallel]. unfold mbind, M_bind, call. rewrite Hq. fold (job_id_at C h).
  destruct (run_parallel C task (job_id_at C h) subs [] (h ++ [EGetQueue]))
    as [[es|e] h']; reflexivity.
Qed.

(** X13. The parallel strategy runs no agent itself: when the queue accepts
    every job, it hands exactly one job per sub-agent configuration to the
    queue, in order, each with this job as parent, and the result lists one
    [enqueued] entry per configuration. *)
Theorem parallel_strategy_enqueues_every_sub_agent C d coordinator subs task h :
  Py.lookup "name" d = Some coordinator ->
  get_queue C h = Ret tt ->
  (forall h' c, is_ret (queue_enqueue C h' c task (job_id_at C h)) = true) ->
  Forall (fun c => is_Some (Py.lookup "name" c)) subs ->
  exists es,
    multi_agent_coordination_job C d subs task "parallel" h
    = (Ret (coordination_result "parallel" coordinator es (job_id_at C h)),
       h ++ EGetQueue :: enqueue_events task (job_id_at C h) subs)
    /\ length es = length subs
    /\ Forall queued_entry es.
Proof.
  intros Hn Hq He Hsubs. rewrite (coordination_parallel C d coordinator) by assumption.
  destruct (run_parallel_ok C task (job_id_at C h) He subs Hsubs [] (h ++ [EGetQueue]))
    as (es & Hrun & Hlen & Hall).
  rewrite Hrun, <- app_assoc. exists es. auto.
Qed.

(** Two sub-agents on a healthy queue. *)
Lemma parallel_strategy_witness :
  exists es,
    multi_agent_coordination_job ADKDemo.quiet
      [ ("name", VStr "coordinator"); ("description", VStr "Coordinates") ]
      [ [ ("name", VStr "agent1"); ("description", VStr "First") ];
        [ ("name", VStr "agent2"); ("description", VStr "Second") ] ]
      (VStr "Complex task") "parallel" []
    = (Ret (coordination_result "parallel" (VStr "coordinator") es "job-123"),
       [] ++ EGetQueue
          :: enqueue_events (VStr "Complex task") "job-123"
               [ [ ("name", VStr "agent1"); ("description", VStr "First") ];
                 [ ("name", VStr "agent2"); ("description", VStr "Second") ] ])
    /\ length es = 2%nat
    /\ Forall queued_entry es.
Proof.
  apply (parallel_strategy_enqueues_every_sub_agent ADKDemo.quiet
           [ ("name", VStr "coordinator"); ("description", VStr "Coordinates") ]
           (VStr "coordinator")
           [ [ ("name", VStr "agent1"); ("description", VStr "First") ];
             [ ("name", VStr "agent2"); ("description", VStr "Second") ] ]
           (VStr "Complex task") []).
  - reflexivity.
  - reflexivity.
  - reflexivity.
  - repeat constructor; cbn; eauto.
Defined.

(** X14. The parallel strategy queues a sub-agent before it reads the
    sub-agent's [name]: a configuration without a name is still handed to the
    queue, and only then does the coordination fail with [KeyError: 'name'].
    The jobs queued so far stay queued, the result does not list them, and the
    configurations after the bad one are never queued. *)
Theorem parallel_strategy_queues_before_it_fails C d coordinator done bad rest task h :
  Py.lookup "name" d = Some coordinator ->
  get_queue C h = Ret tt ->
  (forall h' c, is_ret (queue_enqueue C h' c task (job_id_at C h)) = true) ->
  Forall (fun c => is_Some (Py.lookup "name" c)) done ->
  Py.lookup "name" bad = None ->
  multi_agent_coordination_job C d (done ++ bad :: rest) task "parallel" h
  = (Ret (coordination_error "'name'" (job_id_at C h)),
     h ++ EGetQueue :: enqueue_events task (job_id_at C h) (done ++ [bad])).
Proof.
  intros Hn Hq He Hdone Hbad. rewrite (coordination_parallel C d coordinator) by assumption.
  rewrite (run_parallel_abort C task (job_id_at C h) He done bad rest Hdone Hbad).
  now rewrite <- app_assoc.
Qed.

(** One named sub-agent, then one without a name, then a named one. *)
Lemma parallel_abort_witness :
  multi_agent_coordination_job ADKDemo.quiet
    [ ("name", VStr "coordinator"); ("description", VStr "Coordinates") ]
    ([ [ ("name", VStr "agent1"); ("description", VStr "First") ] ]
     ++ ADKDemo.nameless_config
     :: [ [ ("name", VStr "agent3"); ("description", VStr "Third") ] ])
    (VStr "Complex task") "parallel" []
  = (Ret (coordination_error "'name'" "job-123"),
     [] ++ EGetQueue
        :: enqueue_events (VStr "Complex task") "job-123"
             ([ [ ("name", VStr "agent1"); ("description", VStr "First") ] ]
              ++ [ADKDemo.nameless_config])).
Proof.
  apply (parallel_strategy_queues_before_it_fails ADKDemo.quiet
           [ ("name", VStr "coordinator"); ("description", VStr "Coordinates") ]
           (VStr "coordinator")
           [ [ ("name", VStr "agent1"); ("description", VStr "First") ] ]
           ADKDemo.nameless_config
           [ [ ("name", VStr "agent3"); ("description", VStr "Third") ] ]
           (VStr "Complex task") []).
  - reflexivity.
  - reflexivity.
  - reflexivity.
  - repeat constructor; cbn; eauto.
  - reflexivity.
Defined.

End ADKExtra.


Module ADKContextExtra.
Import ADKContext.

Lemma AgentStatus_of_status_value (s : ADK.AgentStatus) :
  AgentStatus_of (VStr (ADK.status_value s)) = Ret s.
Proof. destruct s; reflexivity. Qed.

Lemma AgentStatus_of_inv v s :
  AgentStatus_of v = Ret s -> v = VStr (ADK.status_value s).
Proof.
  destruct v as [| | | |x| |]; try discriminate. cbn.
  repeat match goal with
  | |- context [String.eqb x ?c] =>
      destruct (String.eqb_spec x c) as [->|_]; [intros [= <-]; reflexivity|]
  end.
  discriminate.
Qed.

(** X15. A context written by [to_dict] is read back unchanged by
    [_get_context]: when the store holds the serialised dictionary of a
    context under the agent's key and the ISO times parse back to
    themselves, the context returned has the same identifiers, status, times
    and metadata. *)
Theorem get_context_reads_back_a_stored_context C (c : ADK.AgentExecutionContext) text :
  redis_get C (ADKTrace.context_key (ADK.agent_id c)) = Ret (Some text) ->
  text <> "" ->
  json_loads C text = Ret (VDict (ADK.context_to_dict c)) ->
  fromisoformat C (VStr (ADK.start_time c)) = Ret (ADK.start_time c) ->
  (forall t, ADK.end_time c = Some t ->
             t <> "" /\ fromisoformat C (VStr t) = Ret t) ->
  _get_context C (ADK.agent_id c) = Some (loaded c).
Proof.
  intros Hget Htext Hjson Hstart Hend.
  unfold _get_context, read_context. fold (ADKTrace.context_key (ADK.agent_id c)).
  rewrite Hget. cbn [bind].
  destruct (String.eqb_spec text "") as [->|_]; [contradiction|].
  rewrite Hjson. cbn -[AgentStatus_of].
  rewrite AgentStatus_of_status_value. cbn. rewrite Hstart. cbn.
  destruct c as [a j s p st t0 [t|] m]; cbn in *.
  - destruct (Hend t eq_refl) as [Hne Hparse].
    destruct (String.eqb_spec t "") as [->|_]; [contradiction|]. cbn.
    rewrite Hparse. reflexivity.
  - reflexivity.
Qed.

(** The context of a finished agent, stored as text [ctx]. *)
Lemma get_context_witness :
  _get_context
    {| json_loads := fun text =>
         if String.eqb text "ctx"
         then Ret (VDict (ADK.context_to_dict
                {| ADK.agent_id := "test-agent"; ADK.job_id := "test-job";
                   ADK.session_id := VNone; ADK.parent_agent_id := VNone;
                   ADK.status := ADK.COMPLETED;
                   ADK.start_time := "2025-01-01T00:00:00";
                   ADK.end_time := Some "2025-01-01T00:00:05";
                   ADK.metadata := VDict [] |}))
         else Raise (Exn "JSONDecodeError" "Expecting value");
       fromisoformat := fun v =>
         match v with
         | VStr t => Ret t
         | _ => Raise (Exn "TypeError" "fromisoformat: argument must be str")
         end;
       redis_get := fun key =>
         Ret (if String.eqb key "adk:agent:test-agent:context"
              then Some "ctx" else None) |}
    "test-agent"
  = Some {| agent_id := VStr "test-agent"; job_id := VStr "test-job";
            session_id := VNone; parent_agent_id := VNone;
            status := ADK.COMPLETED;
            start_time := "2025-01-01T00:00:00";
            end_time := Some "2025-01-01T00:00:05";
            metadata := VDict [] |}.
Proof.
  apply (get_context_reads_back_a_stored_context _
           {| ADK.agent_id := "test-agent"; ADK.job_id := "test-job";
              ADK.session_id := VNone; ADK.parent_agent_id := VNone;
              ADK.status := ADK.COMPLETED;
              ADK.start_time := "2025-01-01T00:00:00";
              ADK.end_time := Some "2025-01-01T00:00:05";
              ADK.metadata := VDict [] |} "ctx").
  - reflexivity.
  - discriminate.
  - reflexivity.
  - reflexivity.
  - intros t [= <-]. split; [discriminate | reflexivity].
Defined.

(** X16. [_get_context] answers [None] instead of failing: when the key is
    missing or empty, when Redis or the JSON parser raises, and when the
    stored value is not a dictionary with [agent_id], [job_id], a known
    [status] and [start_time].  A context it does return carries one of the
    six status values of the stored dictionary. *)
Theorem get_context_turns_every_failure_into_none C agent :
  let key := ADKTrace.context_key agent in
  (forall e, redis_get C key = Raise e -> _get_context C agent = None)
  /\ (redis_get C key = Ret None -> _get_context C agent = None)
  /\ (redis_get C key = Ret (Some "") -> _get_context C agent = None)
  /\ (forall text v,
        redis_get C key = Ret (Some text) ->
        json_loads C text = Ret v ->
        (forall d, v = VDict d ->
           Py.lookup "agent_id" d = None \/ Py.lookup "job_id" d = None
           \/ Py.lookup "start_time" d = None
           \/ (forall s, Py.lookup "status" d <> Some (VStr (ADK.status_value s)))) ->
        _get_context C agent = None)
  /\ (forall text e,
        redis_get C key = Ret (Some text) ->
        json_loads C text = Raise e ->
        _get_context C agent = None).
Proof.
  cbv zeta. unfold _get_context, read_context. fold (ADKTrace.context_key agent).
  split; [|split; [|split; [|split]]].
  - intros e ->. reflexivity.
  - intros ->. reflexivity.
  - intros ->. reflexivity.
  - intros text v -> Hjson Hbad. cbn [bind].
    destruct (String.eqb text ""); [reflexivity|]. rewrite Hjson. cbn [bind].
    destruct v as [| | | | | |d]; try reflexivity.
    cbn [item get_method subscript].
    destruct (Hbad d eq_refl) as [H|[H|[H|H]]].
    + unfold subscript. now rewrite H.
    + unfold subscript. rewrite H.
      destruct (Py.lookup "agent_id" d); reflexivity.
    + unfold subscript. rewrite H.
      destruct (Py.lookup "agent_id" d); [|reflexivity].
      destruct (Py.lookup "job_id" d); [|reflexivity]. cbn [bind].
      destruct (Py.lookup "status" d) as [sv|]; [|reflexivity]. cbn [bind].
      destruct (AgentStatus_of sv); reflexivity.
    + unfold subscript.
      destruct (Py.lookup "agent_id" d); [|reflexivity].
      destruct (Py.lookup "job_id" d); [|reflexivity]. cbn [bind].
      destruct (Py.lookup "status" d) as [sv|] eqn:Hs; [|reflexivity]. cbn [bind].
      destruct (AgentStatus_of sv) as [s|e] eqn:Hsv; [|reflexivity].
      apply AgentStatus_of_inv in Hsv. subst sv. now destruct (H s).
  - intros text e -> Hjson. cbn [bind].
    destruct (String.eqb text ""); [reflexivity|]. now rewrite Hjson.
Qed.

(** A store without the key. *)
Lemma get_context_none_witness :
  _get_context
    {| json_loads := fun _ => Raise (Exn "JSONDecodeError" "Expecting value");
       fromisoformat := fun _ => Raise (Exn "ValueError" "Invalid isoformat string");
       redis_get := fun _ => Ret None |}
    "nonexistent-agent"
  = None.
Proof.
  refine (proj1 (proj2 (get_context_turns_every_failure_into_none
           {| json_loads := fun _ => Raise (Exn "JSONDecodeError" "Expecting value");
              fromisoformat := fun _ => Raise (Exn "ValueError" "Invalid isoformat string");
              redis_get := fun _ => Ret None |}
           "nonexistent-agent")) _).
  reflexivity.
Defined.

End ADKContextExtra.


Module JobsExtra.
Import Jobs JobsTrace PyFacts.

Lemma queued_app l l' : queued (l ++ l') = queued l ++ queued l'.
Proof. apply flat_map_app. Qed.

(** *** [crawl_url_job] *)

Ltac queue_leaf :=
  cbn; rewrite ?queued_app; cbn; rewrite ?app_nil_r;
  first [ left; reflexivity
        | right; split; [assumption | eexists; reflexivity] ].

(** X17. [crawl_url_job] never queues links at or beyond the depth limit in
    force (its [max_depth] argument when given, the crawler's value
    otherwise): it hands at most one set of links to the tracker, only below
    the limit, and for the next depth. *)
Theorem crawl_url_job_queues_only_below_the_limit C url depth max_depth p :
  let after := calls (snd (crawl_url_job C url depth max_depth p)) in
  queued after = queued (calls p)
  \/ (depth < limit_in_force max_depth p
      /\ exists links, queued after = queued (calls p) ++ [(links, depth + 1)]).
Proof.
  unfold crawl_url_job, set_max_depth, call, limit_in_force.
  JobsProps.unfold_eff.
  destruct max_depth as [d|]; cbn;
    (destruct (crawl_url C url depth) as [[data|err]|e]; [|queue_leaf..]);
    cbn;
    (destruct (parse_content C _ _ _) as [[pd|err]|e]; [| |queue_leaf]);
    cbn;
    (match goal with
     | |- context [Z.ltb depth ?l] => destruct (Z.ltb_spec depth l) as [Hlt|Hge]
     end; [|queue_leaf]);
    (destruct (truthy _); [|queue_leaf]);
    cbn;
    (destruct (set_of _) as [links|e]; [|queue_leaf]);
    cbn;
    (destruct (add_to_queue C links (depth + 1)) as [[n|err']|e]; queue_leaf).
Qed.

(** X18. Applying a specialised parser's result changes only the four
    [parsed_*] keys of the crawled data: they are set to the parser's title,
    content, metadata and tags, and every other key keeps its value. *)
Theorem with_parsed_changes_only_the_parsed_keys (data : pydict) (pd : ParsedData) k :
  Py.lookup k (with_parsed data pd)
  = if String.eqb k "parsed_title" then Some (title pd)
    else if String.eqb k "parsed_content" then Some (content pd)
    else if String.eqb k "parsed_metadata" then Some (metadata pd)
    else if String.eqb k "parsed_tags" then Some (tags pd)
    else Py.lookup k data.
Proof.
  unfold with_parsed, update. cbn [fold_left fst snd].
  destruct (String.eqb_spec k "parsed_tags") as [->|H4].
  { cbn. apply lookup_set_eq. }
  rewrite (lookup_set_ne "parsed_tags") by congruence.
  destruct (String.eqb_spec k "parsed_metadata") as [->|H3].
  { cbn. apply lookup_set_eq. }
  rewrite (lookup_set_ne "parsed_metadata") by congruence.
  destruct (String.eqb_spec k "parsed_content") as [->|H2].
  { cbn. apply lookup_set_eq. }
  rewrite (lookup_set_ne "parsed_content") by congruence.
  destruct (String.eqb_spec k "parsed_title") as [->|H1].
  { apply lookup_set_eq. }
  now rewrite (lookup_set_ne "parsed_title") by congruence.
Qed.

(** X19. When the crawler fails, by returning a [Failure] or by raising, the
    job stops there: nothing is parsed or queued, and the result is the error
    record with the crawler's message. *)
Theorem failed_crawl_stops_the_job C url depth max_depth p err :
  crawl_url C url depth = Ret (Failure err) \/ crawl_url C url depth = Raise err ->
  let run := crawl_url_job C url depth max_depth p in
  fst run = Ret [ ("status", VStr "error");
                  ("url", VStr url);
                  ("depth", VInt depth);
                  ("error", VStr (exn_msg err));
                  ("job_id", VStr (current_job_id C)) ]
  /\ calls (snd run) = calls p ++ [ECrawlUrl url depth].
Proof.
  intros Hcrawl. unfold crawl_url_job, set_max_depth, call.
  JobsProps.unfold_eff.
  destruct max_depth as [d|]; cbn; destruct Hcrawl as [-> | ->]; cbn; auto.
Qed.

(** A crawler that cannot reach the page. *)
Lemma failed_crawl_witness :
  let C := {| get_current_job := Some "job-7";
              crawl_url := fun _ _ => Ret (Failure (Exn "ConnectionError" "unreachable"));
              crawl_recursive := crawl_recursive JobsDemo.site;
              parse_content := parse_content JobsDemo.site;
              add_to_queue := add_to_queue JobsDemo.site;
              process_content := process_content JobsDemo.site;
              cache_content := cache_content JobsDemo.site |} in
  let run := crawl_url_job C "https://a.com" 0 None JobsDemo.fresh in
  fst run = Ret [ ("status", VStr "error");
                  ("url", VStr "https://a.com");
                  ("depth", VInt 0);
                  ("error", VStr "unreachable");
                  ("job_id", VStr "job-7") ]
  /\ calls (snd run) = [] ++ [ECrawlUrl "https://a.com" 0].
Proof.
  intros C.
  apply (failed_crawl_stops_the_job C "https://a.com" 0 None JobsDemo.fresh
           (Exn "ConnectionError" "unreachable")).
  left. reflexivity.
Defined.

(** *** [digest_url_job] *)

Lemma parse_results_ok C pages :
  Forall (digestible C) pages ->
  forall acc p,
    parse_results C pages acc p
    = (Ret (acc ++ map (fun d => VDict (parsed_page C d)) pages),
       {| crawler_max_depth := crawler_max_depth p;
          calls := calls p ++ map parse_call pages |}).
Proof.
  induction 1 as [|d pages [[u Hu] Hp] _ IH]; intros acc p; cbn [parse_results map].
  - rewrite !app_nil_r. destruct p; reflexivity.
  - unfold mbind at 1, M_bind at 1, Eff.lift, subscript. rewrite Hu.
    unfold mbind at 1, M_bind at 1, call at 1.
    unfold parse_answer, get in Hp. rewrite Hu in Hp.
    unfold parsed_page, parse_call, parse_answer, get. rewrite Hu.
    destruct (parse_content C u _ _) as [[pd|err]|e]; [| |discriminate Hp];
      rewrite IH; cbn [calls crawler_max_depth]; rewrite <- !app_assoc; reflexivity.
Qed.

(** X20. A digest returns every page the crawler found, in crawl order, each
    parsed once: when every page has a [url] and the parser does not raise,
    the result is a success whose [results] are the pages (with the parsed
    fields where a parser applied, unchanged where it failed) and whose
    [total_pages] is their number. *)
Theorem digest_returns_every_crawled_page C url depth p pages :
  crawl_recursive C url depth = Ret pages ->
  Forall (digestible C) pages ->
  digest_url_job C url depth p
  = (Ret [ ("status", VStr "success");
           ("start_url", VStr url);
           ("max_depth", VInt depth);
           ("results", VList (map (fun d => VDict (parsed_page C d)) pages));
           ("total_pages", VInt (Z.of_nat (length pages)));
           ("job_id", VStr (current_job_id C)) ],
     {| crawler_max_depth := crawler_max_depth p;
        calls := calls p ++ ECrawlRecursive url depth :: map parse_call pages |}).
Proof.
  intros Hcrawl Hpages. unfold digest_url_job, try_except.
  unfold mbind at 1, M_bind at 1, call at 1. rewrite Hcrawl.
  unfold mbind at 1, M_bind at 1. rewrite (parse_results_ok C pages Hpages).
  cbn [app calls crawler_max_depth]. unfold mret, M_ret.
  rewrite length_map, <- app_assoc. reflexivity.
Qed.

(** The one-page site of the demo. *)
Lemma digest_witness :
  digest_url_job JobsDemo.site "https://a.com" 1 JobsDemo.fresh
  = (Ret [ ("status", VStr "success");
           ("start_url", VStr "https://a.com");
           ("max_depth", VInt 1);
           ("results", VList (map (fun d => VDict (parsed_page JobsDemo.site d))
                                  [ [ ("url", VStr "https://a.com") ] ]));
           ("total_pages", VInt (Z.of_nat (length [ [ ("url", VStr "https://a.com") ] ])));
           ("job_id", VStr (current_job_id JobsDemo.site)) ],
     {| crawler_max_depth := crawler_max_depth JobsDemo.fresh;
        calls := calls JobsDemo.fresh
                 ++ ECrawlRecursive "https://a.com" 1
                 :: map parse_call [ [ ("url", VStr "https://a.com") ] ] |}).
Proof.
  apply (digest_returns_every_crawled_page JobsDemo.site "https://a.com" 1 JobsDemo.fresh
           [ [ ("url", VStr "https://a.com") ] ]).
  - reflexivity.
  - repeat constructor. cbn. eauto.
Defined.

(** X21. One page without a [url] costs the whole digest: the job returns the
    error [KeyError: 'url'] and none of the pages, although the pages before
    it were parsed. *)
Theorem digest_loses_every_page_on_a_bad_one C url depth p done bad rest :
  crawl_recursive C url depth = Ret (done ++ bad :: rest) ->
  Forall (digestible C) done ->
  Py.lookup "url" bad = None ->
  digest_url_job C url depth p
  = (Ret [ ("status", VStr "error");
           ("start_url", VStr url);
           ("max_depth", VInt depth);
           ("error", VStr "'url'");
           ("job_id", VStr (current_job_id C)) ],
     {| crawler_max_depth := crawler_max_depth p;
        calls := calls p ++ ECrawlRecursive url depth :: map parse_call done |}).
Proof.
  intros Hcrawl Hdone Hbad. unfold digest_url_job, try_except.
  unfold mbind at 1, M_bind at 1, call at 1. rewrite Hcrawl.
  unfold mbind at 1, M_bind at 1.
  assert (Hloop : forall acc q,
            parse_results C (done ++ bad :: rest) acc q
            = (Raise (Exn "KeyError" "'url'"),
               {| crawler_max_depth := crawler_max_depth q;
                  calls := calls q ++ map parse_call done |})).
  { clear Hcrawl. induction Hdone as [|d done [[u Hu] Hp] _ IH]; intros acc q;
      cbn [app parse_results map].
    - unfold mbind at 1, M_bind at 1, Eff.lift, subscript. rewrite Hbad.
      rewrite app_nil_r. destruct q; reflexivity.
    - unfold mbind at 1, M_bind at 1, Eff.lift, subscript. rewrite Hu.
      unfold mbind at 1, M_bind at 1, call at 1.
      unfold parse_answer, get in Hp. rewrite Hu in Hp.
      unfold parse_call, get. rewrite Hu.
      destruct (parse_content C u _ _) as [[pd|err]|e]; [| |discriminate Hp];
        rewrite IH; cbn [calls crawler_max_depth]; rewrite <- !app_assoc; reflexivity. }
  rewrite Hloop. cbn [app calls crawler_max_depth]. unfold mret, M_ret.
  rewrite <- app_assoc. reflexivity.
Qed.

(** A crawl of two pages, the second without its [url]. *)
Lemma digest_bad_page_witness :
  let C := {| get_current_job := get_current_job JobsDemo.site;
              crawl_url := crawl_url JobsDemo.site;
              crawl_recursive := fun url _ =>
                Ret ([ [ ("url", VStr url) ] ] ++ [ ("content", VStr "x") ] :: []);
              parse_content := parse_content JobsDemo.site;
              add_to_queue := add_to_queue JobsDemo.site;
              process_content := process_content JobsDemo.site;
              cache_content := cache_content JobsDemo.site |} in
  digest_url_job C "https://a.com" 1 JobsDemo.fresh
  = (Ret [ ("status", VStr "error");
           ("start_url", VStr "https://a.com");
           ("max_depth", VInt 1);
           ("error", VStr "'url'");
           ("job_id", VStr (current_job_id C)) ],
     {| crawler_max_depth := crawler_max_depth JobsDemo.fresh;
        calls := calls JobsDemo.fresh
                 ++ ECrawlRecursive "https://a.com" 1
                 :: map parse_call [ [ ("url", VStr "https://a.com") ] ] |}).
Proof.
  intros C.
  apply (digest_loses_every_page_on_a_bad_one C "https://a.com" 1 JobsDemo.fresh
           [ [ ("url", VStr "https://a.com") ] ] [ ("content", VStr "x") ] []).
  - reflexivity.
  - repeat constructor. cbn. eauto.
  - reflexivity.
Defined.

(** *** [process_binary_content_job] *)

(** X22. Once the content is processed, a cache that answers with a
    [Failure] does not change the result: the job still returns the
    processed text and the size of the input.  A cache that raises does: the
    job then reports an error although the content was processed. *)
Theorem cache_failure_is_ignored_but_cache_exception_is_not
    C url content content_type p text :
  process_content C content content_type url = Ret (Success text) ->
  let run := process_binary_content_job C url content content_type p in
  calls (snd run)
  = calls p ++ [EProcessContent content content_type url;
                ECacheContent url text "text/markdown"]
  /\ fst run
     = match cache_content C url text "text/markdown" with
       | Ret _ =>
           Ret [ ("status", VStr "success");
                 ("url", VStr url);
                 ("content_type", VStr content_type);
                 ("processed_content", text);
                 ("content_size", VInt (Z.of_nat (length content)));
                 ("job_id", VStr (current_job_id C)) ]
       | Raise e =>
           Ret [ ("status", VStr "error");
                 ("url", VStr url);
                 ("content_type", VStr content_type);
                 ("error", VStr (exn_msg e));
                 ("job_id", VStr (current_job_id C)) ]
       end.
Proof.
  intros Hproc. unfold process_binary_content_job, call.
  JobsProps.unfold_eff. rewrite Hproc. cbn.
  destruct (cache_content C url text "text/markdown") as [[b|err]|e]; cbn;
    rewrite <- app_assoc; auto.
Qed.

(** The demo's content processor, on three bytes. *)
Lemma cache_failure_witness :
  let run := process_binary_content_job JobsDemo.site "https://a.com/x.pdf"
               [Byte.x25; Byte.x50; Byte.x44] "application/pdf" JobsDemo.fresh in
  calls (snd run)
  = [] ++ [EProcessContent [Byte.x25; Byte.x50; Byte.x44] "application/pdf"
             "https://a.com/x.pdf";
           ECacheContent "https://a.com/x.pdf" (VStr "# text") "text/markdown"]
  /\ fst run
     = Ret [ ("status", VStr "success");
             ("url", VStr "https://a.com/x.pdf");
             ("content_type", VStr "application/pdf");
             ("processed_content", VStr "# text");
             ("content_size", VInt 3);
             ("job_id", VStr "local") ].
Proof.
  apply (cache_failure_is_ignored_but_cache_exception_is_not JobsDemo.site
           "https://a.com/x.pdf" [Byte.x25; Byte.x50; Byte.x44] "application/pdf"
           JobsDemo.fresh (VStr "# text")).
  reflexivity.
Defined.

End JobsExtra.


Module CleanupExtra.
Import Cleanup CleanupTrace Frames FramesFacts PyFacts.

(** *** Set-up failures *)

(** X23. When the job fails before its first phase (the import, the first
    [get_stats] or the computation of the cutoff raises, as it does for an
    age beyond what [timedelta] can hold), it returns the error record and
    the store is left exactly as it was. *)
Theorem setup_failure_leaves_the_store_untouched E max_age_days cf cff st e :
  import_rq_integration E = Raise e
  \/ (import_rq_integration E = Ret tt /\ get_stats E st = Raise e)
  \/ (import_rq_integration E = Ret tt /\ is_ret (get_stats E st) = true
      /\ cutoff_time (utcnow E) max_age_days = Raise e) ->
  fst (run E max_age_days cf cff st) = Ret (error_result E e)
  /\ fst (snd (run E max_age_days cf cff st)) = st.
Proof.
  intros H.
  assert (Hrun : run E max_age_days cf cff st
                 = (Ret (error_result E e), (st, initial_locals))).
  { unfold run, cleanup_old_data_job, try_except.
    unfold mbind at 1 2 3 4, M_bind at 1 2 3 4, Eff.lift, Eff.ask, on_locals, Eff.modify.
    destruct H as [-> | [[-> Hs] | (-> & Hs & Hc)]]; cbn [fst snd].
    - reflexivity.
    - rewrite Hs. reflexivity.
    - destruct (get_stats E st); [|discriminate Hs]. rewrite Hc. reflexivity. }
  rewrite Hrun. split; reflexivity.
Qed.

(** An age of a thousand million days. *)
Lemma setup_failure_witness :
  fst (run CleanupDemo.healthy 1000000000 true true CleanupDemo.two_records)
  = Ret (error_result CleanupDemo.healthy
           (Exn "OverflowError" "days=1000000000; must have magnitude <= 999999999"))
  /\ fst (snd (run CleanupDemo.healthy 1000000000 true true CleanupDemo.two_records))
     = CleanupDemo.two_records.
Proof.
  apply (setup_failure_leaves_the_store_untouched CleanupDemo.healthy 1000000000
           true true CleanupDemo.two_records
           (Exn "OverflowError" "days=1000000000; must have magnitude <= 999999999")).
  right. right. repeat split.
Defined.

(** X24. The final [get_stats] is inside the outer [try]: when it raises,
    the job returns the error record, without any clean-up results, although
    all three phases have run and what they deleted stays deleted. *)
Theorem late_stats_failure_discards_the_report E max_age_days cf cff st stats_before cutoff e :
  import_rq_integration E = Ret tt ->
  get_stats E st = Ret stats_before ->
  cutoff_time (utcnow E) max_age_days = Ret cutoff ->
  let s1 := snd (clean_crawl_data E cutoff (st, initial_locals)) in
  let s2 := snd (clean_job_registries E cutoff cf cff s1) in
  let s3 := snd (check_stale_queues E s2) in
  get_stats E (fst s3) = Raise e ->
  run E max_age_days cf cff st = (Ret (error_result E e), s3).
Proof.
  intros Himp Hstats Hcut s1 s2 s3 Hafter.
  unfold run, cleanup_old_data_job, try_except.
  unfold mbind at 1 2 3 4, M_bind at 1 2 3 4, Eff.lift, Eff.ask, on_locals, Eff.modify.
  rewrite Himp. cbn [fst snd]. rewrite Hstats, Hcut.
  rewrite CleanupProps.bind_returns by apply CleanupProps.clean_crawl_data_returns.
  fold s1.
  rewrite CleanupProps.bind_returns by apply CleanupProps.clean_job_registries_returns.
  fold s2.
  rewrite CleanupProps.bind_returns by apply CleanupProps.check_stale_queues_returns.
  fold s3.
  unfold mbind, M_bind, Eff.gets, mret, M_ret. rewrite Hafter. reflexivity.
Qed.

(** The demo store, with statistics that fail after the first deletion. *)
Lemma late_stats_failure_witness :
  let cutoff := naive (CleanupDemo.now - 7 * MICROS_PER_DAY) in
  let s1 := snd (clean_crawl_data stats_lost cutoff
                   (CleanupDemo.two_records, initial_locals)) in
  let s2 := snd (clean_job_registries stats_lost cutoff true true s1) in
  let s3 := snd (check_stale_queues stats_lost s2) in
  run stats_lost 7 true true CleanupDemo.two_records
  = (Ret (error_result stats_lost (Exn "ConnectionError" "Redis connection lost")), s3).
Proof.
  apply (late_stats_failure_discards_the_report stats_lost 7 true true
           CleanupDemo.two_records CleanupDemo.stats
           (naive (CleanupDemo.now - 7 * MICROS_PER_DAY))
           (Exn "ConnectionError" "Redis connection lost")).
  - reflexivity.
  - reflexivity.
  - reflexivity.
  - vm_compute. reflexivity.
Defined.

(** *** What a run keeps *)

Lemma warnings_app l l' : warnings (l ++ l') = warnings l ++ warnings l'.
Proof. apply flat_map_app. Qed.

Section Tidy.

Variable E : Env.
Variables (max_age_days : Z) (cf cff : bool).

Let R := tidy E max_age_days cf cff.

Lemma tidy_refl s : R s s.
Proof.
  split; [|split].
  - intros kind q j. split; auto.
  - exists []. rewrite app_nil_r. split; [reflexivity | constructor].
  - auto.
Qed.

Lemma tidy_trans a b c : R a b -> R b c -> R a c.
Proof.
  intros (Hab & (m1 & Hw1 & Hf1) & Hs1) (Hbc & (m2 & Hw2 & Hf2) & Hs2).
  split; [|split].
  - intros kind q j. destruct (Hab kind q j) as [Hab1 Hab2].
    destruct (Hbc kind q j) as [Hbc1 Hbc2]. split.
    + auto.
    + intros Hin. destruct (Hab2 Hin) as [Hb|Hold]; auto.
  - exists (m1 ++ m2). rewrite Hw2, Hw1, app_assoc. split; [reflexivity|].
    apply Forall_app. auto.
  - auto.
Qed.

(** Steps that touch neither a registry nor the warnings. *)
Lemma tidy_same (s s' : state) :
  failed_job_registry (fst s') = failed_job_registry (fst s) ->
  finished_job_registry (fst s') = finished_job_registry (fst s) ->
  warnings (effects (fst s')) = warnings (effects (fst s)) ->
  (stale_queues_cleaned (snd s) = 0 -> stale_queues_cleaned (snd s') = 0) ->
  R s s'.
Proof.
  intros Hf Hg Hw Hs. split; [|split].
  - intros kind q j. unfold job_ids, registry_of.
    destruct kind; rewrite ?Hf, ?Hg; split; auto.
  - exists []. rewrite app_nil_r. split; [exact Hw | constructor].
  - exact Hs.
Qed.

Lemma on_locals_tidy f :
  (forall l, stale_queues_cleaned l = 0 -> stale_queues_cleaned (f l) = 0) ->
  keeps R (on_locals f).
Proof. intros Hf [st l]. apply tidy_same; cbn; auto. Qed.

Lemma delete_record_tidy key : keeps R (on_store (delete_record key)).
Proof.
  intros [st l]. apply tidy_same; cbn; auto.
  rewrite warnings_app. cbn. now rewrite app_nil_r.
Qed.

Lemma warn_tidy queue_name queue_size :
  big_queue E (queue_name, queue_size) ->
  keeps R (on_store (warn queue_name queue_size)).
Proof.
  intros Hbig [st l]. split; [|split]; cbn -[warnings].
  - intros kind q j. unfold job_ids, registry_of. destruct kind; cbn; split; auto.
  - exists [(queue_name, queue_size)]. unfold warn. cbn [effects fst].
    rewrite warnings_app. cbn.
    split; [reflexivity | constructor; [exact Hbig | constructor]].
  - auto.
Qed.

Lemma elem_of_job_ids_remove_job kind q j kind' q' j' st :
  j' ∈ job_ids kind' q' (remove_job kind q j st)
  <-> j' ∈ job_ids kind' q' st /\ ~ (kind' = kind /\ q' = q /\ j' = j).
Proof.
  assert (Hfilter : j' ∈ filter (fun x => negb (String.eqb x j)) (job_ids kind q st)
                    <-> j' ∈ job_ids kind q st /\ j' <> j).
  { rewrite list_elem_of_filter.
    destruct (String.eqb_spec j' j); cbn; intuition congruence. }
  unfold remove_job.
  destruct kind, kind'; unfold job_ids at 1; unfold registry_of at 1;
    cbn [failed_job_registry finished_job_registry];
    try (unfold job_ids, registry_of; intuition congruence);
    (destruct (decide (q' = q)) as [->|Hne];
     [ rewrite lookup_insert_eq; cbn [default]; rewrite Hfilter; intuition congruence
     | rewrite lookup_insert_ne by congruence;
       unfold job_ids, registry_of; intuition congruence ]).
Qed.

Lemma remove_job_tidy kind q j :
  enabled kind cf cff = true -> ended_before_cutoff E max_age_days j ->
  keeps R (on_store (remove_job kind q j)).
Proof.
  intros Hen Hold [st l]. split; [|split]; cbn -[warnings job_ids remove_job].
  - intros kind' q' j'. cbn [fst snd]. rewrite elem_of_job_ids_remove_job.
    split; [tauto|].
    intros Hin.
    destruct kind, kind'; try (left; split; [exact Hin | intros (? & _); discriminate]);
      (destruct (decide (q' = q)) as [->|Hq];
       [ destruct (decide (j' = j)) as [->|Hj];
         [ right; auto | left; split; [exact Hin | tauto] ]
       | left; split; [exact Hin | tauto] ]).
  - exists []. unfold remove_job. cbn [effects fst]. rewrite warnings_app. cbn.
    split; [reflexivity | constructor].
  - auto.
Qed.

Ltac tidy_leaf :=
  first
    [ apply delete_record_tidy
    | apply on_locals_tidy; intros []; cbn; auto; fail
    | apply on_locals_tidy; intros l; cbn;
      match goal with |- context [match ?k with FailedJobs => _ | _ => _ end] =>
        destruct k end; auto ].

Ltac tidy_walk :=
  unfold redis_get, redis_delete, use_redis_conn, append_error;
  repeat first
    [ apply keeps_ret; exact tidy_refl
    | apply keeps_raise; exact tidy_refl
    | apply keeps_lift; exact tidy_refl
    | apply keeps_gets; exact tidy_refl
    | apply keeps_ask; exact tidy_refl
    | solve [eauto]
    | solve [tidy_leaf]
    | apply keeps_bind_lift; [exact tidy_refl | intros ? ?]
    | apply keeps_bind; [exact tidy_trans | | intros ?]
    | apply keeps_try; [exact tidy_trans | | intros ?]
    | match goal with
      | |- keeps _ (match ?x with _ => _ end) => destruct x eqn:?
      end ].

Lemma clean_key_tidy cutoff key : keeps R (clean_key E cutoff key).
Proof. unfold clean_key. tidy_walk. Qed.

Lemma clean_keys_tidy cutoff keys : keeps R (clean_keys E cutoff keys).
Proof.
  induction keys as [|k keys IH]; cbn [clean_keys].
  - tidy_walk.
  - pose proof (clean_key_tidy cutoff k). tidy_walk.
Qed.

Lemma scan_loop_tidy cutoff replies : keeps R (scan_loop E cutoff replies).
Proof.
  induction replies as [keys|e|cursor keys next IH]; cbn [scan_loop];
    pose proof (clean_keys_tidy cutoff); tidy_walk.
Qed.

Lemma clean_crawl_data_tidy cutoff : keeps R (clean_crawl_data E cutoff).
Proof.
  unfold clean_crawl_data. pose proof (scan_loop_tidy cutoff). tidy_walk.
Qed.


Lemma ended_before_of cutoff j t :
  cutoff_time (utcnow E) max_age_days = Ret cutoff ->
  job_fetch E j = Ret (Some t) ->
  dt_lt t cutoff = Ret true ->
  ended_before_cutoff E max_age_days j.
Proof.
  intros Hcut Hfetch Hlt. apply CleanupProps.cutoff_time_naive in Hcut. subst cutoff.
  exists t. split; [exact Hfetch|].
  unfold dt_lt, naive in Hlt. cbn in Hlt.
  destruct (aware t); cbn in Hlt; [discriminate|].
  injection Hlt as Hlt. apply Z.ltb_lt in Hlt. auto.
Qed.

Lemma clean_job_tidy cutoff kind q j :
  cutoff_time (utcnow E) max_age_days = Ret cutoff ->
  enabled kind cf cff = true ->
  keeps R (clean_job E cutoff kind q j).
Proof.
  intros Hcut Hen. unfold clean_job.
  pose proof (remove_job_tidy kind q j Hen) as Hrm.
  pose proof (fun t => ended_before_of cutoff j t Hcut) as Hold.
  tidy_walk.
Qed.

Lemma clean_jobs_tidy cutoff kind q ids :
  cutoff_time (utcnow E) max_age_days = Ret cutoff ->
  enabled kind cf cff = true ->
  keeps R (clean_jobs E cutoff kind q ids).
Proof.
  intros Hcut Hen. induction ids as [|j ids IH]; cbn [clean_jobs].
  - tidy_walk.
  - pose proof (clean_job_tidy cutoff kind q j Hcut Hen). tidy_walk.
Qed.

Lemma clean_queue_tidy cutoff f1 f2 q :
  cutoff_time (utcnow E) max_age_days = Ret cutoff ->
  (f1 = true -> cf = true) -> (f2 = true -> cff = true) ->
  keeps R (clean_queue E cutoff f1 f2 q).
Proof.
  intros Hcut H1 H2. unfold clean_queue, list_registry.
  assert (Hfailed : f1 = true ->
                    forall ids, keeps R (clean_jobs E cutoff FailedJobs q ids)).
  { intros Hf ids. apply clean_jobs_tidy; [exact Hcut | exact (H1 Hf)]. }
  assert (Hfinished : f2 = true ->
                      forall ids, keeps R (clean_jobs E cutoff FinishedJobs q ids)).
  { intros Hf ids. apply clean_jobs_tidy; [exact Hcut | exact (H2 Hf)]. }
  destruct f1, f2;
    try specialize (Hfailed eq_refl); try specialize (Hfinished eq_refl);
    tidy_walk.
Qed.

Lemma clean_queues_tidy cutoff queues :
  cutoff_time (utcnow E) max_age_days = Ret cutoff ->
  keeps R (clean_queues E cutoff cf cff queues).
Proof.
  intros Hcut. induction queues as [|q queues IH]; cbn [clean_queues].
  - tidy_walk.
  - pose proof (clean_queue_tidy cutoff cf cff q Hcut (fun H => H) (fun H => H)).
    tidy_walk.
Qed.

Lemma clean_job_registries_tidy cutoff :
  cutoff_time (utcnow E) max_age_days = Ret cutoff ->
  keeps R (clean_job_registries E cutoff cf cff).
Proof.
  intros Hcut. unfold clean_job_registries.
  pose proof (fun queues => clean_queues_tidy cutoff queues Hcut). tidy_walk.
Qed.

Lemma check_queues_tidy names :
  (forall q, q ∈ names -> q ∈ ["default"; "high"; "low"]) ->
  keeps R (check_queues E names).
Proof.
  induction names as [|q names IH]; intros Hnames; cbn [check_queues].
  - tidy_walk.
  - assert (Hrest : keeps R (check_queues E names)).
    { apply IH. intros q' Hq'. apply Hnames. now right. }
    assert (Hwarn : forall n, scard E ("crawl:queue:" +:+ q) = Ret n ->
                              (1000 <? n) = true ->
                              keeps R (on_store (warn q n))).
    { intros n Hn Hbig. apply warn_tidy. split; [|split]; cbn [fst snd].
      - apply Hnames. now left.
      - exact Hn.
      - now apply Z.ltb_lt. }
    tidy_walk.
Qed.

Lemma check_stale_queues_tidy : keeps R (check_stale_queues E).
Proof.
  unfold check_stale_queues.
  pose proof (check_queues_tidy ["default"; "high"; "low"] (fun q H => H)).
  tidy_walk.
Qed.

Lemma cleanup_old_data_job_tidy :
  keeps R (cleanup_old_data_job E max_age_days cf cff).
Proof.
  unfold cleanup_old_data_job.
  pose proof clean_crawl_data_tidy.
  pose proof clean_job_registries_tidy.
  pose proof check_stale_queues_tidy.
  tidy_walk.
Qed.

End Tidy.

(** What [run] returns: the error record, or the success record with the
    counters of the state it ends in. *)
Lemma run_result_cases E max_age_days cf cff st :
  let r := run E max_age_days cf cff st in
  (exists e, fst r = Ret (error_result E e))
  \/ (exists d, fst r = Ret d
                /\ Py.get d "status" = VStr "success"
                /\ Py.get d "cleanup_results" = VDict (cleanup_results (snd (snd r)))).
Proof.
  cbv zeta. unfold run, cleanup_old_data_job, try_except.
  match goal with
  | |- context [match ?body ?s with _ => _ end] => destruct (body s) as [[d|e] s'] eqn:Hbody
  end; cbn [fst snd].
  - right. exists d. split; [reflexivity|].
    do 8 (apply bind_ret_inv in Hbody as (? & ? & _ & Hbody)).
    apply bind_ret_inv in Hbody as (? & ? & Hgets & Hbody).
    unfold Eff.gets in Hgets. injection Hgets as <- <-.
    unfold mret, M_ret in Hbody. injection Hbody as <- <-. split; reflexivity.
  - left. exists e. reflexivity.
Qed.

(** X25. A run never adds a job to a registry, and it removes a job from a
    registry only when the registry's flag is set and the job ended before
    the cutoff [utcnow() - max_age_days]: jobs that are newer, unknown to RQ
    or without an end time stay, and with a flag unset its registry is left
    as it was. *)
Theorem registry_eviction_removes_only_old_jobs E max_age_days cf cff st :
  let st' := fst (snd (run E max_age_days cf cff st)) in
  forall kind queue j,
    (j ∈ job_ids kind queue st' -> j ∈ job_ids kind queue st)
    /\ (j ∈ job_ids kind queue st ->
        j ∈ job_ids kind queue st'
        \/ (enabled kind cf cff = true /\ ended_before_cutoff E max_age_days j)).
Proof.
  intros st' kind queue j.
  destruct (cleanup_old_data_job_tidy E max_age_days cf cff (st, initial_locals))
    as (Hshrink & _).
  exact (Hshrink kind queue j).
Qed.

(** The failed job of the demo, which ended twenty days ago. *)
Lemma registry_eviction_witness :
  "failed-1" ∈ job_ids FailedJobs "default"
                 (fst (snd (run CleanupDemo.healthy 7 true true CleanupDemo.two_records)))
  \/ (enabled FailedJobs true true = true
      /\ ended_before_cutoff CleanupDemo.healthy 7 "failed-1").
Proof.
  apply (proj2 (registry_eviction_removes_only_old_jobs CleanupDemo.healthy 7 true true
                  CleanupDemo.two_records FailedJobs "default" "failed-1")).
  vm_compute. constructor.
Defined.

(** X26. The third phase only reports: over a whole run, the only warnings
    printed are for the queues [default], [high] and [low] whose size, as
    [SCARD] answered it, is above 1000, and nothing is ever counted as a
    cleaned stale queue: a successful result always has
    [stale_queues_cleaned] equal to 0. *)
Theorem stale_queue_phase_only_reports E max_age_days cf cff st :
  let r := run E max_age_days cf cff st in
  (exists more,
     warnings (effects (fst (snd r))) = warnings (effects st) ++ more
     /\ Forall (big_queue E) more)
  /\ ((exists e, fst r = Ret (error_result E e))
      \/ counter_of (fst r) "stale_queues_cleaned" = VInt 0).
Proof.
  intros r.
  destruct (cleanup_old_data_job_tidy E max_age_days cf cff (st, initial_locals))
    as (_ & Hwarn & Hstale).
  split; [exact Hwarn|].
  destruct (run_result_cases E max_age_days cf cff st) as [Herr | (d & Hd & _ & Hres)].
  - left. exact Herr.
  - right. fold r in Hd, Hres. unfold counter_of. rewrite Hd, Hres.
    cbn. f_equal. apply Hstale. reflexivity.
Qed.

End CleanupExtra.


Module JobExecutorExtra.
Import JobExecutor.

Lemma context_block_unloadable C p : loadable C p = false -> context_block C p = [].
Proof.
  unfold loadable, context_block.
  destruct (path_exists C p) as [[|]|]; try reflexivity.
  destruct (path_is_file C p) as [[|]|]; try reflexivity.
  destruct (read_text C p); [discriminate | reflexivity].
Qed.

Lemma context_parts_filter C paths :
  flat_map (context_block C) (List.filter (loadable C) paths)
  = flat_map (context_block C) paths.
Proof.
  induction paths as [|p paths IH]; [reflexivity|]. cbn [List.filter flat_map].
  destruct (loadable C p) eqn:Hp.
  - cbn [flat_map]. now rewrite IH.
  - now rewrite (context_block_unloadable C p Hp), IH.
Qed.

Lemma load_context_files_parts C paths :
  _load_context_files C paths
  = match flat_map (context_block C) paths with
    | [] => ""
    | _ => String.concat LF (flat_map (context_block C) paths)
    end.
Proof. destruct paths; reflexivity. Qed.

(** X29. Context files that are missing, are not files or cannot be read
    never fail a task and leave no trace in the prompt: the task runs exactly
    as if they had not been listed, and when none of the listed files can be
    loaded the agent gets the bare prompt, as without any context files.  The
    timeout has no effect on the result. *)
Theorem unloadable_context_files_are_skipped C agent_type prompt paths t t' :
  execute_agent_task C agent_type prompt (Some paths) t
  = execute_agent_task C agent_type prompt (Some (List.filter (loadable C) paths)) t'
  /\ (List.filter (loadable C) paths = [] ->
      execute_agent_task C agent_type prompt (Some paths) t
      = execute_agent_task C agent_type prompt None t'
      /\ execute_agent_task C agent_type prompt None t'
         = match run_agent C agent_type prompt with
           | Ret result =>
               [ ("success", success result);
                 ("output", py_or (output result) (VStr ""));
                 ("error", error result);
                 ("metadata", metadata result) ]
           | Raise e =>
               [ ("success", VBool false);
                 ("output", VStr "");
                 ("error", VStr (exn_msg e));
                 ("metadata", VDict []) ]
           end).
Proof.
  assert (Hsame : _load_context_files C paths
                  = _load_context_files C (List.filter (loadable C) paths)).
  { now rewrite !load_context_files_parts, context_parts_filter. }
  split.
  - unfold execute_agent_task. cbn [from_option id]. now rewrite Hsame.
  - intros Hnone. split.
    + unfold execute_agent_task. cbn [from_option id]. now rewrite Hsame, Hnone.
    + reflexivity.
Qed.

(** One listed file, which does not exist. *)
Lemma unloadable_context_files_witness :
  let C := {| run_agent := fun _ prompt =>
                Ret {| success := VBool true; output := VStr prompt;
                       error := VNone; metadata := VDict [] |};
              path_exists := fun _ => Ret false;
              path_is_file := fun _ => Ret false;
              read_text := fun _ => Raise (Exn "FileNotFoundError" "No such file") |} in
  execute_agent_task C "researcher" "Summarise" (Some ["/tmp/missing.md"]) (Some 5000)
  = execute_agent_task C "researcher" "Summarise" None None
  /\ execute_agent_task C "researcher" "Summarise" None None
     = [ ("success", VBool true);
         ("output", VStr "Summarise");
         ("error", VNone);
         ("metadata", VDict []) ].
Proof.
  intros C.
  apply (proj2 (unloadable_context_files_are_skipped C "researcher" "Summarise"
                  ["/tmp/missing.md"] (Some 5000) None)).
  reflexivity.
Defined.

End JobExecutorExtra.
